(** * Scalekit Vue SDK: session state machine and token-lifecycle controller

    A shallow embedding of the TypeScript sources
    (types/errors.ts, types/auth-state.ts, types/user.ts, types/config.ts,
    utils/auth-params.ts, utils/storage.ts, utils/user-manager-factory.ts,
    plugin.ts) together with the properties stated about them.

    Conventions of the embedding:
    - [undefined]/[null] of an optional field is [None];
    - a JavaScript object used as a string-keyed dictionary is a [gmap];
    - a thrown value is [Thrown]; a settled promise is [Settled];
    - the reactive state, the [userManager] variable, the browser window
      and the observable effects (engine calls, dispatches, callbacks,
      history replacements) are threaded through a state-and-exception
      monad [M]; an [await] is taken at the settled outcome of the awaited
      promise, so each operation is followed from its call to its
      settlement. *)

From Stdlib Require Import ZArith Bool Ascii String List.
From stdpp Require Import base option list gmap strings.

Set Warnings "-register-all".

Open Scope string_scope.
Open Scope list_scope.

(** ** JavaScript values and truthiness *)

(** Values of type [unknown] held in the OIDC claims dictionary. *)
Inductive JsValue : Type :=
| JUndefined
| JNull
| JBool (b : bool)
| JNum (n : Z)
| JStr (s : string)
| JArr (items : list JsValue).

(** [!!s] for a string. *)
Definition truthyStr (s : string) : bool :=
  match s with
  | EmptyString => false
  | String _ _ => true
  end.

(** [!!x] for an optional string ([undefined] is falsy). *)
Definition truthyOptStr (o : option string) : bool :=
  match o with
  | Some s => truthyStr s
  | None => false
  end.

(** [!!x] for an optional boolean. *)
Definition truthyOptBool (o : option bool) : bool :=
  match o with
  | Some b => b
  | None => false
  end.

(** [String.prototype.split] with a one-character separator: every
    occurrence of the separator cuts, empty pieces are kept, and the
    empty string splits into one empty piece. *)
Fixpoint split (sep : ascii) (s : string) : list string :=
  match s with
  | EmptyString => [EmptyString]
  | String c rest =>
      if Ascii.eqb c sep then EmptyString :: split sep rest
      else match split sep rest with
           | [] => [String c EmptyString]
           | w :: ws => String c w :: ws
           end
  end.

(** ** types/errors.ts *)

Module Errors.

(** The class an error object was constructed from ([instanceof] looks
    at this).  [BuiltinError] stands for [Error] and the engine's and the
    runtime's own subclasses (TypeError, ReferenceError, ...). *)
Inductive ErrorClass : Type :=
| BuiltinError
| ScalekitAuthErrorC
| LoginErrorC
| TokenRefreshErrorC
| LogoutErrorC
| ConfigurationErrorC
| CallbackErrorC
| NotInitializedErrorC
| NotAuthenticatedErrorC.

Inductive Error : Type :=
  MkError (cls : ErrorClass) (name message : string)
          (code : option string) (cause : option Error).

Definition errClass (e : Error) : ErrorClass :=
  match e with MkError c _ _ _ _ => c end.
Definition errName (e : Error) : string :=
  match e with MkError _ n _ _ _ => n end.
Definition errMessage (e : Error) : string :=
  match e with MkError _ _ m _ _ => m end.
Definition errCode (e : Error) : option string :=
  match e with MkError _ _ _ c _ => c end.
Definition errCause (e : Error) : option Error :=
  match e with MkError _ _ _ _ c => c end.

(** [new Error(message)] *)
Definition newError (message : string) : Error :=
  MkError BuiltinError "Error" message None None.

Definition LoginError (message : string) (cause : option Error) : Error :=
  MkError LoginErrorC "LoginError" message (Some "LOGIN_ERROR") cause.

Definition TokenRefreshError (message : string) (cause : option Error) : Error :=
  MkError TokenRefreshErrorC "TokenRefreshError" message
          (Some "TOKEN_REFRESH_ERROR") cause.

Definition LogoutError (message : string) (cause : option Error) : Error :=
  MkError LogoutErrorC "LogoutError" message (Some "LOGOUT_ERROR") cause.

Definition ConfigurationError (message : string) (cause : option Error) : Error :=
  MkError ConfigurationErrorC "ConfigurationError" message
          (Some "CONFIGURATION_ERROR") cause.

Definition CallbackError (message : string) (cause : option Error) : Error :=
  MkError CallbackErrorC "CallbackError" message (Some "CALLBACK_ERROR") cause.

Definition NotInitializedError : Error :=
  MkError NotInitializedErrorC "NotInitializedError"
    "Scalekit Auth SDK is not initialized. Make sure you have installed the ScalekitAuthPlugin."
    (Some "NOT_INITIALIZED_ERROR") None.

(** The constructor's [message] parameter defaults to
    ['User is not authenticated']. *)
Definition NotAuthenticatedError (message : option string) : Error :=
  MkError NotAuthenticatedErrorC "NotAuthenticatedError"
          (default "User is not authenticated" message)
          (Some "NOT_AUTHENTICATED_ERROR") None.

(** [e instanceof NotAuthenticatedError] (the class has no subclass). *)
Definition isNotAuthenticatedError (e : Error) : bool :=
  match errClass e with
  | NotAuthenticatedErrorC => true
  | _ => false
  end.

(** Anything a [throw] or a rejected promise can carry: an [Error]
    object or some other value. *)
Inductive Thrown : Type :=
| ThrowError (e : Error)
| ThrowValue (v : JsValue).

(** [error instanceof Error ? error : undefined] *)
Definition asError (t : Thrown) : option Error :=
  match t with
  | ThrowError e => Some e
  | ThrowValue _ => None
  end.

End Errors.
Export Errors.

(** ** types/user.ts *)

Module User.

(** The protocol engine's session object, as far as the SDK reads it.
    [expired] is the truthiness of the engine's [expired] getter when it
    is read. *)
Record OidcUser : Type := mkOidcUser {
  profile : gmap string JsValue;
  id_token : option string;
  access_token : string;
  expires_at : option Z;
  refresh_token : option string;
  scope : option string;
  expired : bool
}.

(** The [as string | undefined] casts of the source check nothing at run
    time, so each field holds whatever the claim holds. *)
Record ScalekitUserMetadata : Type := mkMetadata {
  organizationId : option JsValue;
  connectionId : option JsValue;
  identityProvider : option JsValue;
  roles : option JsValue;
  groups : option JsValue
}.

(** [expiresAt] is a [Date], held as milliseconds since the epoch. *)
Record ScalekitUser : Type := mkScalekitUser {
  userProfile : gmap string JsValue;
  metadata : ScalekitUserMetadata;
  idToken : string;
  accessToken : string;
  expiresAt : option Z;
  refreshToken : option string;
  scopes : list string
}.

Definition mapOidcUserToScalekitUser (oidcUser : OidcUser) : ScalekitUser :=
  let profile := profile oidcUser in
  let metadata :=
    {| organizationId := profile !! "org_id";
       connectionId := profile !! "connection_id";
       identityProvider := profile !! "idp";
       roles := profile !! "roles";
       groups := profile !! "groups" |} in
  {| userProfile := profile;
     metadata := metadata;
     (* oidcUser.id_token || '' *)
     idToken := match id_token oidcUser with
                | Some s => if truthyStr s then s else ""
                | None => ""
                end;
     accessToken := access_token oidcUser;
     (* oidcUser.expires_at ? new Date(oidcUser.expires_at * 1000) : undefined *)
     expiresAt := match expires_at oidcUser with
                  | Some n => if (n =? 0)%Z then None else Some (n * 1000)%Z
                  | None => None
                  end;
     refreshToken := refresh_token oidcUser;
     (* oidcUser.scope?.split(' ') || []  (an array is always truthy) *)
     scopes := match scope oidcUser with
               | Some s => split " " s
               | None => []
               end |}.

End User.
Export User.

(** ** types/auth-state.ts *)

Module AuthStateTypes.

Record AuthState : Type := mkAuthState {
  isLoading : bool;
  isAuthenticated : bool;
  user : option ScalekitUser;
  error : option Error
}.

Inductive AuthAction : Type :=
| INITIALIZING
| INITIALIZED (user : option ScalekitUser)
| LOGIN_STARTED
| LOGIN_COMPLETED (user : ScalekitUser)
| LOGOUT_COMPLETED
| TOKEN_REFRESHED (user : ScalekitUser)
| ERROR (error : Error).

Definition initialAuthState : AuthState :=
  {| isLoading := true; isAuthenticated := false; user := None; error := None |}.

(** [if (action.user)]: a user object is truthy, [null] is not. *)
Definition authReducer (state : AuthState) (action : AuthAction) : AuthState :=
  match action with
  | INITIALIZING =>
      {| isLoading := true; isAuthenticated := false; user := None; error := None |}
  | INITIALIZED u =>
      match u with
      | Some u' =>
          {| isLoading := false; isAuthenticated := true; user := Some u'; error := None |}
      | None =>
          {| isLoading := false; isAuthenticated := false; user := None; error := None |}
      end
  | LOGIN_STARTED =>
      {| isLoading := true; isAuthenticated := false; user := None; error := None |}
  | LOGIN_COMPLETED u =>
      {| isLoading := false; isAuthenticated := true; user := Some u; error := None |}
  | LOGOUT_COMPLETED =>
      {| isLoading := false; isAuthenticated := false; user := None; error := None |}
  | TOKEN_REFRESHED u =>
      {| isLoading := false; isAuthenticated := true; user := Some u; error := None |}
  | ERROR e =>
      {| isLoading := false; isAuthenticated := false; user := None; error := Some e |}
  end.

(** The four variants of the [AuthState] union. *)
Inductive Variant : Type := Initializing | Unauthenticated | Authenticated | Errored.

Definition inVariant (v : Variant) (s : AuthState) : Prop :=
  match v with
  | Initializing =>
      isLoading s = true /\ isAuthenticated s = false /\ user s = None /\ error s = None
  | Unauthenticated =>
      isLoading s = false /\ isAuthenticated s = false /\ user s = None /\ error s = None
  | Authenticated =>
      isLoading s = false /\ isAuthenticated s = true /\ user s <> None /\ error s = None
  | Errored =>
      isLoading s = false /\ isAuthenticated s = false /\ user s = None /\ error s <> None
  end.

(** Field assignments [state.f = v] of the reactive object. *)
Definition set_isLoading (b : bool) (s : AuthState) : AuthState :=
  {| isLoading := b; isAuthenticated := isAuthenticated s; user := user s; error := error s |}.
Definition set_isAuthenticated (b : bool) (s : AuthState) : AuthState :=
  {| isLoading := isLoading s; isAuthenticated := b; user := user s; error := error s |}.
Definition set_user (u : option ScalekitUser) (s : AuthState) : AuthState :=
  {| isLoading := isLoading s; isAuthenticated := isAuthenticated s; user := u; error := error s |}.
Definition set_error (e : option Error) (s : AuthState) : AuthState :=
  {| isLoading := isLoading s; isAuthenticated := isAuthenticated s; user := user s; error := e |}.

End AuthStateTypes.
Export AuthStateTypes.

(** ** types/config.ts *)

Module Config.

Inductive StorageType : Type := sessionStorage | localStorage | memory.

(** [ScalekitAuthConfig].  The three required fields are optional here so
    that a caller leaving one out (an untyped caller, or a cast) can be
    expressed: [None] is [undefined]. *)
Record ScalekitAuthConfig : Type := mkConfig {
  environmentUrl : option string;
  clientId : option string;
  redirectUri : option string;
  cfgScopes : option string;
  postLogoutRedirectUri : option string;
  storage : option StorageType;
  automaticSilentRenew : option bool
}.

Record LoginWithRedirectOptions : Type := mkLoginOptions {
  returnTo : option string;
  loginOrganizationId : option string;
  loginConnectionId : option string;
  loginHint : option string;
  extraQueryParams : option (gmap string string)
}.

Record LoginWithPopupOptions : Type := mkPopupOptions {
  popupBase : LoginWithRedirectOptions;
  popupWidth : option Z;
  popupHeight : option Z
}.

Record LogoutOptions : Type := mkLogoutOptions {
  federated : option bool;
  logoutPostLogoutRedirectUri : option string;
  logoutState : option string
}.

Record GetAccessTokenOptions : Type := mkTokenOptions {
  tokenScopes : option (list string);
  forceRefresh : option bool
}.

(** [ScalekitAuthPluginOptions]: the configuration, [autoHandleCallback]
    and the two callbacks.  A callback is user code: it is given by what
    it does when called, return ([None]) or throw. *)
Record ScalekitAuthPluginOptions : Type := mkPluginOptions {
  config : ScalekitAuthConfig;
  autoHandleCallback : option bool;
  onRedirectCallback : option (ScalekitUser -> option Thrown);
  onError : option (Error -> option Thrown)
}.

End Config.
Export Config.

(** ** constants.ts *)

Module Constants.

Definition DEFAULT_SCOPES : string := "openid profile email offline_access".
Definition RESPONSE_TYPE : string := "code".
Definition STORAGE_KEY_PREFIX : string := "scalekit_auth".

Definition OIDC_CODE : string := "code".
Definition OIDC_STATE : string := "state".
Definition OIDC_ERROR : string := "error".
Definition OIDC_ERROR_DESCRIPTION : string := "error_description".
Definition OIDC_SESSION_STATE : string := "session_state".

Definition SCALEKIT_ORGANIZATION_ID : string := "organization_id".
Definition SCALEKIT_CONNECTION_ID : string := "connection_id".
Definition SCALEKIT_LOGIN_HINT : string := "login_hint".

Definition DEFAULT_POPUP_WIDTH : Z := 500.
Definition DEFAULT_POPUP_HEIGHT : Z := 600.

End Constants.
Export Constants.

(** ** The browser and the protocol engine *)

Module Runtime.

(** A navigation address as the browser's [URL] object holds it: what
    precedes the query, the decoded query pairs in order
    ([url.searchParams]), and the fragment.  Parsing [location.href] into
    this and printing it back ([url.toString()]) are the browser's; an
    address written by [replaceState] is read back with the pairs it was
    written with. *)
Record Url : Type := mkUrl {
  urlBase : string;
  searchParams : list (string * string);
  urlHash : string
}.

(** [URLSearchParams.has] *)
Definition paramsHas (name : string) (ps : list (string * string)) : bool :=
  existsb (fun p => String.eqb (fst p) name) ps.

(** [URLSearchParams.get] *)
Definition paramsGet (name : string) (ps : list (string * string)) : option string :=
  snd <$> List.find (fun p => String.eqb (fst p) name) ps.

(** [URLSearchParams.delete]: every pair of that name goes. *)
Definition paramsDelete (name : string) (ps : list (string * string))
  : list (string * string) :=
  List.filter (fun p => negb (String.eqb (fst p) name)) ps.

Definition urlDelete (name : string) (u : Url) : Url :=
  {| urlBase := urlBase u;
     searchParams := paramsDelete name (searchParams u);
     urlHash := urlHash u |}.

(** What reading [window.localStorage] or [window.sessionStorage] gives:
    the storage object; nothing, where the environment has no such
    storage; or a thrown SecurityError, where the browser denies the page
    access to storage. *)
Inductive StorageGetter : Type :=
| StorageObject
| StorageMissing
| StorageDenied (t : Thrown).

(** The global [window], where there is one. *)
Record Window : Type := mkWindow {
  location : Url;
  localStorageGetter : StorageGetter;
  sessionStorageGetter : StorageGetter
}.

(** Which [Storage] object a store writes to; the in-memory one is a
    module-level singleton. *)
Inductive StorageBackend : Type :=
| WindowLocalStorage
| WindowSessionStorage
| InMemoryStorage.

Record WebStorageStateStore : Type := mkStore {
  store : StorageBackend;
  prefix : option string
}.

Record OidcMetadata : Type := mkMetadataEndpoints {
  md_issuer : string;
  md_authorization_endpoint : string;
  md_token_endpoint : string;
  md_userinfo_endpoint : string;
  md_end_session_endpoint : string;
  md_revocation_endpoint : string;
  md_introspection_endpoint : string
}.

Record UserManagerSettings : Type := mkSettings {
  authority : string;
  client_id : option string;
  redirect_uri : option string;
  response_type : string;
  settingsScope : string;
  post_logout_redirect_uri : option string;
  settingsAutomaticSilentRenew : bool;
  userStore : WebStorageStateStore;
  stateStore : WebStorageStateStore;
  oidcMetadata : OidcMetadata;
  loadUserInfo : bool;
  monitorSession : bool;
  filterProtocolClaims : bool
}.

(** The engine object, known by the settings it was built from. *)
Record UserManager : Type := mkUserManager { settings : UserManagerSettings }.

(** What the engine answers when called: the settled outcome of the
    promise each method returns. *)
Inductive Settled (A : Type) : Type :=
| Fulfilled (a : A)
| Rejected (t : Thrown).
Arguments Fulfilled {A} a.
Arguments Rejected {A} t.

Record Engine : Type := mkEngine {
  getUser : Settled (option OidcUser);
  signinSilent : Settled (option OidcUser);
  signinRedirectCallback : Settled OidcUser;
  signinRedirect : Settled unit;
  signinPopup : Settled OidcUser;
  signoutRedirect : Settled unit
}.

(** The argument of the controller's [dispatch]:
    [{ type: string; user?: ScalekitUser | null; error?: Error }]. *)
Record DispatchAction : Type := mkAction {
  type : string;
  actionUser : option ScalekitUser;
  actionError : option Error
}.

(** Everything an operation does that an observer outside it can see. *)
Inductive Event : Type :=
| EvConsoleWarn (msg : string)
| EvReplaceState (url : Url)
| EvNewUserManager (s : UserManagerSettings)
| EvAddUserLoaded
| EvAddUserUnloaded
| EvAddSilentRenewError
| EvAddAccessTokenExpired
| EvGetUser
| EvSigninSilent
| EvSigninRedirectCallback
| EvSigninRedirect (state : option string) (extra : option (gmap string string))
| EvSigninPopup (width height : Z) (extra : option (gmap string string))
| EvSignoutRedirect (post_logout_redirect_uri : option string) (state : option string)
| EvDispatch (action : DispatchAction)
| EvOnError (e : Error)
| EvOnRedirectCallback (u : ScalekitUser)
| EvProvide.

(** A call into the engine (the only events that can reach the network). *)
Definition isEngineCall (ev : Event) : bool :=
  match ev with
  | EvGetUser | EvSigninSilent | EvSigninRedirectCallback
  | EvSigninRedirect _ _ | EvSigninPopup _ _ _ | EvSignoutRedirect _ _ => true
  | _ => false
  end.

(** The mutable world of one auth instance: the reactive [state], the
    [userManager] variable of the closure, the window, and the events so
    far (oldest first). *)
Record World : Type := mkWorld {
  authState : AuthState;
  userManager : option UserManager;
  window : option Window;
  trace : list Event
}.

(** How a statement ends: normally with a value, or by a [throw]. *)
Inductive Completion (A : Type) : Type :=
| Normal (a : A)
| Throw (t : Thrown).
Arguments Normal {A} a.
Arguments Throw {A} t.

Definition M (A : Type) : Type := World -> Completion A * World.

Definition ret {A} (a : A) : M A := fun w => (Normal a, w).

Definition bind {A B} (m : M A) (k : A -> M B) : M B :=
  fun w => match m w with
           | (Normal a, w') => k a w'
           | (Throw t, w') => (Throw t, w')
           end.

Definition throw {A} (t : Thrown) : M A := fun w => (Throw t, w).

(** [try { body } catch (error) { handler }] *)
Definition tryCatch {A} (body : M A) (handler : Thrown -> M A) : M A :=
  fun w => match body w with
           | (Normal a, w') => (Normal a, w')
           | (Throw t, w') => handler t w'
           end.

(** The call of an [async function]: its body runs, and however it ends
    the call itself returns a promise. *)
Definition async {A} (body : M A) : M (Settled A) :=
  fun w => match body w with
           | (Normal a, w') => (Normal (Fulfilled a), w')
           | (Throw t, w') => (Normal (Rejected t), w')
           end.

(** [await p] *)
Definition await {A} (p : Settled A) : M A :=
  match p with
  | Fulfilled a => ret a
  | Rejected t => throw t
  end.

Definition emit (ev : Event) : M unit :=
  fun w => (Normal tt,
            {| authState := authState w; userManager := userManager w;
               window := window w; trace := trace w ++ [ev] |}).

Definition getWindow : M (option Window) := fun w => (Normal (window w), w).

Definition getUserManager : M (option UserManager) :=
  fun w => (Normal (userManager w), w).

Definition setUserManager (um : option UserManager) : M unit :=
  fun w => (Normal tt,
            {| authState := authState w; userManager := um;
               window := window w; trace := trace w |}).

Definition modifyState (f : AuthState -> AuthState) : M unit :=
  fun w => (Normal tt,
            {| authState := f (authState w); userManager := userManager w;
               window := window w; trace := trace w |}).

(** [window.history.replaceState({}, document.title, url.toString())]:
    the current entry's address becomes [url]; no entry is added. *)
Definition replaceState (url : Url) : M unit :=
  fun w => (Normal tt,
            {| authState := authState w; userManager := userManager w;
               window := (fun win => {| location := url;
                                        localStorageGetter := localStorageGetter win;
                                        sessionStorageGetter := sessionStorageGetter win |})
                         <$> window w;
               trace := trace w ++ [EvReplaceState url] |}).

(** Reading the global [window] where none is defined. *)
Definition windowIsNotDefined : Thrown :=
  ThrowError (MkError BuiltinError "ReferenceError" "window is not defined" None None).

Definition result {A} (r : Completion A * World) : Completion A := fst r.
Definition world {A} (r : Completion A * World) : World := snd r.

End Runtime.
Export Runtime.

Notation "x <- m ;; k" := (bind m (fun x => k))
  (at level 100, m at next level, right associativity).
Notation "m ;;; k" := (bind m (fun _ => k))
  (at level 100, right associativity).

(** ** utils/auth-params.ts *)

Module AuthParams.

(** [new URLSearchParams(searchParams ?? window.location.search)]; an
    explicit argument is given already parsed. *)
Definition currentParams (searchParams : option (list (string * string)))
  : M (list (string * string)) :=
  match searchParams with
  | Some ps => ret ps
  | None =>
      win <- getWindow ;;
      match win with
      | Some w => ret (Runtime.searchParams (location w))
      | None => throw windowIsNotDefined
      end
  end.

Definition hasAuthParams (searchParams : option (list (string * string))) : M bool :=
  params <- currentParams searchParams ;;
  ret (paramsHas OIDC_CODE params || paramsHas OIDC_ERROR params).

Definition hasAuthError (searchParams : option (list (string * string))) : M bool :=
  params <- currentParams searchParams ;;
  ret (paramsHas OIDC_ERROR params).

Definition paramsToRemove : list string :=
  [OIDC_CODE; OIDC_STATE; OIDC_ERROR; OIDC_ERROR_DESCRIPTION; OIDC_SESSION_STATE].

(** One turn of the [forEach] callback over the pair ([url], [hasParams]). *)
Definition removeParam (acc : Url * bool) (param : string) : Url * bool :=
  let (url, hasParams) := acc in
  if paramsHas param (Runtime.searchParams url)
  then (urlDelete param url, true)
  else (url, hasParams).

Definition cleanupAuthParams : M unit :=
  win <- getWindow ;;
  match win with
  | None => ret tt                      (* typeof window === 'undefined' *)
  | Some w =>
      let url := location w in
      let (url', hasParams) := fold_left removeParam paramsToRemove (url, false) in
      if hasParams then replaceState url' else ret tt
  end.

(** The part of [buildScalekitParams] before the merge: the routing
    parameters, each set when its option is truthy. *)
Definition routingParams (options : LoginWithRedirectOptions) : gmap string string :=
  let params : gmap string string := ∅ in
  let params :=
    match loginOrganizationId options with
    | Some v => if truthyStr v then <[SCALEKIT_ORGANIZATION_ID := v]> params else params
    | None => params
    end in
  let params :=
    match loginConnectionId options with
    | Some v => if truthyStr v then <[SCALEKIT_CONNECTION_ID := v]> params else params
    | None => params
    end in
  let params :=
    match loginHint options with
    | Some v => if truthyStr v then <[SCALEKIT_LOGIN_HINT := v]> params else params
    | None => params
    end in
  params.

(** [Object.assign(target, source)]: every own key of [source] is set on
    [target]. *)
Definition objectAssign (target source : gmap string string) : gmap string string :=
  source ∪ target.

Definition buildScalekitParams (options : LoginWithRedirectOptions) : gmap string string :=
  let params := routingParams options in
  match extraQueryParams options with
  | Some extra => objectAssign params extra
  | None => params
  end.

End AuthParams.
Export AuthParams.

(** ** utils/storage.ts *)

Module Storage.

(** [typeof window !== 'undefined' && window.x], for [x] one of the two
    storages: false without a window and where the getter gives nothing;
    where the getter throws, its error is thrown on.  The same getter is
    read again by [return window.x], with the same outcome. *)
Definition windowStorage (getter : Window -> StorageGetter) : M bool :=
  win <- getWindow ;;
  match win with
  | None => ret false
  | Some win =>
      match getter win with
      | StorageObject => ret true
      | StorageMissing => ret false
      | StorageDenied t => throw t
      end
  end.

Definition getStorage (storageType : StorageType) : M StorageBackend :=
  match storageType with
  | localStorage =>
      available <- windowStorage localStorageGetter ;;
      if available then ret WindowLocalStorage
      else emit (EvConsoleWarn "localStorage not available, falling back to memory storage") ;;;
           ret InMemoryStorage
  | sessionStorage =>
      available <- windowStorage sessionStorageGetter ;;
      if available then ret WindowSessionStorage
      else emit (EvConsoleWarn "sessionStorage not available, falling back to memory storage") ;;;
           ret InMemoryStorage
  | memory => ret InMemoryStorage
  end.

Definition createStateStore (storageType : StorageType) : M WebStorageStateStore :=
  storage <- getStorage storageType ;;
  ret {| store := storage; prefix := None |}.

End Storage.
Export Storage.

(** ** utils/user-manager-factory.ts *)

Module UserManagerFactory.

(** [url.replace(/\/+$/, '')]: the trailing slashes go. *)
Fixpoint normalizeUrl (url : string) : string :=
  match url with
  | EmptyString => EmptyString
  | String c rest =>
      match normalizeUrl rest with
      | EmptyString => if Ascii.eqb c "/" then EmptyString else String c EmptyString
      | r => String c r
      end
  end.

Record Endpoints : Type := mkEndpoints {
  issuer : string;
  authorization_endpoint : string;
  token_endpoint : string;
  userinfo_endpoint : string;
  end_session_endpoint : string;
  jwks_uri : string;
  revocation_endpoint : string;
  introspection_endpoint : string
}.

(** Reading a property of [undefined]. *)
Definition typeError (message : string) : Thrown :=
  ThrowError (MkError BuiltinError "TypeError" message None None).

Definition buildScalekitEndpoints (environmentUrl : option string) : M Endpoints :=
  match environmentUrl with
  | None => throw (typeError "Cannot read properties of undefined (reading 'replace')")
  | Some url =>
      let baseUrl := normalizeUrl url in
      ret {| issuer := baseUrl;
             authorization_endpoint := baseUrl ++ "/oauth/authorize";
             token_endpoint := baseUrl ++ "/oauth/token";
             userinfo_endpoint := baseUrl ++ "/userinfo";
             end_session_endpoint := baseUrl ++ "/oidc/logout";
             jwks_uri := baseUrl ++ "/keys";
             revocation_endpoint := baseUrl ++ "/revoke";
             introspection_endpoint := baseUrl ++ "/oauth/introspect" |}
  end.

(** [`${x}`] *)
Definition interpolate (x : option string) : string := default "undefined" x.

Section WithUrlParser.

(** Whether the browser's [new URL(s)] accepts [s] as an absolute URL. *)
Variable canParseUrl : string -> bool.

Definition newURL (s : option string) : M unit :=
  if canParseUrl (interpolate s) then ret tt
  else throw (typeError "Invalid URL").

Definition configurationError (message : string) : Thrown :=
  ThrowError (ConfigurationError message None).

Definition validateConfig (config : ScalekitAuthConfig) : M unit :=
  if negb (truthyOptStr (environmentUrl config))
  then throw (configurationError "environmentUrl is required") else
  if negb (truthyOptStr (clientId config))
  then throw (configurationError "clientId is required") else
  if negb (truthyOptStr (redirectUri config))
  then throw (configurationError "redirectUri is required") else
  tryCatch (newURL (environmentUrl config))
    (fun _ => throw (configurationError
                       ("Invalid environmentUrl: " ++ interpolate (environmentUrl config)))) ;;;
  tryCatch (newURL (redirectUri config))
    (fun _ => throw (configurationError
                       ("Invalid redirectUri URL: " ++ interpolate (redirectUri config)))) ;;;
  if truthyOptStr (postLogoutRedirectUri config)
  then tryCatch (newURL (postLogoutRedirectUri config))
         (fun _ => throw (configurationError
                            ("Invalid postLogoutRedirectUri URL: "
                               ++ interpolate (postLogoutRedirectUri config))))
  else ret tt.

Definition mapConfigToSettings (config : ScalekitAuthConfig) : M UserManagerSettings :=
  let storageType := default sessionStorage (Config.storage config) in
  storage <- getStorage storageType ;;
  stateStore <- createStateStore storageType ;;
  endpoints <- buildScalekitEndpoints (environmentUrl config) ;;
  ret {| authority := issuer endpoints;
         client_id := clientId config;
         redirect_uri := redirectUri config;
         response_type := RESPONSE_TYPE;
         settingsScope := default DEFAULT_SCOPES (cfgScopes config);
         post_logout_redirect_uri := postLogoutRedirectUri config;
         settingsAutomaticSilentRenew := default true (automaticSilentRenew config);
         userStore := {| store := storage; prefix := Some STORAGE_KEY_PREFIX |};
         Runtime.stateStore := stateStore;
         oidcMetadata :=
           {| md_issuer := issuer endpoints;
              md_authorization_endpoint := authorization_endpoint endpoints;
              md_token_endpoint := token_endpoint endpoints;
              md_userinfo_endpoint := userinfo_endpoint endpoints;
              md_end_session_endpoint := end_session_endpoint endpoints;
              md_revocation_endpoint := revocation_endpoint endpoints;
              md_introspection_endpoint := introspection_endpoint endpoints |};
         loadUserInfo := true;
         monitorSession := false;
         filterProtocolClaims := true |}.

(** [new UserManager(settings)] is recorded: from here on a
    network-capable object exists. *)
Definition createUserManager (config : ScalekitAuthConfig) : M UserManager :=
  validateConfig config ;;;
  settings <- mapConfigToSettings config ;;
  emit (EvNewUserManager settings) ;;;
  ret {| settings := settings |}.

End WithUrlParser.

End UserManagerFactory.
Export UserManagerFactory.

(** ** plugin.ts *)

Module Plugin.

(** The [switch (action.type)] of [dispatch], as the assignments it makes
    to the reactive state, in order.  No case for an unknown type. *)
Definition dispatchSwitch (action : DispatchAction) (state : AuthState) : AuthState :=
  if String.eqb (type action) "INITIALIZING" then
    let s := set_isLoading true state in
    let s := set_isAuthenticated false s in
    let s := set_user None s in
    set_error None s
  else if String.eqb (type action) "INITIALIZED" then
    let s := set_isLoading false state in
    let s := match actionUser action with
             | Some u => set_user (Some u) (set_isAuthenticated true s)
             | None => set_user None (set_isAuthenticated false s)
             end in
    set_error None s
  else if String.eqb (type action) "LOGIN_STARTED" then
    let s := set_isLoading true state in
    let s := set_isAuthenticated false s in
    let s := set_user None s in
    set_error None s
  else if String.eqb (type action) "LOGIN_COMPLETED" then
    let s := set_isLoading false state in
    let s := set_isAuthenticated true s in
    let s := set_user (actionUser action) s in
    set_error None s
  else if String.eqb (type action) "LOGOUT_COMPLETED" then
    let s := set_isLoading false state in
    let s := set_isAuthenticated false s in
    let s := set_user None s in
    set_error None s
  else if String.eqb (type action) "TOKEN_REFRESHED" then
    let s := set_isLoading false state in
    let s := set_isAuthenticated true s in
    let s := set_user (actionUser action) s in
    set_error None s
  else if String.eqb (type action) "ERROR" then
    let s := set_isLoading false state in
    let s := set_isAuthenticated false s in
    let s := set_user None s in
    set_error (actionError action) s
  else state.

Definition dispatch (action : DispatchAction) : M unit :=
  emit (EvDispatch action) ;;;
  modifyState (dispatchSwitch action).

(** The object literal each [AuthAction] is written as at a call of
    [dispatch]. *)
Definition toDispatchAction (a : AuthAction) : DispatchAction :=
  match a with
  | INITIALIZING => {| type := "INITIALIZING"; actionUser := None; actionError := None |}
  | INITIALIZED u => {| type := "INITIALIZED"; actionUser := u; actionError := None |}
  | LOGIN_STARTED => {| type := "LOGIN_STARTED"; actionUser := None; actionError := None |}
  | LOGIN_COMPLETED u =>
      {| type := "LOGIN_COMPLETED"; actionUser := Some u; actionError := None |}
  | LOGOUT_COMPLETED =>
      {| type := "LOGOUT_COMPLETED"; actionUser := None; actionError := None |}
  | TOKEN_REFRESHED u =>
      {| type := "TOKEN_REFRESHED"; actionUser := Some u; actionError := None |}
  | ERROR e => {| type := "ERROR"; actionUser := None; actionError := Some e |}
  end.

Section Controller.

Variable canParseUrl : string -> bool.
Variable engine : Engine.
Variable options : ScalekitAuthPluginOptions.

(** [onError?.(e)] *)
Definition callOnError (e : Error) : M unit :=
  match onError options with
  | None => ret tt
  | Some f =>
      emit (EvOnError e) ;;;
      match f e with
      | None => ret tt
      | Some t => throw t
      end
  end.

(** [onRedirectCallback?.({ user, appState: undefined })] *)
Definition callOnRedirectCallback (u : ScalekitUser) : M unit :=
  match onRedirectCallback options with
  | None => ret tt
  | Some f =>
      emit (EvOnRedirectCallback u) ;;;
      match f u with
      | None => ret tt
      | Some t => throw t
      end
  end.

(** A call of an engine method: recorded, answered by the engine. *)
Definition engineCall {A} (ev : Event) (answer : Settled A) : M (Settled A) :=
  emit ev ;;; ret answer.

Definition handleRedirectCallback : M (Settled ScalekitUser) :=
  async (
    um <- getUserManager ;;
    match um with
    | None => throw (ThrowError (CallbackError "UserManager not initialized" None))
    | Some _ =>
        tryCatch (
          p <- engineCall EvSigninRedirectCallback (signinRedirectCallback engine) ;;
          oidcUser <- await p ;;
          let scalekitUser := mapOidcUserToScalekitUser oidcUser in
          dispatch {| type := "LOGIN_COMPLETED"; actionUser := Some scalekitUser;
                      actionError := None |} ;;;
          cleanupAuthParams ;;;
          ret scalekitUser)
        (fun error =>
          let callbackError :=
            CallbackError "Failed to process authentication callback" (asError error) in
          dispatch {| type := "ERROR"; actionUser := None;
                      actionError := Some callbackError |} ;;;
          throw (ThrowError callbackError))
    end).

(** The four Event Bridge listeners registered by [initialize]. *)
Definition onUserLoaded (oidcUser : OidcUser) : M unit :=
  let scalekitUser := mapOidcUserToScalekitUser oidcUser in
  dispatch {| type := "TOKEN_REFRESHED"; actionUser := Some scalekitUser;
              actionError := None |}.

Definition onUserUnloaded : M unit :=
  dispatch {| type := "LOGOUT_COMPLETED"; actionUser := None; actionError := None |}.

Definition onSilentRenewError (error : Error) : M unit :=
  let refreshError := TokenRefreshError "Silent token renewal failed" (Some error) in
  dispatch {| type := "ERROR"; actionUser := None; actionError := Some refreshError |} ;;;
  callOnError refreshError.

Definition onAccessTokenExpired : M unit :=
  dispatch {| type := "LOGOUT_COMPLETED"; actionUser := None; actionError := None |}.

Definition initialize : M (Settled unit) :=
  async (
    um <- createUserManager canParseUrl (config options) ;;
    setUserManager (Some um) ;;;
    emit EvAddUserLoaded ;;;
    emit EvAddUserUnloaded ;;;
    emit EvAddSilentRenewError ;;;
    emit EvAddAccessTokenExpired ;;;
    tryCatch (
      (* autoHandleCallback = true by default; && short-circuits *)
      isCallback <- (if default true (autoHandleCallback options)
                     then hasAuthParams None else ret false) ;;
      if isCallback then
        p <- handleRedirectCallback ;;
        user <- await p ;;
        callOnRedirectCallback user
      else
        p <- engineCall EvGetUser (getUser engine) ;;
        oidcUser <- await p ;;
        match oidcUser with
        | Some u =>
            if negb (expired u) then
              let scalekitUser := mapOidcUserToScalekitUser u in
              dispatch {| type := "INITIALIZED"; actionUser := Some scalekitUser;
                          actionError := None |}
            else
              dispatch {| type := "INITIALIZED"; actionUser := None; actionError := None |}
        | None =>
            dispatch {| type := "INITIALIZED"; actionUser := None; actionError := None |}
        end)
    (fun error =>
      let initError := default (newError "Initialization failed") (asError error) in
      dispatch {| type := "ERROR"; actionUser := None; actionError := Some initError |} ;;;
      callOnError initError)).

(** [Object.keys(extraQueryParams).length > 0 ? extraQueryParams : undefined] *)
Definition nonEmptyParams (m : gmap string string) : option (gmap string string) :=
  if (0 <? size m)%nat then Some m else None.

Definition loginWithRedirect (opts : LoginWithRedirectOptions) : M (Settled unit) :=
  async (
    um <- getUserManager ;;
    match um with
    | None => throw (ThrowError (LoginError "UserManager not initialized" None))
    | Some _ =>
        tryCatch (
          dispatch {| type := "LOGIN_STARTED"; actionUser := None; actionError := None |} ;;;
          let extraQueryParams := buildScalekitParams opts in
          p <- engineCall
                 (EvSigninRedirect
                    (if truthyOptStr (returnTo opts) then returnTo opts else None)
                    (nonEmptyParams extraQueryParams))
                 (signinRedirect engine) ;;
          await p)
        (fun error =>
          let loginError := LoginError "Failed to initiate login" (asError error) in
          dispatch {| type := "ERROR"; actionUser := None; actionError := Some loginError |} ;;;
          throw (ThrowError loginError))
    end).

Definition loginWithPopup (opts : LoginWithPopupOptions) : M (Settled ScalekitUser) :=
  async (
    um <- getUserManager ;;
    match um with
    | None => throw (ThrowError (LoginError "UserManager not initialized" None))
    | Some _ =>
        tryCatch (
          dispatch {| type := "LOGIN_STARTED"; actionUser := None; actionError := None |} ;;;
          let extraQueryParams := buildScalekitParams (popupBase opts) in
          let popupWidth := default DEFAULT_POPUP_WIDTH (popupWidth opts) in
          let popupHeight := default DEFAULT_POPUP_HEIGHT (popupHeight opts) in
          p <- engineCall
                 (EvSigninPopup popupWidth popupHeight (nonEmptyParams extraQueryParams))
                 (signinPopup engine) ;;
          oidcUser <- await p ;;
          let scalekitUser := mapOidcUserToScalekitUser oidcUser in
          dispatch {| type := "LOGIN_COMPLETED"; actionUser := Some scalekitUser;
                      actionError := None |} ;;;
          ret scalekitUser)
        (fun error =>
          let loginError := LoginError "Popup login failed" (asError error) in
          dispatch {| type := "ERROR"; actionUser := None; actionError := Some loginError |} ;;;
          throw (ThrowError loginError))
    end).

Definition logout (opts : LogoutOptions) : M (Settled unit) :=
  async (
    um <- getUserManager ;;
    match um with
    | None => throw (ThrowError (LogoutError "UserManager not initialized" None))
    | Some _ =>
        tryCatch (
          p <- engineCall
                 (EvSignoutRedirect (logoutPostLogoutRedirectUri opts) (logoutState opts))
                 (signoutRedirect engine) ;;
          await p)
        (fun error =>
          let logoutError := LogoutError "Logout failed" (asError error) in
          dispatch {| type := "ERROR"; actionUser := None; actionError := Some logoutError |} ;;;
          throw (ThrowError logoutError))
    end).

(** The [try] block of [getAccessToken]. *)
Definition getAccessTokenBody (opts : GetAccessTokenOptions) : M string :=
  p <- engineCall EvGetUser (getUser engine) ;;
  oidcUser <- await p ;;
  match oidcUser with
  | None => throw (ThrowError (NotAuthenticatedError None))
  | Some u =>
      (* Force refresh if requested or if token is expired *)
      if truthyOptBool (forceRefresh opts) || expired u then
        p' <- engineCall EvSigninSilent (signinSilent engine) ;;
        renewed <- await p' ;;
        match renewed with
        | None => throw (ThrowError (TokenRefreshError "Silent refresh returned no user" None))
        | Some u' => ret (access_token u')
        end
      else ret (access_token u)
  end.

(** The [catch] block of [getAccessToken]. *)
Definition getAccessTokenCatch (error : Thrown) : M string :=
  match error with
  | ThrowError e =>
      if isNotAuthenticatedError e then throw error
      else throw (ThrowError (TokenRefreshError "Failed to get access token" (Some e)))
  | ThrowValue _ =>
      throw (ThrowError (TokenRefreshError "Failed to get access token" None))
  end.

Definition getAccessToken (opts : GetAccessTokenOptions) : M (Settled string) :=
  async (
    um <- getUserManager ;;
    match um with
    | None => throw (ThrowError (NotAuthenticatedError (Some "UserManager not initialized")))
    | Some _ => tryCatch (getAccessTokenBody opts) getAccessTokenCatch
    end).

Definition refreshToken : M (Settled (option ScalekitUser)) :=
  async (
    um <- getUserManager ;;
    match um with
    | None => ret None
    | Some _ =>
        tryCatch (
          p <- engineCall EvSigninSilent (signinSilent engine) ;;
          oidcUser <- await p ;;
          match oidcUser with
          | Some u =>
              let scalekitUser := mapOidcUserToScalekitUser u in
              dispatch {| type := "TOKEN_REFRESHED"; actionUser := Some scalekitUser;
                          actionError := None |} ;;;
              ret (Some scalekitUser)
          | None => ret None
          end)
        (fun error =>
          let refreshError := TokenRefreshError "Token refresh failed" (asError error) in
          dispatch {| type := "ERROR"; actionUser := None;
                      actionError := Some refreshError |} ;;;
          throw (ThrowError refreshError))
    end).

(** What [createScalekitAuth] returns besides the methods: the
    [userManager] field is the value of the variable at the [return]
    (the [state] field is the live reactive object, [authState] of the
    world). *)
Record ScalekitAuthInstance : Type := mkInstance {
  instanceUserManager : option UserManager
}.

(** [createScalekitAuth(options)]: the reactive state starts as a copy
    of [initialAuthState], [userManager] as [null]; [initialize()] is
    called and the promise it returns is not used. *)
Definition createScalekitAuth : M ScalekitAuthInstance :=
  modifyState (fun _ => initialAuthState) ;;;
  setUserManager None ;;;
  _ <- initialize ;;
  um <- getUserManager ;;
  ret {| instanceUserManager := um |}.

(** [ScalekitAuthPlugin.install(app, options)] *)
Definition install : M unit :=
  _ <- createScalekitAuth ;;
  emit EvProvide.

End Controller.

(** A world in which nothing has happened yet. *)
Definition freshWorld (win : option Window) : World :=
  {| authState := initialAuthState; userManager := None; window := win; trace := [] |}.

End Plugin.
Export Plugin.

(** * The rest of the package *)

(** ** utils/auth-params.ts: reading the error, return paths *)

Module AuthParamsRest.

(** [getAuthError(searchParams?)]: [null] when there is no [error]
    parameter or it is empty; otherwise the error with its description,
    if any. *)
Definition getAuthError (searchParams : option (list (string * string)))
  : M (option (string * option string)) :=
  params <- currentParams searchParams ;;
  let error := paramsGet OIDC_ERROR params in
  match error with
  | None => ret None
  | Some e =>
      if negb (truthyStr e) then ret None
      else ret (Some (e, paramsGet OIDC_ERROR_DESCRIPTION params))
  end.

(** [path.startsWith('/')] *)
Definition startsWithSlash (path : string) : bool := String.prefix "/" path.

Definition normalizeReturnPath (path : string) : string :=
  if negb (truthyStr path) then "/"
  else if startsWithSlash path then path else ("/" ++ path)%string.

End AuthParamsRest.
Export AuthParamsRest.

(** ** utils/storage.ts: the in-memory storage *)

Module MemoryStorage.

(** The [Map<string, string>] of the class: its entries in insertion
    order, one per key. *)
Definition Store : Type := list (string * string).

Definition emptyStore : Store := [].

(** [Map.prototype.get] *)
Definition mapGet (key : string) (store : Store) : option string :=
  snd <$> List.find (fun p => String.eqb (fst p) key) store.

(** [Map.prototype.set]: a key already there keeps its place and takes
    the new value; a new key goes last. *)
Fixpoint mapSet (key value : string) (store : Store) : Store :=
  match store with
  | [] => [(key, value)]
  | (k, v) :: rest =>
      if String.eqb k key then (k, value) :: rest
      else (k, v) :: mapSet key value rest
  end.

(** [Map.prototype.delete] *)
Definition mapDelete (key : string) (store : Store) : Store :=
  List.filter (fun p => negb (String.eqb (fst p) key)) store.

(** [get length()] *)
Definition length (store : Store) : nat := List.length store.

Definition clear (store : Store) : Store := [].

(** [this.store.get(key) ?? null] *)
Definition getItem (key : string) (store : Store) : option string := mapGet key store.

(** [Array.from(this.store.keys())[index] ?? null], for an integer
    index. *)
Definition key (index : Z) (store : Store) : option string :=
  if (index <? 0)%Z then None
  else nth_error (List.map fst store) (Z.to_nat index).

Definition removeItem (key : string) (store : Store) : Store := mapDelete key store.

Definition setItem (key value : string) (store : Store) : Store := mapSet key value store.

(** The calls a holder of the storage can make on it. *)
Inductive Call : Type :=
| CallClear
| CallRemoveItem (key : string)
| CallSetItem (key value : string).

Definition call (store : Store) (c : Call) : Store :=
  match c with
  | CallClear => clear store
  | CallRemoveItem k => removeItem k store
  | CallSetItem k v => setItem k v store
  end.

End MemoryStorage.

(** ** utils/user-manager-factory.ts: the stored user *)

Module StoredUser.

Section WithEngine.

Variable engine : Engine.

Definition getStoredUser : M (Settled (option OidcUser)) :=
  async (
    tryCatch (
      p <- engineCall EvGetUser (getUser engine) ;;
      user <- await p ;;
      ret user)
    (fun _ => ret None)).

End WithEngine.

End StoredUser.
Export StoredUser.

(** ** Composables, the callback component and the route guards *)

(** Code that holds state of its own (the refs of a composable, the
    console of a guard) next to the auth instance: the same monad as [M]
    over the pair of that state and the world. *)
Module Component.

Section WithState.

Variable C : Type.

Definition MC (A : Type) : Type := C * World -> Completion A * (C * World).

Definition retC {A} (a : A) : MC A := fun s => (Normal a, s).

Definition bindC {A B} (m : MC A) (k : A -> MC B) : MC B :=
  fun s => match m s with
           | (Normal a, s') => k a s'
           | (Throw t, s') => (Throw t, s')
           end.

Definition throwC {A} (t : Thrown) : MC A := fun s => (Throw t, s).

Definition tryCatchC {A} (body : MC A) (handler : Thrown -> MC A) : MC A :=
  fun s => match body s with
           | (Normal a, s') => (Normal a, s')
           | (Throw t, s') => handler t s'
           end.

(** [try { body } catch (e) { handler } finally { final }] *)
Definition tryCatchFinallyC {A} (body : MC A) (handler : Thrown -> MC A)
           (final : MC unit) : MC A :=
  fun s => match tryCatchC body handler s with
           | (r, s') =>
               match final s' with
               | (Normal _, s'') => (r, s'')
               | (Throw t, s'') => (Throw t, s'')
               end
           end.

Definition asyncC {A} (body : MC A) : MC (Settled A) :=
  fun s => match body s with
           | (Normal a, s') => (Normal (Fulfilled a), s')
           | (Throw t, s') => (Normal (Rejected t), s')
           end.

Definition awaitC {A} (p : Settled A) : MC A :=
  match p with
  | Fulfilled a => retC a
  | Rejected t => throwC t
  end.

(** An operation of the auth instance, run from here. *)
Definition liftM {A} (m : M A) : MC A :=
  fun s => match m (snd s) with
           | (r, w') => (r, (fst s, w'))
           end.

Definition getC : MC C := fun s => (Normal (fst s), s).

Definition modifyC (f : C -> C) : MC unit := fun s => (Normal tt, (f (fst s), snd s)).

(** [auth.state], read through the computed refs of [useScalekitAuth]. *)
Definition readState : MC AuthState := fun s => (Normal (authState (snd s)), s).

End WithState.

Arguments retC {C A} a.
Arguments bindC {C A B} m k.
Arguments throwC {C A} t.
Arguments tryCatchC {C A} body handler.
Arguments tryCatchFinallyC {C A} body handler final.
Arguments asyncC {C A} body.
Arguments awaitC {C A} p.
Arguments liftM {C A} m.
Arguments getC {C}.
Arguments modifyC {C} f.
Arguments readState {C}.

End Component.
Export Component.

Notation "x <~ m ;; k" := (bindC m (fun x => k))
  (at level 100, m at next level, right associativity).
Notation "m ~;; k" := (bindC m (fun _ => k))
  (at level 100, right associativity).

(** ** useAccessToken.ts *)

Module UseAccessToken.

(** The three refs the composable returns. *)
Record TokenRefs : Type := mkTokenRefs {
  accessTokenRef : option string;
  isLoadingRef : bool;
  errorRef : option Error
}.

Definition initialRefs : TokenRefs :=
  {| accessTokenRef := None; isLoadingRef := true; errorRef := None |}.

Definition setAccessToken (v : option string) : MC TokenRefs unit :=
  modifyC (fun r => {| accessTokenRef := v; isLoadingRef := isLoadingRef r;
                       errorRef := errorRef r |}).

Definition setIsLoading (v : bool) : MC TokenRefs unit :=
  modifyC (fun r => {| accessTokenRef := accessTokenRef r; isLoadingRef := v;
                       errorRef := errorRef r |}).

Definition setError (v : option Error) : MC TokenRefs unit :=
  modifyC (fun r => {| accessTokenRef := accessTokenRef r; isLoadingRef := isLoadingRef r;
                       errorRef := v |}).

(** [getAccessToken()] is called without options. *)
Definition noOptions : GetAccessTokenOptions :=
  {| tokenScopes := None; forceRefresh := None |}.

Definition forceRefreshOptions : GetAccessTokenOptions :=
  {| tokenScopes := None; forceRefresh := Some true |}.

Section WithEngine.

Variable engine : Engine.

Definition fetchToken : MC TokenRefs (Settled unit) :=
  asyncC (
    s <~ readState ;;
    if negb (isAuthenticated s) || isLoading s then
      if negb (isLoading s) then
        setIsLoading false ~;;
        setAccessToken None
      else retC tt
    else
      setIsLoading true ~;;
      setError None ~;;
      tryCatchC (
        p <~ liftM (getAccessToken engine noOptions) ;;
        token <~ awaitC p ;;
        setAccessToken (Some token) ~;;
        setIsLoading false)
      (fun err =>
        setError (Some (default (newError "Failed to get access token") (asError err))) ~;;
        setAccessToken None ~;;
        setIsLoading false)).

Definition refresh : MC TokenRefs (Settled unit) :=
  asyncC (
    s <~ readState ;;
    if negb (isAuthenticated s) then retC tt
    else
      setIsLoading true ~;;
      setError None ~;;
      tryCatchFinallyC (
        p <~ liftM (getAccessToken engine forceRefreshOptions) ;;
        token <~ awaitC p ;;
        setAccessToken (Some token))
      (fun err =>
        setError (Some (default (newError "Failed to refresh access token") (asError err))))
      (setIsLoading false)).

(** The set-up of the composable: fresh refs, and the first run of the
    watcher ([immediate: true]). *)
Definition useAccessToken : MC TokenRefs unit :=
  modifyC (fun _ => initialRefs) ~;;
  _ <~ fetchToken ;;
  retC tt.

End WithEngine.

End UseAccessToken.
Export UseAccessToken.

(** ** ScalekitCallback.ts *)

Module ScalekitCallback.

(** What the component hands to its parent. *)
Inductive ComponentEvent : Type :=
| PropOnSuccess
| PropOnError (e : Error)
| EmitSuccess
| EmitError (e : Error).

(** The refs of the component, and what it has handed out so far. *)
Record CallbackRefs : Type := mkCallbackRefs {
  callbackError : option Error;
  processed : bool;
  handed : list ComponentEvent
}.

Definition initialCallbackRefs : CallbackRefs :=
  {| callbackError := None; processed := false; handed := [] |}.

(** The two callback props, each given by what it does when called. *)
Record ScalekitCallbackProps : Type := mkCallbackProps {
  propOnSuccess : option (option Thrown);
  propOnError : option (Error -> option Thrown)
}.

Definition setCallbackError (v : option Error) : MC CallbackRefs unit :=
  modifyC (fun r => {| callbackError := v; processed := processed r; handed := handed r |}).

Definition setProcessed (v : bool) : MC CallbackRefs unit :=
  modifyC (fun r => {| callbackError := callbackError r; processed := v;
                       handed := handed r |}).

Definition hand (ev : ComponentEvent) : MC CallbackRefs unit :=
  modifyC (fun r => {| callbackError := callbackError r; processed := processed r;
                       handed := handed r ++ [ev] |}).

Definition noParamsMessage : string :=
  "No authentication parameters found in URL. This page should only be accessed after authentication redirect.".

(** [authError?.description || authError?.error || 'Authentication failed'] *)
Definition authErrorMessage (authError : option (string * option string)) : string :=
  match authError with
  | Some (e, d) =>
      if truthyOptStr d then default "" d
      else if truthyStr e then e else "Authentication failed"
  | None => "Authentication failed"
  end.

Section WithEngine.

Variable engine : Engine.
Variable props : ScalekitCallbackProps.

(** [props.onError?.(e)] *)
Definition callPropOnError (e : Error) : MC CallbackRefs unit :=
  match propOnError props with
  | None => retC tt
  | Some f =>
      hand (PropOnError e) ~;;
      match f e with
      | None => retC tt
      | Some t => throwC t
      end
  end.

(** [props.onSuccess?.()] *)
Definition callPropOnSuccess : MC CallbackRefs unit :=
  match propOnSuccess props with
  | None => retC tt
  | Some outcome =>
      hand PropOnSuccess ~;;
      match outcome with
      | None => retC tt
      | Some t => throwC t
      end
  end.

(** The four statements each failure branch ends with. *)
Definition reportError (callbackError : Error) : MC CallbackRefs unit :=
  setCallbackError (Some callbackError) ~;;
  setProcessed true ~;;
  callPropOnError callbackError ~;;
  hand (EmitError callbackError).

Definition processCallback : MC CallbackRefs (Settled unit) :=
  asyncC (
    r <~ getC ;;
    s <~ readState ;;
    (* Skip if already processed or still loading provider *)
    if processed r || isLoading s then retC tt
    else
      hasError <~ liftM (hasAuthError None) ;;
      if hasError then
        authError <~ liftM (getAuthError None) ;;
        reportError (CallbackError (authErrorMessage authError) None)
      else
        hasParams <~ liftM (hasAuthParams None) ;;
        if negb hasParams then
          reportError (CallbackError noParamsMessage None)
        else
          tryCatchC (
            p <~ liftM (handleRedirectCallback engine) ;;
            _ <~ awaitC p ;;
            setProcessed true ~;;
            callPropOnSuccess ~;;
            hand EmitSuccess)
          (fun err =>
            reportError
              (default (CallbackError "Unknown error during callback" None) (asError err)))).

End WithEngine.

End ScalekitCallback.
Export ScalekitCallback.

(** ** authGuard.ts *)

Module AuthGuard.

Record AuthGuardOptions : Type := mkGuardOptions {
  guardReturnTo : option string;
  guardOrganizationId : option string;
  guardConnectionId : option string;
  guardLoginHint : option string;
  onRedirecting : option (option Thrown)
}.

(** What a guard does besides calling the auth instance. *)
Inductive GuardEvent : Type :=
| GuardConsoleError (message : string) (detail : option Thrown)
| GuardOnRedirecting.

(** The promise an async function has returned, as far as it has come:
    still pending, or settled. *)
Inductive Promise (A : Type) : Type :=
| Pending
| Settle (s : Settled A).
Arguments Pending {A}.
Arguments Settle {A} s.

Definition logGuard (ev : GuardEvent) : MC (list GuardEvent) unit :=
  modifyC (fun l => l ++ [ev]).

(** Another task of the page, run between two polls: what it throws does
    not reach the guard. *)
Definition background (task : M unit) : MC (list GuardEvent) unit :=
  fun s => (Normal tt, (fst s, snd (task (snd s)))).

(** The [checkLoading] loop: it looks at [auth.state.isLoading] now and
    then every 50 ms; [tasks] are what the page does in between.  [true]
    when the promise has been resolved, [false] when the state is still
    loading after the tasks given. *)
Fixpoint checkLoading (tasks : list (M unit)) : MC (list GuardEvent) bool :=
  s <~ readState ;;
  if negb (isLoading s) then retC true
  else match tasks with
       | [] => retC false
       | task :: rest => background task ~;; checkLoading rest
       end.

Section WithEngine.

Variable engine : Engine.
Variable options : AuthGuardOptions.

(** [onRedirecting?.()] *)
Definition callOnRedirecting : MC (list GuardEvent) unit :=
  match onRedirecting options with
  | None => retC tt
  | Some outcome =>
      logGuard GuardOnRedirecting ~;;
      match outcome with
      | None => retC tt
      | Some t => throwC t
      end
  end.

(** The guard from the wait on; [name] is the guard's name in its
    console message, [fullPath] is [to.fullPath]. *)
Definition guardBody (name : string) (fullPath : string) (tasks : list (M unit))
  : MC (list GuardEvent) (Promise bool) :=
  fun s0 =>
    let body : MC (list GuardEvent) (option bool) :=
      s <~ readState ;;
      ready <~ (if isLoading s then checkLoading tasks else retC true) ;;
      if negb ready then retC None
      else
        s' <~ readState ;;
        if isAuthenticated s' then retC (Some true)
        else
          let loginOptions :=
            {| returnTo := Some (default fullPath (guardReturnTo options));
               loginOrganizationId := guardOrganizationId options;
               loginConnectionId := guardConnectionId options;
               loginHint := guardLoginHint options;
               extraQueryParams := None |} in
          callOnRedirecting ~;;
          tryCatchC (
            p <~ liftM (loginWithRedirect engine loginOptions) ;;
            awaitC p)
          (fun error =>
            logGuard (GuardConsoleError (name ++ ": Failed to redirect to login")
                                        (Some error))) ~;;
          retC (Some false) in
    match body s0 with
    | (Normal None, s') => (Normal Pending, s')
    | (Normal (Some b), s') => (Normal (Settle (Fulfilled b)), s')
    | (Throw t, s') => (Normal (Settle (Rejected t)), s')
    end.

(** The guard [createGlobalAuthGuard(auth, options)] returns. *)
Definition globalAuthGuard (fullPath : string) (tasks : list (M unit))
  : MC (list GuardEvent) (Promise bool) :=
  guardBody "globalAuthGuard" fullPath tasks.

(** The guard [createAuthGuard(options)] returns; [injected] tells
    whether [inject(SCALEKIT_AUTH_KEY)] finds the instance. *)
Definition authGuard (injected : bool) (fullPath : string) (tasks : list (M unit))
  : MC (list GuardEvent) (Promise bool) :=
  if negb injected then
    logGuard (GuardConsoleError
                "createAuthGuard: ScalekitAuthPlugin not installed. Make sure you have called app.use(ScalekitAuthPlugin, options)."
                None) ~;;
    retC (Settle (Fulfilled false))
  else guardBody "createAuthGuard" fullPath tasks.

End WithEngine.

(** [requiresAuth(route)]: some matched record has
    [meta.requiresAuth === true]. *)
Definition requiresAuth (matched : list (option JsValue)) : bool :=
  existsb (fun meta => match meta with
                       | Some (JBool true) => true
                       | _ => false
                       end) matched.

End AuthGuard.
Export AuthGuard.

(** * Observations *)

Module Observations.

(** Everything that can act on the state held by one auth instance: the
    construction, the six public operations, and the four notifications
    of the engine that the Event Bridge listens to. *)
Inductive EntryPoint : Type :=
| Construct
| CallHandleRedirectCallback
| CallLoginWithRedirect (opts : LoginWithRedirectOptions)
| CallLoginWithPopup (opts : LoginWithPopupOptions)
| CallLogout (opts : LogoutOptions)
| CallGetAccessToken (opts : GetAccessTokenOptions)
| CallRefreshToken
| NotifyUserLoaded (oidcUser : OidcUser)
| NotifyUserUnloaded
| NotifySilentRenewError (error : Error)
| NotifyAccessTokenExpired.

Definition void {A} (m : M A) : M unit := _ <- m ;; ret tt.

Definition run (canParseUrl : string -> bool) (engine : Engine)
           (options : ScalekitAuthPluginOptions) (ep : EntryPoint) : M unit :=
  match ep with
  | Construct => void (createScalekitAuth canParseUrl engine options)
  | CallHandleRedirectCallback => void (handleRedirectCallback engine)
  | CallLoginWithRedirect opts => void (loginWithRedirect engine opts)
  | CallLoginWithPopup opts => void (loginWithPopup engine opts)
  | CallLogout opts => void (logout engine opts)
  | CallGetAccessToken opts => void (getAccessToken engine opts)
  | CallRefreshToken => void (refreshToken engine)
  | NotifyUserLoaded oidcUser => onUserLoaded oidcUser
  | NotifyUserUnloaded => onUserUnloaded
  | NotifySilentRenewError error => onSilentRenewError options error
  | NotifyAccessTokenExpired => onAccessTokenExpired
  end.

(** The states the store can hold: the initial one, and whatever
    [authReducer] or the controller's [dispatch] makes of such a state on
    an [AuthAction]; also whatever an entry point of the controller,
    which dispatches on its own account, leaves behind, whatever the
    engine answers and whatever the options are. *)
Inductive reachable : AuthState -> Prop :=
| reach_initial : reachable initialAuthState
| reach_reducer (s : AuthState) (a : AuthAction) :
    reachable s -> reachable (authReducer s a)
| reach_dispatch (w : World) (a : AuthAction) :
    reachable (authState w) ->
    reachable (authState (world (dispatch (toDispatchAction a) w)))
| reach_run (canParseUrl : string -> bool) (engine : Engine)
            (options : ScalekitAuthPluginOptions) (ep : EntryPoint) (w : World) :
    reachable (authState w) ->
    reachable (authState (world (run canParseUrl engine options ep w))).

(** A state that is in one of the four variants. *)
Definition wellFormed (s : AuthState) : Prop := exists v, inVariant v s.

(** The object literal is that of some [AuthAction]. *)
Definition typedAction (a : DispatchAction) : Prop := exists act, a = toDispatchAction act.

(** The address the navigation context shows, if there is a window. *)
Definition address (w : World) : option Url := location <$> window w.

(** Whether the address carries one of the five redirect parameters. *)
Definition carriesRedirectParams (w : World) : bool :=
  match window w with
  | Some win => existsb (fun n => paramsHas n (searchParams (location win))) paramsToRemove
  | None => false
  end.

(** The events an operation adds to the trace. *)
Definition newEvents {A} (m : M A) (w : World) : list Event :=
  drop (length (trace w)) (trace (world (m w))).

(** [dispatch({ type: 'LOGOUT_COMPLETED' })] *)
Definition isLogoutCompleted (ev : Event) : bool :=
  match ev with
  | EvDispatch a => String.eqb (type a) "LOGOUT_COMPLETED"
  | _ => false
  end.

Definition isDispatch (ev : Event) : bool :=
  match ev with
  | EvDispatch _ => true
  | _ => false
  end.

(** The world after differs from the world before by events appended to
    the trace, each of them accepted by [ok] (and possibly otherwise). *)
Definition appends (ok : Event -> bool) (w w' : World) : Prop :=
  exists evs, trace w' = trace w ++ evs /\ forallb ok evs = true.

(** An operation relates, by [R], every world it is run in to the world
    it leaves. *)
Definition steps (R : World -> World -> Prop) {A} (m : M A) : Prop :=
  forall w, R w (world (m w)).

(** The state after is in one of the four variants if the state before
    was. *)
Definition keepsWellFormed (w w' : World) : Prop :=
  wellFormed (authState w) -> wellFormed (authState w').

(** The statement of the specification about failures of the redirect
    callback, as it is worded: whenever [handleRedirectCallback] fails,
    the state afterwards is Errored and carries the Callback error that
    was thrown. *)
Definition every_callback_failure_sets_Errored : Prop :=
  forall (engine : Engine) (w : World) (t : Thrown),
    let r := handleRedirectCallback engine w in
    result r = Normal (Rejected t) ->
    exists e, t = ThrowError e
              /\ errClass e = CallbackErrorC
              /\ error (authState (world r)) = Some e
              /\ inVariant Errored (authState (world r)).

(** The statement of the specification about logout, as it is worded: a
    successful [logout] dispatches nothing and leaves the state alone,
    and LOGOUT_COMPLETED is dispatched by the user-unloaded listener
    only. *)
Definition logoutCompleted_only_on_userUnloaded : Prop :=
  (forall (engine : Engine) (opts : LogoutOptions) (w : World),
      result (logout engine opts w) = Normal (Fulfilled tt) ->
      authState (world (logout engine opts w)) = authState w
      /\ existsb isDispatch (newEvents (logout engine opts) w) = false)
  /\ (forall (canParseUrl : string -> bool) (engine : Engine)
             (options : ScalekitAuthPluginOptions) (ep : EntryPoint) (w : World),
         existsb isLogoutCompleted (newEvents (run canParseUrl engine options ep) w) = true ->
         ep = NotifyUserUnloaded).

End Observations.
Export Observations.

(** * Scenarios *)

Module Scenarios.

Definition sessionWithoutIdToken : OidcUser :=
  {| profile := {[ "sub" := JStr "usr_1" ]};
     id_token := None;
     access_token := "at_1";
     expires_at := Some 1700000000%Z;
     refresh_token := None;
     scope := Some "openid profile";
     expired := false |}.

(** A persisted session that has expired. *)
Definition expiredSession : OidcUser :=
  {| profile := {[ "sub" := JStr "usr_1" ]};
     id_token := Some "idt_1";
     access_token := "at_old";
     expires_at := Some 1700000000%Z;
     refresh_token := Some "rt_1";
     scope := Some "openid profile";
     expired := true |}.

Definition freshSession : OidcUser :=
  {| profile := {[ "sub" := JStr "usr_1"; "org_id" := JStr "org_123" ]};
     id_token := Some "idt_1";
     access_token := "at_live";
     expires_at := Some 1900000000%Z;
     refresh_token := Some "rt_1";
     scope := Some "openid profile";
     expired := false |}.

Definition collidingLogin : LoginWithRedirectOptions :=
  {| returnTo := None;
     loginOrganizationId := Some "org_123";
     loginConnectionId := None;
     loginHint := Some "user@example.com";
     extraQueryParams := Some {[ "organization_id" := "org_caller"; "prompt" := "login" ]} |}.

(** Scenario B's address: [?code=abc123&state=xyz] next to a parameter of
    the application's own. *)
Definition callbackWindow : Window :=
  {| location := {| urlBase := "http://localhost:3000/callback";
                    searchParams := [("code", "abc123"); ("tab", "1"); ("state", "xyz")];
                    urlHash := "" |};
     localStorageGetter := StorageObject;
     sessionStorageGetter := StorageObject |}.

Definition cleanedUrl : Url :=
  {| urlBase := "http://localhost:3000/callback";
     searchParams := [("tab", "1")];
     urlHash := "" |}.

(** An address with no redirect parameter. *)
Definition homeWindow : Window :=
  {| location := {| urlBase := "http://localhost:3000/"; searchParams := []; urlHash := "" |};
     localStorageGetter := StorageObject;
     sessionStorageGetter := StorageObject |}.

Definition networkDown : Thrown := ThrowError (newError "Network Error").

(** An expired session and a silent renewal that comes back empty. *)
Definition renewalEmptyEngine : Engine :=
  {| getUser := Fulfilled (Some expiredSession);
     signinSilent := Fulfilled None;
     signinRedirectCallback := Rejected networkDown;
     signinRedirect := Rejected networkDown;
     signinPopup := Rejected networkDown;
     signoutRedirect := Rejected networkDown |}.

Definition signedInEngine : Engine :=
  {| getUser := Fulfilled (Some freshSession);
     signinSilent := Rejected networkDown;
     signinRedirectCallback := Fulfilled freshSession;
     signinRedirect := Fulfilled tt;
     signinPopup := Fulfilled freshSession;
     signoutRedirect := Fulfilled tt |}.

Definition signedOutEngine : Engine :=
  {| getUser := Fulfilled None;
     signinSilent := Fulfilled None;
     signinRedirectCallback := Rejected networkDown;
     signinRedirect := Fulfilled tt;
     signinPopup := Rejected networkDown;
     signoutRedirect := Fulfilled tt |}.

Definition exchangeFailsEngine : Engine :=
  {| getUser := Fulfilled None;
     signinSilent := Fulfilled None;
     signinRedirectCallback := Rejected (ThrowError (newError "No matching state found in storage"));
     signinRedirect := Fulfilled tt;
     signinPopup := Rejected networkDown;
     signoutRedirect := Fulfilled tt |}.

(** The configuration of the README, with a trailing slash on the
    environment URL. *)
Definition optionsDefault : ScalekitAuthPluginOptions :=
  {| config := {| environmentUrl := Some "https://your-tenant.scalekit.cloud/";
                  clientId := Some "your-client-id";
                  redirectUri := Some "http://localhost:3000/callback";
                  cfgScopes := None;
                  postLogoutRedirectUri := None;
                  storage := None;
                  automaticSilentRenew := None |};
     autoHandleCallback := None;
     onRedirectCallback := None;
     onError := None |}.

Definition configWithoutClientId : ScalekitAuthConfig :=
  {| environmentUrl := Some "https://your-tenant.scalekit.cloud";
     clientId := None;
     redirectUri := Some "http://localhost:3000/callback";
     cfgScopes := None;
     postLogoutRedirectUri := None;
     storage := None;
     automaticSilentRenew := None |}.

(** An [onError] callback is installed and returns normally. *)
Definition optionsWithoutClientId : ScalekitAuthPluginOptions :=
  {| config := configWithoutClientId;
     autoHandleCallback := None;
     onRedirectCallback := None;
     onError := Some (fun _ => None) |}.

Definition sampleSettings : UserManagerSettings :=
  {| authority := "https://your-tenant.scalekit.cloud";
     client_id := Some "your-client-id";
     redirect_uri := Some "http://localhost:3000/callback";
     response_type := "code";
     settingsScope := "openid profile email offline_access";
     post_logout_redirect_uri := None;
     settingsAutomaticSilentRenew := true;
     userStore := {| store := WindowSessionStorage; prefix := Some "scalekit_auth" |};
     stateStore := {| store := WindowSessionStorage; prefix := None |};
     oidcMetadata :=
       {| md_issuer := "https://your-tenant.scalekit.cloud";
          md_authorization_endpoint := "https://your-tenant.scalekit.cloud/oauth/authorize";
          md_token_endpoint := "https://your-tenant.scalekit.cloud/oauth/token";
          md_userinfo_endpoint := "https://your-tenant.scalekit.cloud/userinfo";
          md_end_session_endpoint := "https://your-tenant.scalekit.cloud/oidc/logout";
          md_revocation_endpoint := "https://your-tenant.scalekit.cloud/revoke";
          md_introspection_endpoint := "https://your-tenant.scalekit.cloud/oauth/introspect" |};
     loadUserInfo := true;
     monitorSession := false;
     filterProtocolClaims := true |}.

(** A world after a successful start-up with no session. *)
Definition readyWorld : World :=
  {| authState := authReducer initialAuthState (INITIALIZED None);
     userManager := Some {| settings := sampleSettings |};
     window := Some homeWindow;
     trace := [] |}.

(** A signed-in instance. *)
Definition signedInWorld : World :=
  {| authState := authReducer initialAuthState
                    (INITIALIZED (Some (mapOidcUserToScalekitUser freshSession)));
     userManager := Some {| settings := sampleSettings |};
     window := Some homeWindow;
     trace := [] |}.

Definition noTokenOptions : GetAccessTokenOptions :=
  {| tokenScopes := None; forceRefresh := None |}.

Definition plainLogout : LogoutOptions :=
  {| federated := None; logoutPostLogoutRedirectUri := None; logoutState := None |}.

(** A failed popup login after start-up: Initializing, Unauthenticated,
    Initializing (login started), Errored. *)
Definition afterFailedLogin : AuthState :=
  authReducer
    (authState
       (world (dispatch (toDispatchAction LOGIN_STARTED)
          (world (dispatch (toDispatchAction (INITIALIZED None)) (freshWorld None))))))
    (ERROR (LoginError "Popup login failed" None)).

(** The state a popup login that the engine refuses leaves behind. *)
Definition afterRefusedPopup : AuthState :=
  authState
    (world (run (fun _ => true) renewalEmptyEngine optionsDefault
              (CallLoginWithPopup
                 {| popupBase := collidingLogin; popupWidth := None; popupHeight := None |})
              readyWorld)).

End Scenarios.
Export Scenarios.

(** * Observations on the rest of the package *)

Module MoreObservations.

(** [n] slashes. *)
Fixpoint slashes (n : nat) : string :=
  match n with
  | O => EmptyString
  | S n' => String "/" (slashes n')
  end.

Fixpoint lastChar (s : string) : option ascii :=
  match s with
  | EmptyString => None
  | String c EmptyString => Some c
  | String _ rest => lastChar rest
  end.

Definition endsWithSlash (s : string) : bool :=
  match lastChar s with
  | Some c => Ascii.eqb c "/"
  | None => false
  end.

(** One of the five redirect parameter names. *)
Definition isOidcParam (name : string) : bool :=
  existsb (String.eqb name) paramsToRemove.

(** The stores an in-memory storage can hold: the empty one and what the
    mutating calls make of it. *)
Inductive storeReachable : MemoryStorage.Store -> Prop :=
| store_empty : storeReachable MemoryStorage.emptyStore
| store_call (s : MemoryStorage.Store) (c : MemoryStorage.Call) :
    storeReachable s -> storeReachable (MemoryStorage.call s c).

(** The world with further events on its trace and nothing else changed. *)
Definition addTrace (w : World) (evs : list Event) : World :=
  {| authState := authState w; userManager := userManager w;
     window := window w; trace := trace w ++ evs |}.

(** A configuration that has its three required fields, non-empty, whose
    environment URL and redirect URI the URL parser accepts, and whose
    post-logout redirect URI, if there is a non-empty one, it accepts
    too. *)
Definition validConfiguration (canParseUrl : string -> bool) (cfg : ScalekitAuthConfig)
  : Prop :=
  exists env cid redir,
    environmentUrl cfg = Some env /\ env <> ""
    /\ clientId cfg = Some cid /\ cid <> ""
    /\ redirectUri cfg = Some redir /\ redir <> ""
    /\ canParseUrl env = true
    /\ canParseUrl redir = true
    /\ (forall p, postLogoutRedirectUri cfg = Some p -> p <> "" -> canParseUrl p = true).

(** The routing parameter of a given name that a login asks for: the
    organization id, the connection id or the login hint, where the
    option is given and not empty, under the names [organization_id],
    [connection_id] and [login_hint]; no other name is a routing
    parameter. *)
Definition routingParameter (options : LoginWithRedirectOptions) (name : string)
  : option string :=
  let given (o : option string) : option string :=
    match o with
    | Some v => if truthyStr v then Some v else None
    | None => None
    end in
  if String.eqb name "organization_id" then given (loginOrganizationId options)
  else if String.eqb name "connection_id" then given (loginConnectionId options)
  else if String.eqb name "login_hint" then given (loginHint options)
  else None.

(** What the caller passes through under a given name. *)
Definition suppliedParameter (options : LoginWithRedirectOptions) (name : string)
  : option string :=
  match extraQueryParams options with
  | Some extra => extra !! name
  | None => None
  end.

(** The storage getter [getStorage] reads for a storage type; the
    in-memory storage needs none. *)
Definition getterOf (storageType : StorageType) (win : Window) : option StorageGetter :=
  match storageType with
  | localStorage => Some (localStorageGetter win)
  | sessionStorage => Some (sessionStorageGetter win)
  | memory => None
  end.

(** What [getStorage] meets on its way to the storage asked for: the
    outcome of the getter it reads, where there is a window and the type
    is a window storage. *)
Definition storageRead (storageType : StorageType) (w : World) : option StorageGetter :=
  match window w with
  | Some win => getterOf storageType win
  | None => None
  end.

(** The error the browser throws when the configured storage (session
    storage unless configured otherwise) is read, if it denies access. *)
Definition storageDenied (cfg : ScalekitAuthConfig) (w : World) : option Thrown :=
  match storageRead (default sessionStorage (Config.storage cfg)) w with
  | Some (StorageDenied t) => Some t
  | _ => None
  end.

(** The warning [getStorage] logs when it falls back. *)
Definition fallbackWarning (storageType : StorageType) : list Event :=
  match storageType with
  | localStorage =>
      [EvConsoleWarn "localStorage not available, falling back to memory storage"]
  | sessionStorage =>
      [EvConsoleWarn "sessionStorage not available, falling back to memory storage"]
  | memory => []
  end.

End MoreObservations.
Export MoreObservations.

Module ControllerObservations.

(** The engine variable is as before. *)
Definition sameEngine (w w' : World) : Prop := userManager w' = userManager w.

(** The window (its address included) is as before. *)
Definition sameWindow (w w' : World) : Prop := window w' = window w.

Definition isNotification (ep : EntryPoint) : bool :=
  match ep with
  | NotifyUserLoaded _ | NotifyUserUnloaded | NotifySilentRenewError _
  | NotifyAccessTokenExpired => true
  | _ => false
  end.

Definition isOnError (ev : Event) : bool :=
  match ev with
  | EvOnError _ => true
  | _ => false
  end.

Definition isOnRedirectCallback (ev : Event) : bool :=
  match ev with
  | EvOnRedirectCallback _ => true
  | _ => false
  end.

(** Whether [initialize] takes the callback path: auto-handling is not
    switched off and the address carries [code] or [error]. *)
Definition takesCallbackPath (options : ScalekitAuthPluginOptions) (win : Window) : bool :=
  default true (autoHandleCallback options)
  && (paramsHas OIDC_CODE (searchParams (location win))
      || paramsHas OIDC_ERROR (searchParams (location win))).

(** The address of [win] without the five redirect parameters. *)
Definition cleanedAddress (win : Window) : Url :=
  {| urlBase := urlBase (location win);
     searchParams :=
       List.filter (fun p => negb (isOidcParam (fst p))) (searchParams (location win));
     urlHash := urlHash (location win) |}.

(** Whether [initialize] goes straight to the persisted session:
    auto-handling is switched off, or the address carries neither [code]
    nor [error]. *)
Definition skipsCallback (options : ScalekitAuthPluginOptions) (w : World) : bool :=
  negb (default true (autoHandleCallback options))
  || match window w with
     | Some win => negb (paramsHas OIDC_CODE (searchParams (location win))
                         || paramsHas OIDC_ERROR (searchParams (location win)))
     | None => false
     end.

(** The error [initialize] reports for what it caught. *)
Definition initError (t : Thrown) : Error :=
  default (newError "Initialization failed") (asError t).

(** Scenario C's address: the provider came back with an error. *)
Definition errorWindow : Window :=
  {| location := {| urlBase := "http://localhost:3000/callback";
                    searchParams := [("error", "access_denied");
                                     ("error_description", "User cancelled")];
                    urlHash := "" |};
     localStorageGetter := StorageObject;
     sessionStorageGetter := StorageObject |}.

(** A page whose browser denies it access to storage: reading either
    storage throws a SecurityError. *)
Definition securityError : Thrown :=
  ThrowError (MkError BuiltinError "SecurityError"
                      "The operation is insecure." None None).

Definition storageDeniedWindow : Window :=
  {| location := {| urlBase := "http://localhost:3000/"; searchParams := [];
                    urlHash := "" |};
     localStorageGetter := StorageDenied securityError;
     sessionStorageGetter := StorageDenied securityError |}.

(** The callback props return normally whenever they are called. *)
Definition propsReturn (props : ScalekitCallbackProps) : Prop :=
  (forall f e, propOnError props = Some f -> f e = None)
  /\ (forall t, propOnSuccess props <> Some (Some t)).

(** The message the callback component shows for an error response: the
    description if the [error] parameter is non-empty and the description
    is, else the error, else 'Authentication failed'. *)
Definition errorResponseMessage (ps : list (string * string)) : string :=
  match paramsGet "error" ps with
  | Some (String c e) =>
      match paramsGet "error_description" ps with
      | Some (String c' d) => String c' d
      | _ => String c e
      end
  | _ => "Authentication failed"
  end.

(** The worlds a waiting guard looks at: the one it starts in, and the
    one after each task of the page that runs between two polls. *)
Fixpoint pollWorlds (tasks : list (M unit)) (w : World) : list World :=
  w :: match tasks with
       | [] => []
       | task :: rest => pollWorlds rest (world (task w))
       end.

Definition stillLoading (w : World) : bool := isLoading (authState w).

(** The login options a guard builds for the route [fullPath]. *)
Definition guardLoginOptions (options : AuthGuardOptions) (fullPath : string)
  : LoginWithRedirectOptions :=
  {| returnTo := Some (default fullPath (guardReturnTo options));
     loginOrganizationId := guardOrganizationId options;
     loginConnectionId := guardConnectionId options;
     loginHint := guardLoginHint options;
     extraQueryParams := None |}.

End ControllerObservations.
Export ControllerObservations.

(** * Properties *)

(** ** Mapping the engine's session to a Session User *)

Example split_openid_profile : split " " "openid profile" = ["openid"; "profile"].
Proof. reflexivity. Qed.

Example split_keeps_empty_pieces : split " " "a  b " = ["a"; ""; "b"; ""].
Proof. reflexivity. Qed.

Example split_empty : split " " "" = [""].
Proof. reflexivity. Qed.

(** C7: whatever the other fields of the engine's session are, a [scope]
    of "openid profile" is mapped to the scopes list ["openid"; "profile"],
    in that order, and a session without [scope] to the empty list. *)
Theorem mapOidcUser_scopes :
  forall (p : gmap string JsValue) (idt : option string) (at_ : string)
         (exp : option Z) (rt : option string) (ex : bool),
    scopes (mapOidcUserToScalekitUser
              (mkOidcUser p idt at_ exp rt (Some "openid profile") ex))
      = ["openid"; "profile"]
    /\ scopes (mapOidcUserToScalekitUser (mkOidcUser p idt at_ exp rt None ex)) = [].
Proof. intros. split; reflexivity. Qed.

(** [x || ''] on an optional string. *)
Lemma idToken_default (u : OidcUser) :
  idToken (mapOidcUserToScalekitUser u) = default "" (id_token u).
Proof.
  unfold mapOidcUserToScalekitUser; simpl.
  destruct (id_token u) as [[|c s]|]; reflexivity.
Qed.

(** C10: when the engine's session has no [id_token], or an empty one,
    the mapped user's [idToken] is the empty string ([idToken] is a
    [string] in every case, never absent). *)
Theorem mapOidcUser_idToken_absent_or_empty :
  forall u : OidcUser,
    id_token u = None \/ id_token u = Some "" ->
    idToken (mapOidcUserToScalekitUser u) = "".
Proof.
  intros u [H | H]; rewrite idToken_default, H; reflexivity.
Qed.

Lemma mapOidcUser_idToken_absent_or_empty_witness :
  idToken (mapOidcUserToScalekitUser sessionWithoutIdToken) = "".
Proof.
  apply (mapOidcUser_idToken_absent_or_empty sessionWithoutIdToken).
  left; reflexivity.
Defined.

(** ** Login query parameters *)

Lemma buildScalekitParams_extra (options : LoginWithRedirectOptions)
      (extra : gmap string string) (k v : string) :
  extraQueryParams options = Some extra ->
  extra !! k = Some v ->
  buildScalekitParams options !! k = Some v.
Proof.
  intros Hex Hk. unfold buildScalekitParams, objectAssign. rewrite Hex.
  apply lookup_union_Some_l. exact Hk.
Qed.

(** Where the caller supplies nothing for a key, the routing parameter
    stays. *)
Lemma buildScalekitParams_routing_kept (options : LoginWithRedirectOptions) (k : string) :
  (forall extra, extraQueryParams options = Some extra -> extra !! k = None) ->
  buildScalekitParams options !! k = routingParams options !! k.
Proof.
  intros Hk. unfold buildScalekitParams, objectAssign.
  destruct (extraQueryParams options) as [extra|]; [|reflexivity].
  rewrite lookup_union_r; [reflexivity | now apply Hk].
Qed.

Lemma routingParams_lookup (options : LoginWithRedirectOptions) (k : string) :
  routingParams options !! k = routingParameter options k.
Proof.
  unfold routingParams, routingParameter.
  change SCALEKIT_ORGANIZATION_ID with "organization_id".
  change SCALEKIT_CONNECTION_ID with "connection_id".
  change SCALEKIT_LOGIN_HINT with "login_hint".
  destruct (loginOrganizationId options) as [[|c1 o]|],
           (loginConnectionId options) as [[|c2 c]|],
           (loginHint options) as [[|c3 h]|]; cbn [truthyStr];
    repeat match goal with
           | |- context [String.eqb k ?n] =>
               destruct (String.eqb_spec k n) as [->|?]
           end;
    rewrite ?lookup_insert_eq, ?lookup_insert_ne, ?lookup_empty by congruence;
    first [ reflexivity | discriminate ].
Qed.

(** C8: the caller's [extraQueryParams] are merged over the routing
    parameters.  A key that is both a routing parameter and a caller
    parameter ends up with the caller's value; and under every name the
    parameters built hold the caller's value where the caller supplies
    one, and otherwise the routing parameter of that name, if the login
    asks for one. *)
Theorem buildScalekitParams_caller_wins :
  forall (options : LoginWithRedirectOptions) (k : string),
    (forall (extra : gmap string string) (routed supplied : string),
        extraQueryParams options = Some extra ->
        routingParameter options k = Some routed ->
        extra !! k = Some supplied ->
        buildScalekitParams options !! k = Some supplied)
    /\ buildScalekitParams options !! k
       = match suppliedParameter options k with
         | Some supplied => Some supplied
         | None => routingParameter options k
         end.
Proof.
  intros options k.
  assert (Hmerge : buildScalekitParams options !! k
                   = match suppliedParameter options k with
                     | Some supplied => Some supplied
                     | None => routingParameter options k
                     end).
  { unfold suppliedParameter.
    destruct (extraQueryParams options) as [extra|] eqn:Hex.
    - destruct (extra !! k) as [v|] eqn:Hk.
      + eapply buildScalekitParams_extra; eassumption.
      + rewrite buildScalekitParams_routing_kept; [apply routingParams_lookup|].
        intros extra' Hex'. congruence.
    - rewrite buildScalekitParams_routing_kept; [apply routingParams_lookup|].
      intros extra' Hex'. congruence. }
  split; [|exact Hmerge].
  intros extra routed supplied Hex _ Hk.
  eapply buildScalekitParams_extra; eassumption.
Qed.

Lemma buildScalekitParams_caller_wins_witness :
  buildScalekitParams collidingLogin !! "organization_id" = Some "org_caller".
Proof.
  apply (proj1 (buildScalekitParams_caller_wins collidingLogin "organization_id")
           {[ "organization_id" := "org_caller"; "prompt" := "login" ]}
           "org_123" "org_caller").
  - reflexivity.
  - vm_compute. reflexivity.
  - vm_compute. reflexivity.
Defined.

(** On the colliding login the login hint, which the caller does not
    pass through, is kept beside the caller's parameters. *)
Example buildScalekitParams_collidingLogin :
  buildScalekitParams collidingLogin
  = {[ "organization_id" := "org_caller"; "prompt" := "login";
       "login_hint" := "user@example.com" ]}.
Proof. vm_compute. reflexivity. Qed.

(** ** The state machine *)

(** On an [AuthAction], the in-place [dispatch] and the pure
    [authReducer] agree. *)
Lemma dispatchSwitch_authReducer (a : AuthAction) (s : AuthState) :
  dispatchSwitch (toDispatchAction a) s = authReducer s a.
Proof. destruct a as [ | [u|] | | u | | u | e]; reflexivity. Qed.

Lemma dispatch_authState (a : DispatchAction) (w : World) :
  authState (world (dispatch a w)) = dispatchSwitch a (authState w).
Proof. reflexivity. Qed.

Lemma dispatch_result (a : DispatchAction) (w : World) :
  result (dispatch a w) = Normal tt.
Proof. reflexivity. Qed.

Lemma dispatch_trace (a : DispatchAction) (w : World) :
  trace (world (dispatch a w)) = trace w ++ [EvDispatch a].
Proof. reflexivity. Qed.

(** A string other than the seven action types changes nothing. *)
Example dispatch_unknown_type (s : AuthState) :
  dispatchSwitch {| type := "RESET"; actionUser := None; actionError := None |} s = s.
Proof. reflexivity. Qed.

(** [dispatch] itself checks nothing ([action.user!]): the object literal
    of LOGIN_COMPLETED without a user would leave an authenticated state
    without a user.  No entry point of the controller writes such a
    literal ([run_keepsWellFormed] below). *)
Example dispatch_untyped_action :
  dispatchSwitch {| type := "LOGIN_COMPLETED"; actionUser := None; actionError := None |}
                 initialAuthState
  = {| isLoading := false; isAuthenticated := true; user := None; error := None |}.
Proof. reflexivity. Qed.

(** Every result of the reducer is in one of the four variants. *)
Lemma authReducer_variant (s : AuthState) (a : AuthAction) :
  wellFormed (authReducer s a).
Proof.
  unfold wellFormed. destruct a as [ | [u|] | | u | | u | e]; simpl.
  - exists Initializing; simpl; auto.
  - exists Authenticated; simpl; repeat split; congruence.
  - exists Unauthenticated; simpl; auto.
  - exists Initializing; simpl; auto.
  - exists Authenticated; simpl; repeat split; congruence.
  - exists Unauthenticated; simpl; auto.
  - exists Authenticated; simpl; repeat split; congruence.
  - exists Errored; simpl; repeat split; congruence.
Qed.

(** Unfolding the monad's operations down to the world they act on. *)
Ltac unfold_monad :=
  unfold async, tryCatch, engineCall, dispatch, bind, await, throw, ret, emit,
    getUserManager, getWindow, setUserManager, modifyState, result, world;
  cbn [fst snd].

(** ** What an operation may do to the world *)

(** A relation between the world before and the world after, kept by
    every primitive step, is kept by whole operations: the rules below
    follow the structure of the monad. *)
Section Frame.

Variable R : World -> World -> Prop.
Hypothesis R_refl : forall w, R w w.
Hypothesis R_trans : forall w1 w2 w3, R w1 w2 -> R w2 w3 -> R w1 w3.

Lemma steps_ret {A} (a : A) : steps R (ret a).
Proof. intros w. apply R_refl. Qed.

Lemma steps_throw {A} (t : Thrown) : steps R (@throw A t).
Proof. intros w. apply R_refl. Qed.

Lemma steps_await {A} (p : Settled A) : steps R (await p).
Proof. destruct p; [apply steps_ret | apply steps_throw]. Qed.

Lemma steps_getWindow : steps R getWindow.
Proof. intros w. apply R_refl. Qed.

Lemma steps_getUserManager : steps R getUserManager.
Proof. intros w. apply R_refl. Qed.

Lemma steps_bind {A B} (m : M A) (k : A -> M B) :
  steps R m -> (forall a, steps R (k a)) -> steps R (bind m k).
Proof.
  intros Hm Hk w. unfold bind, world. specialize (Hm w). unfold world in Hm.
  destruct (m w) as [[a|t] w']; cbn [snd] in *; [|exact Hm].
  eapply R_trans; [exact Hm | apply Hk].
Qed.

Lemma steps_tryCatch {A} (body : M A) (handler : Thrown -> M A) :
  steps R body -> (forall t, steps R (handler t)) -> steps R (tryCatch body handler).
Proof.
  intros Hb Hh w. unfold tryCatch, world. specialize (Hb w). unfold world in Hb.
  destruct (body w) as [[a|t] w']; cbn [snd] in *; [exact Hb|].
  eapply R_trans; [exact Hb | apply Hh].
Qed.

Lemma steps_async {A} (body : M A) : steps R body -> steps R (async body).
Proof.
  intros Hb w. unfold async, world. specialize (Hb w). unfold world in Hb.
  destruct (body w) as [[a|t] w']; exact Hb.
Qed.

End Frame.

Lemma appends_refl (ok : Event -> bool) (w : World) : appends ok w w.
Proof. exists []. split; [now rewrite app_nil_r | reflexivity]. Qed.

Lemma appends_trans (ok : Event -> bool) (w1 w2 w3 : World) :
  appends ok w1 w2 -> appends ok w2 w3 -> appends ok w1 w3.
Proof.
  intros (e1 & H1 & F1) (e2 & H2 & F2). exists (e1 ++ e2). split.
  - rewrite H2, H1. now rewrite app_assoc.
  - rewrite forallb_app, F1, F2. reflexivity.
Qed.

Lemma appends_newEvents {A} (ok : Event -> bool) (m : M A) (w : World) :
  appends ok w (world (m w)) -> forallb ok (newEvents m w) = true.
Proof.
  intros (evs & Ht & Hf). unfold newEvents. rewrite Ht.
  rewrite drop_app_length. exact Hf.
Qed.

Section Appends.

Variable ok : Event -> bool.

Lemma steps_emit (ev : Event) : ok ev = true -> steps (appends ok) (emit ev).
Proof.
  intros Hev w. exists [ev]. split; [reflexivity|]. simpl. now rewrite Hev.
Qed.

Lemma steps_setUserManager (um : option UserManager) :
  steps (appends ok) (setUserManager um).
Proof. intros w. exists []. split; [symmetry; apply app_nil_r | reflexivity]. Qed.

Lemma steps_modifyState (f : AuthState -> AuthState) :
  steps (appends ok) (modifyState f).
Proof. intros w. exists []. split; [symmetry; apply app_nil_r | reflexivity]. Qed.

Lemma steps_replaceState (url : Url) :
  ok (EvReplaceState url) = true -> steps (appends ok) (replaceState url).
Proof.
  intros Hev w. exists [EvReplaceState url]. split; [reflexivity|]. simpl. now rewrite Hev.
Qed.

Lemma steps_dispatch (a : DispatchAction) :
  ok (EvDispatch a) = true -> steps (appends ok) (dispatch a).
Proof.
  intros Hev w. exists [EvDispatch a]. split; [reflexivity|]. simpl. now rewrite Hev.
Qed.

End Appends.

(** The same for the variants of the state. *)
Lemma keepsWellFormed_refl (w : World) : keepsWellFormed w w.
Proof. intros H; exact H. Qed.

Lemma keepsWellFormed_trans (w1 w2 w3 : World) :
  keepsWellFormed w1 w2 -> keepsWellFormed w2 w3 -> keepsWellFormed w1 w3.
Proof. unfold keepsWellFormed; auto. Qed.

Lemma kwf_emit (ev : Event) : steps keepsWellFormed (emit ev).
Proof. intros w H; exact H. Qed.

Lemma kwf_setUserManager (um : option UserManager) :
  steps keepsWellFormed (setUserManager um).
Proof. intros w H; exact H. Qed.

Lemma kwf_replaceState (url : Url) : steps keepsWellFormed (replaceState url).
Proof. intros w H; exact H. Qed.

(** [reactive({ ...initialAuthState })] *)
Lemma kwf_reset : steps keepsWellFormed (modifyState (fun _ => initialAuthState)).
Proof. intros w _. exists Initializing. simpl. auto. Qed.

Lemma kwf_dispatch (a : DispatchAction) :
  typedAction a -> steps keepsWellFormed (dispatch a).
Proof.
  intros [act ->] w _. rewrite dispatch_authState, dispatchSwitch_authReducer.
  apply authReducer_variant.
Qed.

(** Breaking an operation down to its primitive steps: [refl] and
    [trans] are the proofs that the relation is a preorder, [prim] deals
    with the steps that change the world. *)
Ltac steps_struct refl trans prim :=
  repeat first
    [ apply (steps_ret _ refl)
    | apply (steps_throw _ refl)
    | apply (steps_await _ refl)
    | apply (steps_getWindow _ refl)
    | apply (steps_getUserManager _ refl)
    | apply steps_async
    | apply (steps_bind _ trans); [|intros]
    | apply (steps_tryCatch _ trans); [|intros]
    | prim
    | match goal with
      | |- steps _ (match ?x with _ => _ end) => destruct x
      | |- steps _ (if ?b then _ else _) => destruct b
      end ].

Ltac appends_prim :=
  first [ apply steps_setUserManager
        | apply steps_modifyState
        | apply steps_emit; reflexivity
        | apply steps_replaceState; reflexivity
        | apply steps_dispatch; reflexivity ].

Ltac typed_action :=
  first [ exists INITIALIZING; reflexivity
        | exists LOGIN_STARTED; reflexivity
        | exists LOGOUT_COMPLETED; reflexivity
        | eexists (INITIALIZED _); reflexivity
        | eexists (LOGIN_COMPLETED _); reflexivity
        | eexists (TOKEN_REFRESHED _); reflexivity
        | eexists (ERROR _); reflexivity ].

Ltac kwf_prim :=
  first [ apply kwf_setUserManager
        | apply kwf_reset
        | apply kwf_emit
        | apply kwf_replaceState
        | apply kwf_dispatch; typed_action ].

Ltac unfold_ops :=
  unfold install, createScalekitAuth, initialize, handleRedirectCallback,
    loginWithRedirect, loginWithPopup, logout, getAccessToken, getAccessTokenBody,
    getAccessTokenCatch, refreshToken, onUserLoaded, onUserUnloaded, onSilentRenewError,
    onAccessTokenExpired, callOnError, callOnRedirectCallback, engineCall,
    createUserManager, validateConfig, newURL, mapConfigToSettings, createStateStore,
    getStorage, windowStorage, buildScalekitEndpoints, hasAuthParams, currentParams,
    cleanupAuthParams.

(** Every entry point leaves a state in one of the four variants as one:
    each [dispatch] in the controller is given the object literal of an
    [AuthAction]. *)
Lemma run_keepsWellFormed (canParseUrl : string -> bool) (engine : Engine)
      (options : ScalekitAuthPluginOptions) (ep : EntryPoint) :
  steps keepsWellFormed (run canParseUrl engine options ep).
Proof.
  destruct ep; unfold run, void; unfold_ops;
    steps_struct keepsWellFormed_refl keepsWellFormed_trans kwf_prim.
Qed.

Lemma reachable_variant (s : AuthState) :
  reachable s -> wellFormed s.
Proof.
  induction 1 as [ | s a _ _ | w a _ _ | canParseUrl engine options ep w _ IH ].
  - exists Initializing; simpl; auto.
  - apply authReducer_variant.
  - rewrite dispatch_authState, dispatchSwitch_authReducer.
    apply authReducer_variant.
  - exact (run_keepsWellFormed canParseUrl engine options ep w IH).
Qed.

(** A popup login that the engine refuses ends in the Errored variant. *)
Example afterRefusedPopup_errored :
  afterRefusedPopup
  = authReducer initialAuthState
      (ERROR (LoginError "Popup login failed" (Some (newError "Network Error")))).
Proof. vm_compute. reflexivity. Qed.

(** C1: in every state reachable from the initial one by [authReducer]
    and [dispatch] on any sequence of actions (and by the entry points of
    the controller, which dispatch such actions), [isAuthenticated] is
    true exactly when [user] is non-null and [error] is null, and a
    non-null [error] occurs only in the Errored variant (not loading, not
    authenticated, no user). *)
Theorem reachable_invariant :
  forall s : AuthState,
    reachable s ->
    (isAuthenticated s = true <-> (user s <> None /\ error s = None))
    /\ (error s <> None -> inVariant Errored s).
Proof.
  intros s Hs. destruct (reachable_variant s Hs) as [v Hv].
  destruct v; simpl in Hv; destruct Hv as (Hl & Ha & Hu & He); split.
  - rewrite Ha, Hu, He. split; [discriminate | intros [? _]; congruence].
  - intros; congruence.
  - rewrite Ha, Hu, He. split; [discriminate | intros [? _]; congruence].
  - intros; congruence.
  - rewrite Ha, He. split; auto.
  - intros; congruence.
  - rewrite Ha, Hu. split; [discriminate | intros [? _]; congruence].
  - intros _. simpl. auto.
Qed.

Lemma reachable_invariant_witness :
  (isAuthenticated afterFailedLogin = true
     <-> (user afterFailedLogin <> None /\ error afterFailedLogin = None))
  /\ (error afterFailedLogin <> None -> inVariant Errored afterFailedLogin).
Proof.
  apply (reachable_invariant afterFailedLogin).
  unfold afterFailedLogin.
  apply reach_reducer, reach_dispatch, reach_dispatch, reach_initial.
Defined.

(** ** Consuming the redirect parameters *)

Lemma paramsHas_delete (n m : string) (ps : list (string * string)) :
  paramsHas n (paramsDelete m ps) = negb (String.eqb n m) && paramsHas n ps.
Proof.
  unfold paramsHas, paramsDelete.
  induction ps as [|[k v] ps IH]; simpl.
  - now rewrite andb_false_r.
  - destruct (String.eqb_spec k m) as [->|Hkm]; simpl.
    + rewrite IH. destruct (String.eqb_spec m n) as [->|Hmn]; simpl.
      * now rewrite String.eqb_refl.
      * reflexivity.
    + rewrite IH. destruct (String.eqb_spec k n) as [->|Hkn]; simpl.
      * destruct (String.eqb_spec n m); [congruence | reflexivity].
      * reflexivity.
Qed.

Lemma paramsHas_delete_same (n : string) (ps : list (string * string)) :
  paramsHas n (paramsDelete n ps) = false.
Proof. now rewrite paramsHas_delete, String.eqb_refl. Qed.

Lemma removeParam_keeps_absent (n param : string) (u : Url) (h : bool) :
  paramsHas n (searchParams u) = false ->
  paramsHas n (searchParams (fst (removeParam (u, h) param))) = false.
Proof.
  intros Hn. unfold removeParam.
  destruct (paramsHas param (searchParams u)); simpl; [|exact Hn].
  now rewrite paramsHas_delete, Hn, andb_false_r.
Qed.

Lemma fold_removeParam_keeps_absent (n : string) (names : list string) :
  forall (u : Url) (h : bool),
    paramsHas n (searchParams u) = false ->
    paramsHas n (searchParams (fst (fold_left removeParam names (u, h)))) = false.
Proof.
  induction names as [|a names IH]; intros u h Hn; cbn [fold_left]; [exact Hn|].
  pose proof (removeParam_keeps_absent n a u h Hn) as Hstep.
  destruct (removeParam (u, h) a) as [u' h']. now apply IH.
Qed.

(** After the loop none of the listed parameters is left. *)
Lemma fold_removeParam_clean (names : list string) :
  forall (u : Url) (h : bool) (n : string),
    In n names ->
    paramsHas n (searchParams (fst (fold_left removeParam names (u, h)))) = false.
Proof.
  induction names as [|a names IH]; intros u h n Hin; cbn [fold_left]; [destruct Hin|].
  destruct Hin as [->|Hin].
  - assert (Hstep : paramsHas n (searchParams (fst (removeParam (u, h) n))) = false).
    { unfold removeParam.
      destruct (paramsHas n (searchParams u)) eqn:Hn; simpl;
        [apply paramsHas_delete_same | exact Hn]. }
    destruct (removeParam (u, h) n) as [u' h'].
    now apply fold_removeParam_keeps_absent.
  - destruct (removeParam (u, h) a) as [u' h']. now apply IH.
Qed.

(** A loop that finds none of the listed parameters changes nothing. *)
Lemma fold_removeParam_absent (names : list string) :
  forall (u : Url) (h : bool),
    (forall n, In n names -> paramsHas n (searchParams u) = false) ->
    fold_left removeParam names (u, h) = (u, h).
Proof.
  induction names as [|a names IH]; intros u h Habs; cbn [fold_left]; [reflexivity|].
  unfold removeParam at 2. rewrite (Habs a (or_introl eq_refl)).
  apply IH. intros n Hn. apply Habs. now right.
Qed.

Lemma cleanupAuthParams_noop (w : World) :
  carriesRedirectParams w = false -> cleanupAuthParams w = (Normal tt, w).
Proof.
  unfold carriesRedirectParams, cleanupAuthParams, bind, getWindow.
  destruct (window w) as [win|] eqn:Hwin; [|reflexivity].
  intros Habs.
  rewrite fold_removeParam_absent; [reflexivity|].
  intros n Hn. destruct (paramsHas n (searchParams (location win))) eqn:Hp; [|reflexivity].
  assert (existsb (fun n => paramsHas n (searchParams (location win))) paramsToRemove = true)
    as Hex by (apply existsb_exists; exists n; auto).
  congruence.
Qed.

Lemma fold_removeParam_flag_stays (names : list string) :
  forall u : Url, snd (fold_left removeParam names (u, true)) = true.
Proof.
  induction names as [|a names IH]; intros u; cbn [fold_left]; [reflexivity|].
  unfold removeParam at 2. destruct (paramsHas a (searchParams u)); apply IH.
Qed.

(** The flag goes up as soon as one listed parameter is found. *)
Lemma fold_removeParam_flag (n : string) (names : list string) :
  forall (u : Url) (h : bool),
    In n names -> paramsHas n (searchParams u) = true ->
    snd (fold_left removeParam names (u, h)) = true.
Proof.
  induction names as [|a names IH]; intros u h Hin Hp; cbn [fold_left]; [destruct Hin|].
  unfold removeParam at 2.
  destruct (paramsHas a (searchParams u)) eqn:Ha; [apply fold_removeParam_flag_stays|].
  destruct Hin as [->|Hin]; [congruence|]. now apply IH.
Qed.

Lemma existsb_none {A} (f : A -> bool) (l : list A) :
  (forall x, In x l -> f x = false) -> existsb f l = false.
Proof.
  intros H. destruct (existsb f l) eqn:Hex; [|reflexivity].
  apply existsb_exists in Hex as (x & Hx & Hfx). rewrite (H x Hx) in Hfx. discriminate.
Qed.

Lemma cleanupAuthParams_cleans (w : World) :
  carriesRedirectParams (world (cleanupAuthParams w)) = false.
Proof.
  unfold cleanupAuthParams, bind, getWindow.
  destruct (window w) as [win|] eqn:Hwin; cbn [fst snd].
  2:{ unfold carriesRedirectParams, world, ret; cbn [snd]. now rewrite Hwin. }
  pose proof (fold_removeParam_clean paramsToRemove (location win) false) as Hclean.
  pose proof (fun n => fold_removeParam_flag n paramsToRemove (location win) false) as Hflag.
  destruct (fold_left removeParam paramsToRemove (location win, false)) as [u' h'].
  cbn [fst snd] in Hclean, Hflag.
  destruct h'.
  - unfold carriesRedirectParams, replaceState, world; cbn [snd window].
    rewrite Hwin; cbn [fmap option_fmap option_map location].
    now apply existsb_none.
  - unfold carriesRedirectParams, ret, world; cbn [snd]. rewrite Hwin.
    apply existsb_none. intros n Hn.
    destruct (paramsHas n (searchParams (location win))) eqn:Hp; [|reflexivity].
    specialize (Hflag n Hn Hp). discriminate.
Qed.

(** C6: consuming the redirect parameters twice in a row leaves the same
    address as consuming them once (the second run changes nothing at
    all), and a run on an address with none of the five parameters
    replaces no history entry: the world, its trace included, is as it
    was. *)
Theorem cleanupAuthParams_idempotent :
  forall w : World,
    let once := world (cleanupAuthParams w) in
    let twice := world (cleanupAuthParams once) in
    address twice = address once
    /\ twice = once
    /\ (carriesRedirectParams w = false ->
        cleanupAuthParams w = (Normal tt, w)
        /\ trace (world (cleanupAuthParams w)) = trace w).
Proof.
  intros w once twice.
  assert (Htwice : twice = once).
  { unfold twice. rewrite cleanupAuthParams_noop; [reflexivity|].
    apply cleanupAuthParams_cleans. }
  repeat split.
  - now rewrite Htwice.
  - exact Htwice.
  - now apply cleanupAuthParams_noop.
  - rewrite cleanupAuthParams_noop; auto.
Qed.

Example cleanupAuthParams_callback :
  let w := world (cleanupAuthParams (freshWorld (Some callbackWindow))) in
  address w = Some cleanedUrl /\ trace w = [EvReplaceState cleanedUrl].
Proof. split; reflexivity. Qed.

Example cleanupAuthParams_no_window :
  cleanupAuthParams (freshWorld None) = (Normal tt, freshWorld None).
Proof. reflexivity. Qed.

Lemma cleanupAuthParams_idempotent_witness :
  let w := world (cleanupAuthParams (freshWorld (Some callbackWindow))) in
  cleanupAuthParams w = (Normal tt, w) /\ trace (world (cleanupAuthParams w)) = trace w.
Proof.
  apply (cleanupAuthParams_idempotent
           (world (cleanupAuthParams (freshWorld (Some callbackWindow))))).
  vm_compute. reflexivity.
Defined.

(** ** Token retrieval *)

(** C4: with an engine present, a persisted session that is not expired
    and no [forceRefresh], [getAccessToken] resolves with that session's
    access token; its only engine call is the read of the persisted
    session (no silent renewal), and the state is untouched. *)
Theorem getAccessToken_unexpired_no_renewal :
  forall (engine : Engine) (opts : GetAccessTokenOptions) (w : World)
         (um : UserManager) (u : OidcUser),
    userManager w = Some um ->
    getUser engine = Fulfilled (Some u) ->
    expired u = false ->
    truthyOptBool (forceRefresh opts) = false ->
    let r := getAccessToken engine opts w in
    result r = Normal (Fulfilled (access_token u))
    /\ trace (world r) = trace w ++ [EvGetUser]
    /\ authState (world r) = authState w.
Proof.
  intros engine opts w um u Hum Hget Hexp Hforce r. subst r.
  unfold getAccessToken, getAccessTokenBody. unfold_monad.
  rewrite Hum, Hget. cbn. rewrite Hforce, Hexp. cbn. auto.
Qed.


Lemma getAccessToken_settles (engine : Engine) (opts : GetAccessTokenOptions) (w : World) :
  exists p, result (getAccessToken engine opts w) = Normal p.
Proof.
  unfold getAccessToken, async, result.
  destruct (bind _ _ w) as [[a|t] w']; eauto.
Qed.



Lemma getAccessToken_unexpired_no_renewal_witness :
  let r := getAccessToken signedInEngine noTokenOptions readyWorld in
  result r = Normal (Fulfilled "at_live")
  /\ trace (world r) = trace readyWorld ++ [EvGetUser]
  /\ authState (world r) = authState readyWorld.
Proof.
  apply (getAccessToken_unexpired_no_renewal signedInEngine noTokenOptions readyWorld
           {| settings := sampleSettings |} freshSession);
    reflexivity.
Defined.

(** ** The redirect callback *)

Lemma cleanupAuthParams_result (w : World) : result (cleanupAuthParams w) = Normal tt.
Proof.
  unfold cleanupAuthParams, bind, getWindow.
  destruct (window w) as [win|]; [|reflexivity].
  destruct (fold_left removeParam paramsToRemove (location win, false)) as [u' [|]];
    reflexivity.
Qed.

Lemma cleanupAuthParams_authState (w : World) :
  authState (world (cleanupAuthParams w)) = authState w.
Proof.
  unfold cleanupAuthParams, bind, getWindow.
  destruct (window w) as [win|]; [|reflexivity].
  destruct (fold_left removeParam paramsToRemove (location win, false)) as [u' [|]];
    reflexivity.
Qed.

(** With an engine, [handleRedirectCallback] fails exactly when the
    exchange does. *)
Lemma handleRedirectCallback_exchange_ok (engine : Engine) (w : World)
      (um : UserManager) (oidcUser : OidcUser) :
  userManager w = Some um ->
  signinRedirectCallback engine = Fulfilled oidcUser ->
  result (handleRedirectCallback engine w)
  = Normal (Fulfilled (mapOidcUserToScalekitUser oidcUser))
  /\ authState (world (handleRedirectCallback engine w))
     = authReducer (authState w) (LOGIN_COMPLETED (mapOidcUserToScalekitUser oidcUser)).
Proof.
  intros Hum Hex. unfold handleRedirectCallback. unfold_monad. rewrite Hum, Hex.
  match goal with |- context [cleanupAuthParams ?x] =>
    pose proof (cleanupAuthParams_result x) as Hr;
    pose proof (cleanupAuthParams_authState x) as Hs;
    destruct (cleanupAuthParams x) as [[[]|t] w'] end;
    unfold result, world in Hr, Hs; cbn [fst snd] in Hr, Hs; [|discriminate].
  cbn [fst snd]. split; [reflexivity|]. rewrite Hs. reflexivity.
Qed.

Lemma handleRedirectCallback_exchange_fails (engine : Engine) (w : World)
      (um : UserManager) (t : Thrown) :
  userManager w = Some um ->
  signinRedirectCallback engine = Rejected t ->
  let e := CallbackError "Failed to process authentication callback" (asError t) in
  handleRedirectCallback engine w
  = (Normal (Rejected (ThrowError e)),
     {| authState := authReducer (authState w) (ERROR e);
        userManager := userManager w;
        window := window w;
        trace := trace w ++ [EvSigninRedirectCallback]
                   ++ [EvDispatch (toDispatchAction (ERROR e))] |}).
Proof.
  intros Hum Hex e. unfold handleRedirectCallback. unfold_monad. rewrite Hum, Hex.
  cbn. rewrite <- ?Hum, <- ?app_assoc. reflexivity.
Qed.

Lemma handleRedirectCallback_no_engine (engine : Engine) (w : World) :
  userManager w = None ->
  handleRedirectCallback engine w
  = (Normal (Rejected (ThrowError (CallbackError "UserManager not initialized" None))), w).
Proof.
  intros Hum. unfold handleRedirectCallback. unfold_monad. rewrite Hum. reflexivity.
Qed.

(** Called on an instance that has no engine, [handleRedirectCallback]
    rejects with a Callback error and leaves the state as it was:
    Initializing, no error. *)
Lemma handleRedirectCallback_no_engine_keeps_state :
  ~ every_callback_failure_sets_Errored.
Proof.
  intros H.
  destruct (H renewalEmptyEngine (freshWorld (Some callbackWindow))
              (ThrowError (CallbackError "UserManager not initialized" None))
              eq_refl)
    as (e & _ & _ & Herr & _).
  vm_compute in Herr. discriminate.
Qed.

(** C5 (amended): every failure of [handleRedirectCallback] rejects the
    caller's promise with a Callback error.  When an engine is present
    the failure is that of the exchange: the Callback error is dispatched,
    so the state afterwards is Errored and carries that same error.  When
    no engine is present the Callback error 'UserManager not initialized'
    is thrown before anything is dispatched, and the world is left as it
    was. *)
Theorem handleRedirectCallback_failure :
  forall (engine : Engine) (w : World) (t : Thrown),
    let r := handleRedirectCallback engine w in
    result r = Normal (Rejected t) ->
    exists e,
      t = ThrowError e
      /\ errClass e = CallbackErrorC
      /\ (is_Some (userManager w) ->
          error (authState (world r)) = Some e
          /\ inVariant Errored (authState (world r))
          /\ last (trace (world r)) = Some (EvDispatch (toDispatchAction (ERROR e))))
      /\ (userManager w = None ->
          e = CallbackError "UserManager not initialized" None /\ world r = w).
Proof.
  intros engine w t r Hrej. subst r.
  destruct (userManager w) as [um|] eqn:Hum.
  - destruct (signinRedirectCallback engine) as [u|t0] eqn:Hex.
    + destruct (handleRedirectCallback_exchange_ok engine w um u Hum Hex) as [Hr _].
      rewrite Hr in Hrej. discriminate.
    + pose proof (handleRedirectCallback_exchange_fails engine w um t0 Hum Hex) as Hf.
      cbv zeta in Hf. rewrite Hf in *. injection Hrej as <-.
      eexists. split; [reflexivity|]. split; [reflexivity|]. split.
      * intros _. unfold world; cbn [snd authState trace]. split; [reflexivity|]. split.
        -- simpl. repeat split; congruence.
        -- rewrite app_assoc. apply last_snoc.
      * intros; discriminate.
  - rewrite (handleRedirectCallback_no_engine engine w Hum) in *.
    injection Hrej as <-.
    eexists. split; [reflexivity|]. split; [reflexivity|]. split.
    + intros [? ?]; discriminate.
    + intros _. split; reflexivity.
Qed.

Lemma handleRedirectCallback_failure_witness :
  exists e,
    ThrowError (CallbackError "Failed to process authentication callback"
                  (Some (newError "No matching state found in storage")))
    = ThrowError e
    /\ errClass e = CallbackErrorC
    /\ (is_Some (userManager readyWorld) ->
        error (authState (world (handleRedirectCallback exchangeFailsEngine readyWorld)))
        = Some e
        /\ inVariant Errored
             (authState (world (handleRedirectCallback exchangeFailsEngine readyWorld)))
        /\ last (trace (world (handleRedirectCallback exchangeFailsEngine readyWorld)))
           = Some (EvDispatch (toDispatchAction (ERROR e))))
    /\ (userManager readyWorld = None ->
        e = CallbackError "UserManager not initialized" None
        /\ world (handleRedirectCallback exchangeFailsEngine readyWorld) = readyWorld).
Proof.
  apply (handleRedirectCallback_failure exchangeFailsEngine readyWorld).
  reflexivity.
Defined.

(** ** Construction and configuration *)

Ltac destruct_ifs :=
  repeat match goal with
         | |- context [if ?b then _ else _] => destruct b; cbn [fst snd]
         end.

(** Validation reads the configuration only. *)
Lemma validateConfig_world (canParseUrl : string -> bool) (cfg : ScalekitAuthConfig)
      (w : World) :
  world (validateConfig canParseUrl cfg w) = w.
Proof.
  unfold validateConfig, newURL. unfold_monad. destruct_ifs; reflexivity.
Qed.

(** Whatever validation throws is a Configuration error. *)
Lemma validateConfig_throws (canParseUrl : string -> bool) (cfg : ScalekitAuthConfig)
      (w : World) (t : Thrown) :
  result (validateConfig canParseUrl cfg w) = Throw t ->
  exists e, t = ThrowError e /\ errClass e = ConfigurationErrorC.
Proof.
  unfold validateConfig, newURL, configurationError. unfold_monad.
  destruct_ifs; intros H; try discriminate; injection H as <-;
    eexists; split; reflexivity.
Qed.

Lemma validateConfig_missing_clientId (canParseUrl : string -> bool)
      (cfg : ScalekitAuthConfig) (w : World) :
  truthyOptStr (environmentUrl cfg) = true ->
  truthyOptStr (clientId cfg) = false ->
  validateConfig canParseUrl cfg w
  = (Throw (ThrowError (ConfigurationError "clientId is required" None)), w).
Proof.
  intros Henv Hid. unfold validateConfig. rewrite Henv, Hid. reflexivity.
Qed.

(** When validation fails, [initialize()] returns a promise rejected with
    the validation error and has done nothing else; [createScalekitAuth]
    does not use that promise and returns the instance. *)
Lemma createScalekitAuth_invalid_config (canParseUrl : string -> bool) (engine : Engine)
      (options : ScalekitAuthPluginOptions) (win : option Window) (t : Thrown) :
  result (validateConfig canParseUrl (config options) (freshWorld win)) = Throw t ->
  initialize canParseUrl engine options (freshWorld win)
  = (Normal (Rejected t), freshWorld win)
  /\ createScalekitAuth canParseUrl engine options (freshWorld win)
     = (Normal {| instanceUserManager := None |}, freshWorld win)
  /\ install canParseUrl engine options (freshWorld win)
     = (Normal tt, world (emit EvProvide (freshWorld win))).
Proof.
  intros Hv.
  assert (Hinit : initialize canParseUrl engine options (freshWorld win)
                  = (Normal (Rejected t), freshWorld win)).
  { unfold initialize, createUserManager, async, bind.
    pose proof (validateConfig_world canParseUrl (config options) (freshWorld win)) as Hw.
    destruct (validateConfig canParseUrl (config options) (freshWorld win)) as [c w'].
    unfold result, world in Hv, Hw; cbn [fst snd] in Hv, Hw. subst c w'. reflexivity. }
  split; [exact Hinit|].
  assert (Hcreate : createScalekitAuth canParseUrl engine options (freshWorld win)
                    = (Normal {| instanceUserManager := None |}, freshWorld win)).
  { unfold createScalekitAuth, bind, modifyState, setUserManager, getUserManager, ret.
    unfold freshWorld in *. cbn [authState userManager window trace].
    rewrite Hinit. reflexivity. }
  split; [exact Hcreate|].
  unfold install, bind. rewrite Hcreate. reflexivity.
Qed.

(** C2, on the code: with [clientId] missing, whatever the URL parser,
    the engine and the window are, [initialize()] only returns a promise
    rejected with the Configuration error 'clientId is required', and
    [createScalekitAuth] returns the instance normally: its [userManager]
    is [null], the state is still the initial Initializing state, nothing
    was dispatched, [onError] was not called, no engine was built and no
    engine call made; [install] goes on to provide the instance. *)
Theorem createScalekitAuth_missing_clientId_returns :
  forall (canParseUrl : string -> bool) (engine : Engine) (win : option Window),
    initialize canParseUrl engine optionsWithoutClientId (freshWorld win)
    = (Normal (Rejected (ThrowError (ConfigurationError "clientId is required" None))),
       freshWorld win)
    /\ createScalekitAuth canParseUrl engine optionsWithoutClientId (freshWorld win)
       = (Normal {| instanceUserManager := None |}, freshWorld win)
    /\ install canParseUrl engine optionsWithoutClientId (freshWorld win)
       = (Normal tt,
          {| authState := initialAuthState; userManager := None; window := win;
             trace := [EvProvide] |}).
Proof.
  intros canParseUrl engine win.
  apply (createScalekitAuth_invalid_config canParseUrl engine optionsWithoutClientId win).
  reflexivity.
Qed.

(** With the configuration of the README and no persisted session, the
    construction builds the engine, registers the four listeners, reads
    the persisted session and ends Unauthenticated. *)
Example createScalekitAuth_signed_out :
  createScalekitAuth (fun _ => true) signedOutEngine optionsDefault
    (freshWorld (Some homeWindow))
  = (Normal {| instanceUserManager := Some {| settings := sampleSettings |} |},
     {| authState := authReducer initialAuthState (INITIALIZED None);
        userManager := Some {| settings := sampleSettings |};
        window := Some homeWindow;
        trace := [EvNewUserManager sampleSettings; EvAddUserLoaded; EvAddUserUnloaded;
                  EvAddSilentRenewError; EvAddAccessTokenExpired; EvGetUser;
                  EvDispatch (toDispatchAction (INITIALIZED None))] |}).
Proof. vm_compute. reflexivity. Qed.

(** On an address that carries [code] and [state], the construction
    exchanges them, ends Authenticated and cleans the address. *)
Example createScalekitAuth_callback :
  let w := world (createScalekitAuth (fun _ => true) signedInEngine optionsDefault
                    (freshWorld (Some callbackWindow))) in
  authState w
  = authReducer initialAuthState (LOGIN_COMPLETED (mapOidcUserToScalekitUser freshSession))
  /\ address w = Some cleanedUrl
  /\ trace w
     = [EvNewUserManager sampleSettings; EvAddUserLoaded; EvAddUserUnloaded;
        EvAddSilentRenewError; EvAddAccessTokenExpired; EvSigninRedirectCallback;
        EvDispatch (toDispatchAction
                      (LOGIN_COMPLETED (mapOidcUserToScalekitUser freshSession)));
        EvReplaceState cleanedUrl].
Proof. vm_compute. repeat split; reflexivity. Qed.

(** A malformed redirect URI is a Configuration error as well. *)
Example validateConfig_malformed_redirectUri :
  result (validateConfig (fun s => negb (String.eqb s "/callback"))
            {| environmentUrl := Some "https://your-tenant.scalekit.cloud";
               clientId := Some "your-client-id";
               redirectUri := Some "/callback";
               cfgScopes := None; postLogoutRedirectUri := None;
               storage := None; automaticSilentRenew := None |}
            (freshWorld None))
  = Throw (ThrowError (ConfigurationError "Invalid redirectUri URL: /callback" None)).
Proof. reflexivity. Qed.

(** ** Logout *)

(** Apart from the two notifications, nothing dispatches LOGOUT_COMPLETED. *)
Lemma run_no_logoutCompleted (canParseUrl : string -> bool) (engine : Engine)
      (options : ScalekitAuthPluginOptions) (ep : EntryPoint) :
  ep <> NotifyUserUnloaded -> ep <> NotifyAccessTokenExpired ->
  steps (appends (fun ev => negb (isLogoutCompleted ev)))
        (run canParseUrl engine options ep).
Proof.
  intros H1 H2.
  destruct ep; try congruence; unfold run, void; unfold_ops;
    steps_struct (appends_refl (fun ev => negb (isLogoutCompleted ev)))
                 (appends_trans (fun ev => negb (isLogoutCompleted ev)))
                 appends_prim.
Qed.

Lemma forallb_negb_existsb {A} (f : A -> bool) (l : list A) :
  forallb (fun x => negb (f x)) l = true -> existsb f l = false.
Proof.
  induction l as [|x l IH]; simpl; [reflexivity|].
  destruct (f x); simpl; [discriminate | exact IH].
Qed.

(** A [logout] that resolves has made one engine call and nothing else. *)
Lemma logout_success (engine : Engine) (opts : LogoutOptions) (w : World) :
  result (logout engine opts w) = Normal (Fulfilled tt) ->
  logout engine opts w
  = (Normal (Fulfilled tt),
     world (emit (EvSignoutRedirect (logoutPostLogoutRedirectUri opts) (logoutState opts)) w)).
Proof.
  unfold logout. unfold_monad.
  destruct (userManager w) as [um|] eqn:Hum; [|discriminate].
  destruct (signoutRedirect engine) as [[]|t]; [|discriminate].
  intros _. cbn. rewrite Hum. reflexivity.
Qed.

(** A [logout] that the engine refuses dispatches ERROR with a Logout
    error and rejects with it. *)
Lemma logout_failure (engine : Engine) (opts : LogoutOptions) (w : World)
      (um : UserManager) (t : Thrown) :
  userManager w = Some um ->
  signoutRedirect engine = Rejected t ->
  let e := LogoutError "Logout failed" (asError t) in
  result (logout engine opts w) = Normal (Rejected (ThrowError e))
  /\ authState (world (logout engine opts w)) = authReducer (authState w) (ERROR e).
Proof.
  intros Hum Hrej e. unfold logout. unfold_monad. rewrite Hum, Hrej. split; reflexivity.
Qed.

(** The access-token-expired listener dispatches LOGOUT_COMPLETED too. *)
Lemma accessTokenExpired_dispatches_logoutCompleted :
  ~ logoutCompleted_only_on_userUnloaded.
Proof.
  intros [_ H].
  specialize (H (fun _ => true) signedInEngine optionsDefault NotifyAccessTokenExpired
                readyWorld eq_refl).
  discriminate.
Qed.

(** C9 (amended): a [logout] call that resolves dispatches no action and
    leaves the held state unchanged; of all entry points (construction,
    the public operations, the engine's notifications) only the two
    Event Bridge listeners for user-unloaded and access-token-expired
    dispatch LOGOUT_COMPLETED, and each of them dispatches exactly that. *)
Theorem logout_dispatches_nothing :
  forall (canParseUrl : string -> bool) (engine : Engine)
         (options : ScalekitAuthPluginOptions),
    (forall (opts : LogoutOptions) (w : World),
        result (logout engine opts w) = Normal (Fulfilled tt) ->
        authState (world (logout engine opts w)) = authState w
        /\ existsb isDispatch (newEvents (logout engine opts) w) = false)
    /\ (forall (ep : EntryPoint) (w : World),
           existsb isLogoutCompleted (newEvents (run canParseUrl engine options ep) w) = true ->
           ep = NotifyUserUnloaded \/ ep = NotifyAccessTokenExpired)
    /\ (forall w : World,
           newEvents (run canParseUrl engine options NotifyUserUnloaded) w
           = [EvDispatch (toDispatchAction LOGOUT_COMPLETED)]
           /\ newEvents (run canParseUrl engine options NotifyAccessTokenExpired) w
              = [EvDispatch (toDispatchAction LOGOUT_COMPLETED)]).
Proof.
  intros canParseUrl engine options. split; [|split].
  - intros opts w Hok. unfold newEvents. rewrite (logout_success engine opts w Hok).
    unfold world, emit; cbn [snd authState trace]. split; [reflexivity|].
    rewrite drop_app_length. reflexivity.
  - intros ep w Hex.
    assert (Hcases : ep = NotifyUserUnloaded \/ ep = NotifyAccessTokenExpired
                     \/ (ep <> NotifyUserUnloaded /\ ep <> NotifyAccessTokenExpired))
      by (destruct ep; auto; right; right; split; discriminate).
    destruct Hcases as [H | [H | [H1 H2]]]; [now left | now right |].
    pose proof (run_no_logoutCompleted canParseUrl engine options ep H1 H2 w) as Hsteps.
    apply appends_newEvents in Hsteps. apply forallb_negb_existsb in Hsteps.
    congruence.
  - intros w. unfold newEvents, run, onUserUnloaded, onAccessTokenExpired.
    rewrite dispatch_trace, drop_app_length. split; reflexivity.
Qed.

Lemma logout_dispatches_nothing_witness :
  authState (world (logout signedInEngine plainLogout signedInWorld))
  = authState signedInWorld
  /\ existsb isDispatch (newEvents (logout signedInEngine plainLogout) signedInWorld) = false.
Proof.
  apply (logout_dispatches_nothing (fun _ => true) signedInEngine optionsDefault).
  reflexivity.
Defined.

(** * Further properties *)

(** ** Scopes *)

Lemma split_not_nil (sep : ascii) (s : string) : split sep s <> [].
Proof.
  destruct s as [|c rest]; simpl; [discriminate|].
  destruct (Ascii.eqb c sep); [discriminate|].
  destruct (split sep rest); discriminate.
Qed.

(** [s.split(sep).join(sep) === s] *)
Lemma concat_split (sep : ascii) (s : string) :
  String.concat (String sep EmptyString) (split sep s) = s.
Proof.
  induction s as [|c rest IH]; [reflexivity|].
  cbn [split]. pose proof (split_not_nil sep rest) as Hne.
  destruct (Ascii.eqb_spec c sep) as [->|Hc].
  - destruct (split sep rest) as [|w ws]; [congruence|].
    cbn [String.concat] in *. rewrite IH. reflexivity.
  - destruct (split sep rest) as [|w ws]; [congruence|].
    cbn [String.concat] in *. destruct ws as [|w' ws'].
    + now rewrite IH.
    + rewrite <- IH. reflexivity.
Qed.

Lemma split_pieces (sep : ascii) (s : string) :
  Forall (fun w => ~ In sep (list_ascii_of_string w)) (split sep s).
Proof.
  induction s as [|c rest IH]; cbn [split].
  - constructor; [intros []|constructor].
  - destruct (Ascii.eqb_spec c sep) as [->|Hc].
    + constructor; [intros []|exact IH].
    + destruct (split sep rest) as [|w ws].
      * constructor; [|constructor]. simpl. intros [H|[]]. congruence.
      * inversion IH as [|? ? Hw Hws]; subst. constructor; [|exact Hws].
        simpl. intros [H|H]; [congruence | exact (Hw H)].
Qed.

(** X1: the mapped scopes lose nothing of the engine's [scope] string:
    joined with single spaces they give it back, no scope contains a
    space, and the list is empty only when the session has no [scope] at
    all (an empty [scope] string is mapped to one empty scope). *)
Theorem mapOidcUser_scopes_lossless :
  forall u : OidcUser,
    (forall s, scope u = Some s ->
               String.concat " " (scopes (mapOidcUserToScalekitUser u)) = s
               /\ Forall (fun w => ~ In " "%char (list_ascii_of_string w))
                         (scopes (mapOidcUserToScalekitUser u)))
    /\ (scopes (mapOidcUserToScalekitUser u) = [] <-> scope u = None).
Proof.
  intros u. unfold mapOidcUserToScalekitUser; cbn [scopes]. split.
  - intros s Hs. rewrite Hs. split; [apply concat_split | apply split_pieces].
  - destruct (scope u) as [s|]; split; try reflexivity; try discriminate.
    intros H. destruct (split_not_nil _ _ H).
Qed.

Lemma mapOidcUser_scopes_lossless_witness :
  String.concat " " (scopes (mapOidcUserToScalekitUser freshSession)) = "openid profile"
  /\ Forall (fun w => ~ In " "%char (list_ascii_of_string w))
            (scopes (mapOidcUserToScalekitUser freshSession)).
Proof.
  apply (mapOidcUser_scopes_lossless freshSession). reflexivity.
Defined.

(** ** The environment URL *)

Lemma append_nil_l (s : string) : (EmptyString ++ s)%string = s.
Proof. reflexivity. Qed.

Lemma append_cons (c : ascii) (s t : string) :
  (String c s ++ t)%string = String c (s ++ t)%string.
Proof. reflexivity. Qed.

Lemma normalizeUrl_decompose (url : string) :
  exists n, url = (normalizeUrl url ++ slashes n)%string /\ endsWithSlash (normalizeUrl url) = false.
Proof.
  induction url as [|c rest (n & Hrest & Hend)].
  - exists 0%nat. split; reflexivity.
  - cbn [normalizeUrl]. destruct (normalizeUrl rest) as [|c' r'] eqn:Hn.
    + rewrite append_nil_l in Hrest.
      destruct (Ascii.eqb_spec c "/"%char) as [->|Hc].
      * exists (S n). split; [rewrite append_nil_l; simpl; congruence | reflexivity].
      * exists n. split; [rewrite append_cons, append_nil_l; congruence|].
        unfold endsWithSlash; cbn [lastChar]. now apply Ascii.eqb_neq.
    + exists n. split; [rewrite append_cons; congruence | exact Hend].
Qed.

Lemma normalizeUrl_fixed (url : string) :
  endsWithSlash url = false -> normalizeUrl url = url.
Proof.
  induction url as [|c rest IH]; [reflexivity|].
  intros Hend. cbn [normalizeUrl]. destruct rest as [|c' r'].
  - simpl. unfold endsWithSlash in Hend; simpl in Hend. now rewrite Hend.
  - rewrite IH; [reflexivity | exact Hend].
Qed.

Lemma normalizeUrl_slashes (url : string) (n : nat) :
  normalizeUrl (url ++ slashes n)%string = normalizeUrl url.
Proof.
  induction url as [|c rest IH].
  - rewrite append_nil_l. induction n as [|n IHn]; [reflexivity|].
    cbn [slashes normalizeUrl]. now rewrite IHn.
  - rewrite append_cons. cbn [normalizeUrl]. now rewrite IH.
Qed.

(** X2: [normalizeUrl] removes the slashes at the end and nothing else:
    the URL is the result followed by slashes only, the result does not
    end with a slash, and normalising again changes nothing. *)
Theorem normalizeUrl_strips_trailing_slashes :
  forall url : string,
    (exists n, url = (normalizeUrl url ++ slashes n)%string)
    /\ endsWithSlash (normalizeUrl url) = false
    /\ normalizeUrl (normalizeUrl url) = normalizeUrl url.
Proof.
  intros url. destruct (normalizeUrl_decompose url) as (n & Hurl & Hend).
  split; [eauto|]. split; [exact Hend|]. now apply normalizeUrl_fixed.
Qed.

(** X3: the endpoints do not depend on slashes at the end of the
    environment URL: with any number of them added the same eight
    endpoints are built, each the issuer (which ends with no slash)
    followed by its fixed path. *)
Theorem buildScalekitEndpoints_ignores_trailing_slashes :
  forall (url : string) (n : nat) (w : World),
    buildScalekitEndpoints (Some (url ++ slashes n)%string) w
    = buildScalekitEndpoints (Some url) w
    /\ exists e,
        buildScalekitEndpoints (Some url) w = (Normal e, w)
        /\ endsWithSlash (issuer e) = false
        /\ authorization_endpoint e = (issuer e ++ "/oauth/authorize")%string
        /\ token_endpoint e = (issuer e ++ "/oauth/token")%string
        /\ userinfo_endpoint e = (issuer e ++ "/userinfo")%string
        /\ end_session_endpoint e = (issuer e ++ "/oidc/logout")%string
        /\ jwks_uri e = (issuer e ++ "/keys")%string
        /\ revocation_endpoint e = (issuer e ++ "/revoke")%string
        /\ introspection_endpoint e = (issuer e ++ "/oauth/introspect")%string.
Proof.
  intros url n w. unfold buildScalekitEndpoints. rewrite normalizeUrl_slashes.
  split; [reflexivity|]. eexists. split; [reflexivity|]. cbn.
  split; [|repeat split].
  destruct (normalizeUrl_decompose url) as (k & _ & Hend). exact Hend.
Qed.

(** ** Return paths *)

(** X4: [normalizeReturnPath] always gives a path that starts with a
    slash; a path that starts with one is returned as it is, so
    normalising twice is normalising once. *)
Theorem normalizeReturnPath_leading_slash :
  forall path : string,
    startsWithSlash (normalizeReturnPath path) = true
    /\ (startsWithSlash path = true -> normalizeReturnPath path = path)
    /\ normalizeReturnPath (normalizeReturnPath path) = normalizeReturnPath path.
Proof.
  intros path.
  assert (Hfix : forall p, startsWithSlash p = true -> normalizeReturnPath p = p).
  { intros [|c r] Hp; [discriminate|]. unfold normalizeReturnPath. now rewrite Hp. }
  assert (Hstart : startsWithSlash (normalizeReturnPath path) = true).
  { unfold normalizeReturnPath. destruct path as [|c r]; [reflexivity|]. cbn [truthyStr negb].
    destruct (startsWithSlash (String c r)) eqn:Hp; [exact Hp|].
    unfold startsWithSlash. simpl. now destruct r. }
  split; [exact Hstart|]. split.
  - apply Hfix.
  - apply Hfix. exact Hstart.
Qed.

Lemma normalizeReturnPath_leading_slash_witness :
  normalizeReturnPath "/dashboard" = "/dashboard".
Proof.
  apply (proj1 (proj2 (normalizeReturnPath_leading_slash "/dashboard"))). reflexivity.
Defined.

(** ** Validation and the engine's settings *)

Lemma truthyOptStr_true (o : option string) :
  truthyOptStr o = true <-> exists s, o = Some s /\ s <> "".
Proof.
  destruct o as [[|c r]|]; simpl.
  - split; [discriminate|]. intros (s & H & Hne). injection H as <-. congruence.
  - split; [|reflexivity]. intros _. eexists. split; [reflexivity | discriminate].
  - split; [discriminate|]. intros (s & H & _). discriminate.
Qed.

Lemma validateConfig_bool (canParseUrl : string -> bool) (cfg : ScalekitAuthConfig)
      (w : World) :
  result (validateConfig canParseUrl cfg w) = Normal tt
  <-> truthyOptStr (environmentUrl cfg)
      && truthyOptStr (clientId cfg)
      && truthyOptStr (redirectUri cfg)
      && canParseUrl (interpolate (environmentUrl cfg))
      && canParseUrl (interpolate (redirectUri cfg))
      && (negb (truthyOptStr (postLogoutRedirectUri cfg))
          || canParseUrl (interpolate (postLogoutRedirectUri cfg))) = true.
Proof.
  unfold validateConfig, newURL, configurationError. unfold_monad.
  destruct (truthyOptStr (environmentUrl cfg)), (truthyOptStr (clientId cfg)),
    (truthyOptStr (redirectUri cfg)), (canParseUrl (interpolate (environmentUrl cfg))),
    (canParseUrl (interpolate (redirectUri cfg))),
    (truthyOptStr (postLogoutRedirectUri cfg)),
    (canParseUrl (interpolate (postLogoutRedirectUri cfg)));
    cbn; split; congruence.
Qed.

Lemma validateConfig_normal_iff (canParseUrl : string -> bool) (cfg : ScalekitAuthConfig)
      (w : World) :
  result (validateConfig canParseUrl cfg w) = Normal tt
  <-> validConfiguration canParseUrl cfg.
Proof.
  rewrite validateConfig_bool. unfold validConfiguration. split.
  - intros H. repeat (apply andb_prop in H as [H ?]).
    apply truthyOptStr_true in H as (env & He & Hne).
    match goal with H : truthyOptStr (clientId cfg) = true |- _ =>
      apply truthyOptStr_true in H as (cid & Hc & Hcne) end.
    match goal with H : truthyOptStr (redirectUri cfg) = true |- _ =>
      apply truthyOptStr_true in H as (redir & Hr & Hrne) end.
    exists env, cid, redir.
    repeat match goal with
           | H : canParseUrl (interpolate _) = true |- _ =>
               rewrite ?He, ?Hr in H; cbn [interpolate default] in H
           end.
    repeat (split; [first [assumption | reflexivity]|]).
    intros p Hp Hpne.
    match goal with H : negb _ || _ = true |- _ => rewrite Hp in H; simpl in H end.
    destruct p; [congruence | assumption].
  - intros (env & cid & redir & He & Hne & Hc & Hcne & Hr & Hrne & Hpe & Hpr & Hpl).
    rewrite He, Hc, Hr. simpl.
    destruct env; [congruence|]. destruct cid; [congruence|]. destruct redir; [congruence|].
    simpl. rewrite Hpe, Hpr. simpl.
    destruct (postLogoutRedirectUri cfg) as [[|c p]|]; try reflexivity.
    simpl. apply Hpl; [reflexivity | discriminate].
Qed.

Lemma validateConfig_throws_message (canParseUrl : string -> bool)
      (cfg : ScalekitAuthConfig) (w : World) :
  result (validateConfig canParseUrl cfg w) = Normal tt
  \/ exists msg, result (validateConfig canParseUrl cfg w)
                 = Throw (ThrowError (ConfigurationError msg None)).
Proof.
  destruct (result (validateConfig canParseUrl cfg w)) as [[]|t] eqn:Hr; [now left|].
  right. destruct (validateConfig_throws canParseUrl cfg w t Hr) as (e & -> & _).
  revert Hr. unfold validateConfig, newURL, configurationError. unfold_monad.
  destruct_ifs; intros H; try discriminate; injection H as <-; eexists; reflexivity.
Qed.

(** X5: [validateConfig] returns normally exactly for a configuration
    that has a non-empty environment URL, client id and redirect URI,
    with both URLs (and a non-empty post-logout redirect URI, if given)
    accepted by the URL parser; for any other it throws a Configuration
    error; either way it leaves the world as it was. *)
Theorem validateConfig_accepts_exactly :
  forall (canParseUrl : string -> bool) (cfg : ScalekitAuthConfig) (w : World),
    (result (validateConfig canParseUrl cfg w) = Normal tt
     <-> validConfiguration canParseUrl cfg)
    /\ (result (validateConfig canParseUrl cfg w) = Normal tt
        \/ exists msg, result (validateConfig canParseUrl cfg w)
                       = Throw (ThrowError (ConfigurationError msg None)))
    /\ world (validateConfig canParseUrl cfg w) = w.
Proof.
  intros canParseUrl cfg w. split; [|split].
  - apply validateConfig_normal_iff.
  - apply validateConfig_throws_message.
  - apply validateConfig_world.
Qed.

Lemma validateConfig_accepts_exactly_witness :
  validConfiguration (fun _ => true) (config optionsDefault).
Proof.
  apply (validateConfig_accepts_exactly (fun _ => true) (config optionsDefault)
           (freshWorld None)).
  reflexivity.
Defined.

Lemma addTrace_nil (w : World) : addTrace w [] = w.
Proof. unfold addTrace. rewrite app_nil_r. destruct w; reflexivity. Qed.

(** [getStorage], by what it reads. *)
Lemma getStorage_run (storageType : StorageType) (w : World) :
  getStorage storageType w
  = match storageRead storageType w with
    | Some StorageObject =>
        (Normal match storageType with
                | localStorage => WindowLocalStorage
                | sessionStorage => WindowSessionStorage
                | memory => InMemoryStorage
                end, w)
    | Some (StorageDenied t) => (Throw t, w)
    | _ => (Normal InMemoryStorage, addTrace w (fallbackWarning storageType))
    end.
Proof.
  unfold storageRead, getStorage, windowStorage. unfold_monad.
  destruct storageType; cbn [getterOf fallbackWarning].
  - destruct (window w) as [win|]; [destruct (sessionStorageGetter win)|]; reflexivity.
  - destruct (window w) as [win|]; [destruct (localStorageGetter win)|]; reflexivity.
  - rewrite addTrace_nil. destruct (window w); reflexivity.
Qed.

(** X6: [getStorage] hands out the window storage asked for exactly when
    there is a window whose getter gives it.  It throws exactly when
    there is a window and the getter of the storage asked for throws
    (the browser denies access), with the getter's error and nothing
    logged.  In every other case it returns the in-memory storage, and
    then, unless the in-memory storage was asked for, it logs exactly one
    console warning, '<type> not available, falling back to memory
    storage'.  Apart from that warning the world is untouched. *)
Theorem getStorage_falls_back :
  forall (storageType : StorageType) (w : World),
    exists r warns,
      getStorage storageType w = (r, addTrace w warns)
      /\ (forall t, r = Throw t <-> storageRead storageType w = Some (StorageDenied t))
      /\ (r = Normal WindowLocalStorage
          <-> storageType = localStorage
              /\ exists win, window w = Some win /\ localStorageGetter win = StorageObject)
      /\ (r = Normal WindowSessionStorage
          <-> storageType = sessionStorage
              /\ exists win, window w = Some win /\ sessionStorageGetter win = StorageObject)
      /\ (r = Normal InMemoryStorage
          <-> storageType = memory \/ window w = None
              \/ storageRead storageType w = Some StorageMissing)
      /\ warns = match r, storageType with
                 | Normal InMemoryStorage, localStorage =>
                     [EvConsoleWarn "localStorage not available, falling back to memory storage"]
                 | Normal InMemoryStorage, sessionStorage =>
                     [EvConsoleWarn "sessionStorage not available, falling back to memory storage"]
                 | _, _ => []
                 end.
Proof.
  intros storageType w. rewrite getStorage_run. unfold storageRead.
  destruct storageType; cbn [getterOf fallbackWarning];
    (destruct (window w) as [win|] eqn:Hw;
     [ match goal with
       | |- context [sessionStorageGetter win] =>
           destruct (sessionStorageGetter win) as [ | |t0] eqn:Hg
       | |- context [localStorageGetter win] =>
           destruct (localStorageGetter win) as [ | |t0] eqn:Hg
       | _ => idtac
       end | ]);
    eexists; eexists;
    (split; [first [ reflexivity | rewrite addTrace_nil; reflexivity ]|]);
    repeat split; intros;
    repeat match goal with
           | H : _ /\ _ |- _ => destruct H
           | H : exists _, _ |- _ => destruct H
           | H : _ \/ _ |- _ => destruct H
           end;
    simplify_eq; eauto; try congruence.
Qed.

Lemma validateConfig_run_valid (canParseUrl : string -> bool) (cfg : ScalekitAuthConfig)
      (w : World) :
  validConfiguration canParseUrl cfg ->
  validateConfig canParseUrl cfg w = (Normal tt, w).
Proof.
  intros Hv. apply (validateConfig_normal_iff canParseUrl cfg w) in Hv.
  pose proof (validateConfig_world canParseUrl cfg w) as Hw.
  destruct (validateConfig canParseUrl cfg w) as [r w'].
  unfold result, world in *; cbn [fst snd] in *. congruence.
Qed.

Ltac with_warnings ws :=
  exists ws;
  split; [unfold addTrace; cbn; rewrite ?app_nil_r, <- ?app_assoc; reflexivity|].

Ltac pick_warnings :=
  first
    [ with_warnings (@nil Event)
    | with_warnings
        [EvConsoleWarn "sessionStorage not available, falling back to memory storage";
         EvConsoleWarn "sessionStorage not available, falling back to memory storage"]
    | with_warnings
        [EvConsoleWarn "localStorage not available, falling back to memory storage";
         EvConsoleWarn "localStorage not available, falling back to memory storage"] ].

(** What [mapConfigToSettings] builds from a configuration that has an
    environment URL, where reading the configured storage does not
    throw. *)
Lemma mapConfigToSettings_run (cfg : ScalekitAuthConfig) (w : World) (env : string) :
  environmentUrl cfg = Some env ->
  storageDenied cfg w = None ->
  exists st warns,
    mapConfigToSettings cfg w = (Normal st, addTrace w warns)
    /\ authority st = normalizeUrl env
    /\ md_issuer (oidcMetadata st) = normalizeUrl env
    /\ client_id st = clientId cfg
    /\ redirect_uri st = redirectUri cfg
    /\ settingsScope st = default DEFAULT_SCOPES (cfgScopes cfg)
    /\ settingsAutomaticSilentRenew st = default true (automaticSilentRenew cfg)
    /\ store (userStore st) = store (stateStore st)
    /\ prefix (userStore st) = Some STORAGE_KEY_PREFIX
    /\ (warns = [] \/ exists msg, warns = [EvConsoleWarn msg; EvConsoleWarn msg]).
Proof.
  intros Henv Hden. revert Hden.
  unfold storageDenied, storageRead.
  unfold mapConfigToSettings, createStateStore, getStorage, windowStorage,
    buildScalekitEndpoints.
  unfold_monad. rewrite Henv. destruct w as [s um win tr].
  destruct (Config.storage cfg) as [[]|]; cbn [default];
    destruct win as [[loc [ | |tl] [ | |ts]]|]; cbn; intros Hden;
    try discriminate Hden;
    eexists; pick_warnings;
    repeat (split; [reflexivity|]);
    first [left; reflexivity | right; eexists; reflexivity].
Qed.

(** Where reading the configured storage throws, [mapConfigToSettings]
    throws the same and does nothing else. *)
Lemma mapConfigToSettings_denied (cfg : ScalekitAuthConfig) (w : World) (t : Thrown) :
  storageDenied cfg w = Some t ->
  mapConfigToSettings cfg w = (Throw t, w).
Proof.
  unfold storageDenied, storageRead.
  unfold mapConfigToSettings, createStateStore, getStorage, windowStorage.
  unfold_monad. destruct w as [s um win tr].
  destruct (Config.storage cfg) as [[]|]; cbn [default];
    destruct win as [[loc [ | |tl] [ | |ts]]|]; cbn; intros Hden;
    try discriminate Hden; injection Hden as <-; reflexivity.
Qed.

Lemma createUserManager_run_valid (canParseUrl : string -> bool)
      (cfg : ScalekitAuthConfig) (w : World) :
  validConfiguration canParseUrl cfg ->
  storageDenied cfg w = None ->
  exists st warns env,
    createUserManager canParseUrl cfg w
    = (Normal {| settings := st |}, addTrace w (warns ++ [EvNewUserManager st]))
    /\ environmentUrl cfg = Some env
    /\ authority st = normalizeUrl env
    /\ md_issuer (oidcMetadata st) = normalizeUrl env
    /\ client_id st = clientId cfg
    /\ redirect_uri st = redirectUri cfg
    /\ store (userStore st) = store (stateStore st)
    /\ prefix (userStore st) = Some "scalekit_auth"
    /\ (warns = [] \/ exists msg, warns = [EvConsoleWarn msg; EvConsoleWarn msg]).
Proof.
  intros Hv Hden. pose proof Hv as (env & cid & redir & Henv & _).
  destruct (mapConfigToSettings_run cfg w env Henv Hden)
    as (st & warns & Hrun & Ha & Hi & Hc & Hr & _ & _ & Hs & Hp & Hw).
  exists st, warns, env.
  split; [|repeat (split; [assumption|]); assumption].
  unfold createUserManager, bind. rewrite (validateConfig_run_valid _ _ _ Hv), Hrun.
  unfold emit, ret, addTrace; cbn. now rewrite app_assoc.
Qed.

Lemma createUserManager_run_denied (canParseUrl : string -> bool)
      (cfg : ScalekitAuthConfig) (w : World) (t : Thrown) :
  validConfiguration canParseUrl cfg ->
  storageDenied cfg w = Some t ->
  createUserManager canParseUrl cfg w = (Throw t, w).
Proof.
  intros Hv Hden. unfold createUserManager, bind.
  rewrite (validateConfig_run_valid _ _ _ Hv), (mapConfigToSettings_denied _ _ _ Hden).
  reflexivity.
Qed.

Lemma createUserManager_run_invalid (canParseUrl : string -> bool)
      (cfg : ScalekitAuthConfig) (w : World) :
  ~ validConfiguration canParseUrl cfg ->
  exists msg,
    createUserManager canParseUrl cfg w
    = (Throw (ThrowError (ConfigurationError msg None)), w).
Proof.
  intros Hnv.
  destruct (validateConfig_throws_message canParseUrl cfg w) as [Hok | (msg & Hmsg)].
  - apply validateConfig_normal_iff in Hok. contradiction.
  - exists msg. unfold createUserManager, bind.
    pose proof (validateConfig_world canParseUrl cfg w) as Hw.
    destruct (validateConfig canParseUrl cfg w) as [r w'].
    unfold result, world in *; cbn [fst snd] in *. subst. reflexivity.
Qed.

(** X7: [createUserManager] builds an engine exactly for a valid
    configuration whose storage can be read.  Then it builds one engine,
    after console warnings only; the engine's authority and issuer are
    the environment URL without its trailing slashes, its client id and
    redirect URI are the configured ones, its user store and state store
    sit on the same storage, and the user store's keys carry the prefix
    'scalekit_auth'; a storage fallback is warned about twice.  For an
    invalid configuration it throws a Configuration error, and for a
    valid one in a window that denies access to the configured storage
    it throws the browser's error; in both cases no engine is built and
    the world is untouched. *)
Theorem createUserManager_builds_or_throws :
  forall (canParseUrl : string -> bool) (cfg : ScalekitAuthConfig) (w : World),
    (validConfiguration canParseUrl cfg ->
     storageDenied cfg w = None ->
     exists st warns env,
       createUserManager canParseUrl cfg w
       = (Normal {| settings := st |}, addTrace w (warns ++ [EvNewUserManager st]))
       /\ environmentUrl cfg = Some env
       /\ authority st = normalizeUrl env
       /\ md_issuer (oidcMetadata st) = normalizeUrl env
       /\ client_id st = clientId cfg
       /\ redirect_uri st = redirectUri cfg
       /\ store (userStore st) = store (stateStore st)
       /\ prefix (userStore st) = Some "scalekit_auth"
       /\ (warns = [] \/ exists msg, warns = [EvConsoleWarn msg; EvConsoleWarn msg]))
    /\ (~ validConfiguration canParseUrl cfg ->
        exists msg,
          createUserManager canParseUrl cfg w
          = (Throw (ThrowError (ConfigurationError msg None)), w))
    /\ (forall t,
          validConfiguration canParseUrl cfg ->
          storageDenied cfg w = Some t ->
          createUserManager canParseUrl cfg w = (Throw t, w)).
Proof.
  intros canParseUrl cfg w. split; [|split].
  - apply createUserManager_run_valid.
  - apply createUserManager_run_invalid.
  - intros t. apply createUserManager_run_denied.
Qed.

Lemma createUserManager_builds_or_throws_witness :
  exists st warns env,
    createUserManager (fun _ => true) (config optionsDefault) (freshWorld None)
    = (Normal {| settings := st |},
       addTrace (freshWorld None) (warns ++ [EvNewUserManager st]))
    /\ environmentUrl (config optionsDefault) = Some env
    /\ authority st = normalizeUrl env
    /\ md_issuer (oidcMetadata st) = normalizeUrl env
    /\ client_id st = clientId (config optionsDefault)
    /\ redirect_uri st = redirectUri (config optionsDefault)
    /\ store (userStore st) = store (stateStore st)
    /\ prefix (userStore st) = Some "scalekit_auth"
    /\ (warns = [] \/ exists msg, warns = [EvConsoleWarn msg; EvConsoleWarn msg]).
Proof.
  apply (createUserManager_builds_or_throws (fun _ => true) (config optionsDefault)
           (freshWorld None)).
  - unfold validConfiguration. do 3 eexists.
    repeat (split; [first [reflexivity | discriminate]|]).
    intros p Hp. discriminate.
  - reflexivity.
Defined.

(** ** The redirect parameters: what is kept, what is detected *)

Lemma paramsDelete_absent (n : string) (ps : list (string * string)) :
  paramsHas n ps = false -> paramsDelete n ps = ps.
Proof.
  unfold paramsHas, paramsDelete. induction ps as [|[k v] ps IH]; simpl; [reflexivity|].
  destruct (String.eqb k n); simpl; [discriminate|]. intros H. now rewrite IH.
Qed.

Lemma removeParam_fst (u : Url) (h : bool) (n : string) :
  fst (removeParam (u, h) n) = urlDelete n u.
Proof.
  unfold removeParam. destruct (paramsHas n (searchParams u)) eqn:Hn; [reflexivity|].
  unfold urlDelete. rewrite paramsDelete_absent by exact Hn. now destruct u.
Qed.

Lemma filter_paramsDelete (f : string * string -> bool) (a : string)
      (ps : list (string * string)) :
  List.filter f (paramsDelete a ps)
  = List.filter (fun p => negb (String.eqb (fst p) a) && f p) ps.
Proof.
  unfold paramsDelete. induction ps as [|p ps IH]; simpl; [reflexivity|].
  destruct (String.eqb (fst p) a); simpl; [exact IH|].
  destruct (f p); now rewrite IH.
Qed.

Lemma fold_removeParam_filter (names : list string) :
  forall (u : Url) (h : bool),
    fst (fold_left removeParam names (u, h))
    = {| urlBase := urlBase u;
         searchParams :=
           List.filter (fun p => negb (existsb (String.eqb (fst p)) names)) (searchParams u);
         urlHash := urlHash u |}.
Proof.
  induction names as [|a names IH]; intros u h; cbn [fold_left].
  - cbn [fst existsb negb]. destruct u as [b ps f]. cbn. f_equal.
    induction ps as [|p ps IHps]; simpl; [reflexivity | now rewrite <- IHps].
  - pose proof (removeParam_fst u h a) as Hstep.
    destruct (removeParam (u, h) a) as [u' h']. cbn [fst] in Hstep. subst u'.
    rewrite IH. unfold urlDelete; cbn [urlBase searchParams urlHash]. f_equal.
    rewrite filter_paramsDelete. apply filter_ext. intros p. cbn [existsb].
    now rewrite negb_orb.
Qed.

(** X8: [cleanupAuthParams] removes the five redirect parameters and
    nothing else: the address afterwards has the same base and fragment
    and exactly the other query pairs, in their order; the history entry
    is replaced at most once, with that address; the auth state and the
    engine are untouched. *)
Theorem cleanupAuthParams_removes_exactly :
  forall (w : World) (win : Window),
    window w = Some win ->
    let cleaned :=
      {| urlBase := urlBase (location win);
         searchParams :=
           List.filter (fun p => negb (isOidcParam (fst p))) (searchParams (location win));
         urlHash := urlHash (location win) |} in
    address (world (cleanupAuthParams w)) = Some cleaned
    /\ (newEvents cleanupAuthParams w = []
        \/ newEvents cleanupAuthParams w = [EvReplaceState cleaned])
    /\ authState (world (cleanupAuthParams w)) = authState w
    /\ userManager (world (cleanupAuthParams w)) = userManager w.
Proof.
  intros w win Hwin cleaned.
  pose proof (fold_removeParam_filter paramsToRemove (location win) false) as Hfst.
  pose proof (fun n => fold_removeParam_flag n paramsToRemove (location win) false) as Hflag.
  unfold newEvents, address, cleanupAuthParams, bind, getWindow. rewrite Hwin.
  destruct (fold_left removeParam paramsToRemove (location win, false)) as [u' h'] eqn:Hfold.
  cbn [fst snd] in Hfst, Hflag.
  assert (Hu : u' = cleaned) by (rewrite Hfst; reflexivity).
  destruct h'.
  - unfold replaceState, world; cbn [snd window trace authState userManager].
    rewrite Hwin, drop_app_length. cbn. subst u'. repeat split; auto.
  - unfold ret, world; cbn [snd]. rewrite Hwin, drop_all. cbn.
    assert (Hsame : fold_left removeParam paramsToRemove (location win, false)
                    = (location win, false)).
    { apply fold_removeParam_absent. intros n Hn.
      destruct (paramsHas n (searchParams (location win))) eqn:Hp; [|reflexivity].
      specialize (Hflag n Hn Hp). discriminate. }
    rewrite Hsame in Hfold. injection Hfold as <-. rewrite Hu. repeat split; auto.
Qed.

Lemma cleanupAuthParams_removes_exactly_witness :
  address (world (cleanupAuthParams (freshWorld (Some callbackWindow)))) = Some cleanedUrl.
Proof.
  apply (cleanupAuthParams_removes_exactly (freshWorld (Some callbackWindow)) callbackWindow).
  reflexivity.
Defined.

Lemma existsb_false_in {A} (f : A -> bool) (l : list A) (x : A) :
  existsb f l = false -> In x l -> f x = false.
Proof.
  intros Hex Hin. destruct (f x) eqn:Hfx; [|reflexivity].
  assert (existsb f l = true) by (apply existsb_exists; eauto). congruence.
Qed.

Lemma paramsGet_absent (n : string) (ps : list (string * string)) :
  paramsHas n ps = false -> paramsGet n ps = None.
Proof.
  unfold paramsHas, paramsGet. induction ps as [|[k v] ps IH]; simpl; [reflexivity|].
  destruct (String.eqb k n); simpl; [discriminate | exact IH].
Qed.

Lemma paramsGet_present (n : string) (ps : list (string * string)) :
  paramsHas n ps = true -> exists v, paramsGet n ps = Some v.
Proof.
  unfold paramsHas, paramsGet. induction ps as [|[k v] ps IH]; simpl; [discriminate|].
  destruct (String.eqb k n); simpl; [eauto | exact IH].
Qed.

(** X9: once [cleanupAuthParams] has run in a window, the detection
    functions find nothing: [hasAuthParams()] and [hasAuthError()] return
    false and [getAuthError()] returns null. *)
Theorem cleanupAuthParams_then_nothing_detected :
  forall (w : World) (win : Window),
    window w = Some win ->
    let w' := world (cleanupAuthParams w) in
    hasAuthParams None w' = (Normal false, w')
    /\ hasAuthError None w' = (Normal false, w')
    /\ getAuthError None w' = (Normal None, w').
Proof.
  intros w win Hwin w'.
  pose proof (cleanupAuthParams_cleans w) as Hclean. fold w' in Hclean.
  assert (Hw' : exists win', window w' = Some win').
  { subst w'. unfold cleanupAuthParams, bind, getWindow. rewrite Hwin.
    destruct (fold_left removeParam paramsToRemove (location win, false)) as [u' [|]];
      unfold replaceState, ret, world; cbn [snd window]; rewrite Hwin; cbn; eauto. }
  destruct Hw' as (win' & Hwin'). unfold carriesRedirectParams in Hclean.
  rewrite Hwin' in Hclean.
  assert (Hcode : paramsHas OIDC_CODE (searchParams (location win')) = false)
    by (apply (existsb_false_in _ _ OIDC_CODE Hclean); simpl; auto).
  assert (Herr : paramsHas OIDC_ERROR (searchParams (location win')) = false)
    by (apply (existsb_false_in _ _ OIDC_ERROR Hclean); simpl; auto).
  unfold hasAuthParams, hasAuthError, getAuthError, currentParams. unfold_monad.
  rewrite Hwin'. cbn. rewrite Hcode, Herr, (paramsGet_absent _ _ Herr). auto.
Qed.

Lemma cleanupAuthParams_then_nothing_detected_witness :
  let w' := world (cleanupAuthParams (freshWorld (Some callbackWindow))) in
  hasAuthParams None w' = (Normal false, w')
  /\ hasAuthError None w' = (Normal false, w')
  /\ getAuthError None w' = (Normal None, w').
Proof.
  apply (cleanupAuthParams_then_nothing_detected
           (freshWorld (Some callbackWindow)) callbackWindow).
  reflexivity.
Defined.

(** X10: [getAuthError] reports an error only if [hasAuthError] holds,
    and then the error is non-empty and comes with the description
    parameter; but an [error] parameter with an empty value is detected
    by [hasAuthError] and reported as null by [getAuthError].  Called
    without argument where there is no window, both throw. *)
Theorem getAuthError_and_hasAuthError :
  forall (ps : list (string * string)) (w : World),
    (forall e d,
        result (getAuthError (Some ps) w) = Normal (Some (e, d)) ->
        e <> ""
        /\ paramsGet "error" ps = Some e
        /\ d = paramsGet "error_description" ps
        /\ result (hasAuthError (Some ps) w) = Normal true)
    /\ (result (getAuthError (Some ps) w) = Normal None
        <-> paramsGet "error" ps = None \/ paramsGet "error" ps = Some "")
    /\ (paramsGet "error" ps = Some "" ->
        result (hasAuthError (Some ps) w) = Normal true)
    /\ (window w = None ->
        result (getAuthError None w) = Throw windowIsNotDefined
        /\ result (hasAuthError None w) = Throw windowIsNotDefined
        /\ result (hasAuthParams None w) = Throw windowIsNotDefined).
Proof.
  intros ps w.
  assert (Hhas : forall v, paramsGet "error" ps = Some v -> paramsHas "error" ps = true).
  { intros v Hv. destruct (paramsHas "error" ps) eqn:Hp; [reflexivity|].
    rewrite (paramsGet_absent _ _ Hp) in Hv. discriminate. }
  unfold getAuthError, hasAuthError, hasAuthParams, currentParams. unfold_monad.
  change OIDC_ERROR with "error". change OIDC_ERROR_DESCRIPTION with "error_description".
  split; [|split; [|split]].
  - intros e d. destruct (paramsGet "error" ps) as [[|c r]|] eqn:Hg; cbn; try discriminate.
    intros H. injection H as <- <-. rewrite (Hhas _ eq_refl).
    repeat split; discriminate.
  - destruct (paramsGet "error" ps) as [[|c r]|]; cbn; split; auto; try discriminate.
    intros [H|H]; discriminate.
  - intros Hg. now rewrite (Hhas _ Hg).
  - intros Hw. rewrite Hw. auto.
Qed.

Lemma getAuthError_and_hasAuthError_witness :
  result (hasAuthError (Some [("error", ""); ("state", "xyz")]) (freshWorld None))
  = Normal true.
Proof.
  apply (getAuthError_and_hasAuthError [("error", ""); ("state", "xyz")] (freshWorld None)).
  reflexivity.
Defined.

(** ** The in-memory storage *)

Module MemoryStorageFacts.
Import MemoryStorage.

Lemma mapGet_mapSet_same (k v : string) (s : Store) : mapGet k (mapSet k v s) = Some v.
Proof.
  unfold mapGet. induction s as [|[k0 v0] s IH]; simpl.
  - now rewrite String.eqb_refl.
  - destruct (String.eqb k0 k) eqn:Hk; simpl; rewrite Hk; [reflexivity | exact IH].
Qed.

Lemma mapGet_mapSet_other (k k' v : string) (s : Store) :
  k' <> k -> mapGet k' (mapSet k v s) = mapGet k' s.
Proof.
  intros Hne. unfold mapGet. induction s as [|[k0 v0] s IH]; simpl.
  - destruct (String.eqb_spec k k'); [congruence | reflexivity].
  - destruct (String.eqb_spec k0 k) as [->|Hk]; simpl.
    + destruct (String.eqb_spec k k'); [congruence | reflexivity].
    + destruct (String.eqb k0 k'); [reflexivity | exact IH].
Qed.

Lemma mapGet_mapDelete_same (k : string) (s : Store) : mapGet k (mapDelete k s) = None.
Proof.
  unfold mapGet, mapDelete. induction s as [|[k0 v0] s IH]; simpl; [reflexivity|].
  destruct (String.eqb k0 k) eqn:Hk; simpl; [exact IH | now rewrite Hk].
Qed.

Lemma mapGet_mapDelete_other (k k' : string) (s : Store) :
  k' <> k -> mapGet k' (mapDelete k s) = mapGet k' s.
Proof.
  intros Hne. unfold mapGet, mapDelete. induction s as [|[k0 v0] s IH]; simpl; [reflexivity|].
  destruct (String.eqb_spec k0 k) as [->|Hk]; simpl.
  - destruct (String.eqb_spec k k'); [congruence | exact IH].
  - destruct (String.eqb k0 k'); [reflexivity | exact IH].
Qed.

Lemma mapGet_in (k : string) (s : Store) :
  is_Some (mapGet k s) <-> In k (List.map fst s).
Proof.
  unfold mapGet. induction s as [|[k0 v0] s IH]; simpl.
  - split; [intros [? ?]; discriminate | intros []].
  - destruct (String.eqb_spec k0 k) as [->|Hk]; simpl.
    + split; [auto | eauto].
    + rewrite IH. split; [auto | intros [?|?]; [congruence | assumption]].
Qed.

Lemma keys_mapSet (k v : string) (s : Store) :
  List.map fst (mapSet k v s)
  = match mapGet k s with
    | Some _ => List.map fst s
    | None => List.map fst s ++ [k]
    end.
Proof.
  unfold mapGet. induction s as [|[k0 v0] s IH]; simpl; [reflexivity|].
  destruct (String.eqb k0 k) eqn:Hk; simpl; [reflexivity|].
  rewrite IH. destruct (List.find _ s); reflexivity.
Qed.

Lemma keys_mapDelete (k : string) (s : Store) :
  List.map fst (mapDelete k s)
  = List.filter (fun k0 => negb (String.eqb k0 k)) (List.map fst s).
Proof.
  unfold mapDelete. induction s as [|[k0 v0] s IH]; simpl; [reflexivity|].
  destruct (String.eqb k0 k); simpl; now rewrite IH.
Qed.

Lemma NoDup_snoc {A} (l : list A) (x : A) :
  List.NoDup l -> ~ In x l -> List.NoDup (l ++ [x]).
Proof.
  induction 1 as [|y l Hy Hl IH]; intros Hx; simpl.
  - constructor; [intros [] | constructor].
  - constructor.
    + rewrite in_app_iff. intros [H|[H|[]]]; [exact (Hy H)|]. apply Hx. now left.
    + apply IH. intros H. apply Hx. now right.
Qed.

Lemma storeReachable_NoDup (s : Store) : storeReachable s -> List.NoDup (List.map fst s).
Proof.
  induction 1 as [|s c _ IH]; [constructor|].
  destruct c as [|k|k v]; cbn [call clear removeItem setItem].
  - constructor.
  - rewrite keys_mapDelete. now apply List.NoDup_filter.
  - rewrite keys_mapSet. destruct (mapGet k s) eqn:Hg; [exact IH|].
    apply NoDup_snoc; [exact IH|].
    intros Hin. apply mapGet_in in Hin. rewrite Hg in Hin. destruct Hin; discriminate.
Qed.

End MemoryStorageFacts.

(** X11: the in-memory storage keeps what is set until it is removed:
    after [setItem(k, v)], [getItem(k)] is [v]; after [removeItem(k)] or
    [clear()] it is null; and neither [setItem] nor [removeItem] on one
    key changes what [getItem] returns for another. *)
Theorem memoryStorage_set_get_remove :
  forall (s : MemoryStorage.Store) (k k' v : string),
    MemoryStorage.getItem k (MemoryStorage.setItem k v s) = Some v
    /\ MemoryStorage.getItem k (MemoryStorage.removeItem k s) = None
    /\ MemoryStorage.getItem k (MemoryStorage.clear s) = None
    /\ (k' <> k ->
        MemoryStorage.getItem k' (MemoryStorage.setItem k v s) = MemoryStorage.getItem k' s
        /\ MemoryStorage.getItem k' (MemoryStorage.removeItem k s)
           = MemoryStorage.getItem k' s).
Proof.
  intros s k k' v. unfold MemoryStorage.getItem, MemoryStorage.setItem,
    MemoryStorage.removeItem, MemoryStorage.clear.
  split; [apply MemoryStorageFacts.mapGet_mapSet_same|].
  split; [apply MemoryStorageFacts.mapGet_mapDelete_same|].
  split; [reflexivity|].
  intros Hne. split.
  - now apply MemoryStorageFacts.mapGet_mapSet_other.
  - now apply MemoryStorageFacts.mapGet_mapDelete_other.
Qed.

Lemma memoryStorage_set_get_remove_witness :
  MemoryStorage.getItem "b" (MemoryStorage.setItem "a" "1" [("b", "2")])
  = MemoryStorage.getItem "b" [("b", "2")]
  /\ MemoryStorage.getItem "b" (MemoryStorage.removeItem "a" [("b", "2")])
     = MemoryStorage.getItem "b" [("b", "2")].
Proof.
  apply (memoryStorage_set_get_remove [("b", "2")] "a" "b" "1"). discriminate.
Defined.

(** X12: in any state an in-memory storage can reach from empty, every
    key is held once; [length] grows by one on [setItem] of a new key and
    stays on [setItem] of a key already there; [key(i)] is null exactly
    for an index below zero or from [length] on, and the keys it
    enumerates are exactly those [getItem] finds. *)
Theorem memoryStorage_keys :
  forall s : MemoryStorage.Store,
    storeReachable s ->
    List.NoDup (List.map fst s)
    /\ (forall k v,
           MemoryStorage.length (MemoryStorage.setItem k v s)
           = match MemoryStorage.getItem k s with
             | Some _ => MemoryStorage.length s
             | None => S (MemoryStorage.length s)
             end)
    /\ (forall i, MemoryStorage.key i s = None
                  <-> (i < 0 \/ Z.of_nat (MemoryStorage.length s) <= i)%Z)
    /\ (forall k, is_Some (MemoryStorage.getItem k s)
                  <-> exists i, MemoryStorage.key i s = Some k).
Proof.
  intros s Hs. split; [now apply MemoryStorageFacts.storeReachable_NoDup|].
  split; [|split].
  - intros k v. unfold MemoryStorage.length, MemoryStorage.getItem, MemoryStorage.setItem.
    rewrite <- !(List.length_map fst), MemoryStorageFacts.keys_mapSet.
    destruct (MemoryStorage.mapGet k s); [reflexivity|].
    rewrite List.length_app. simpl. lia.
  - intros i. unfold MemoryStorage.key, MemoryStorage.length.
    destruct (Z.ltb_spec i 0) as [Hneg|Hpos]; [split; [auto | reflexivity]|].
    rewrite nth_error_None, List.length_map. split; [intros H; right | intros [H|H]]; lia.
  - intros k. unfold MemoryStorage.getItem. rewrite MemoryStorageFacts.mapGet_in.
    unfold MemoryStorage.key. split.
    + intros Hin. apply In_nth_error in Hin as (n & Hn). exists (Z.of_nat n).
      destruct (Z.ltb_spec (Z.of_nat n) 0); [lia|]. now rewrite Nat2Z.id.
    + intros (i & Hi). destruct (i <? 0)%Z; [discriminate|].
      eapply nth_error_In; eassumption.
Qed.

Lemma memoryStorage_keys_witness :
  List.NoDup (List.map fst
           (MemoryStorage.call
              (MemoryStorage.call MemoryStorage.emptyStore (MemoryStorage.CallSetItem "a" "1"))
              (MemoryStorage.CallSetItem "a" "2"))).
Proof.
  apply (memoryStorage_keys
           (MemoryStorage.call
              (MemoryStorage.call MemoryStorage.emptyStore (MemoryStorage.CallSetItem "a" "1"))
              (MemoryStorage.CallSetItem "a" "2"))).
  apply store_call, store_call, store_empty.
Defined.

(** ** The stored user *)

(** [getStoredUser] never rejects: it resolves with what the
    engine's [getUser] resolves with, and with null when [getUser]
    rejects; it makes that one engine call and leaves the rest of the
    world alone. *)
Theorem getStoredUser_never_rejects :
  forall (engine : Engine) (w : World),
    exists u,
      getStoredUser engine w = (Normal (Fulfilled u), addTrace w [EvGetUser])
      /\ (getUser engine = Fulfilled u
          \/ (u = None /\ exists t, getUser engine = Rejected t)).
Proof.
  intros engine w. unfold getStoredUser. unfold_monad.
  destruct (getUser engine) as [u|t]; eexists; split; try reflexivity; eauto.
Qed.

(** ** The public operations *)

(** X13: on an instance without engine (the construction failed on its
    configuration, or has not reached the engine yet) no public operation
    touches the world: the login operations reject with a Login error,
    [logout] with a Logout error, [handleRedirectCallback] with a
    Callback error, [getAccessToken] with a Not-Authenticated error, all
    with the message 'UserManager not initialized', and [refreshToken]
    resolves with null. *)
Theorem operations_without_engine :
  forall (engine : Engine) (w : World),
    userManager w = None ->
    handleRedirectCallback engine w
    = (Normal (Rejected (ThrowError (CallbackError "UserManager not initialized" None))), w)
    /\ (forall opts, loginWithRedirect engine opts w
        = (Normal (Rejected (ThrowError (LoginError "UserManager not initialized" None))), w))
    /\ (forall opts, loginWithPopup engine opts w
        = (Normal (Rejected (ThrowError (LoginError "UserManager not initialized" None))), w))
    /\ (forall opts, logout engine opts w
        = (Normal (Rejected (ThrowError (LogoutError "UserManager not initialized" None))), w))
    /\ (forall opts, getAccessToken engine opts w
        = (Normal (Rejected (ThrowError
                      (NotAuthenticatedError (Some "UserManager not initialized")))), w))
    /\ refreshToken engine w = (Normal (Fulfilled None), w).
Proof.
  intros engine w Hum.
  unfold handleRedirectCallback, loginWithRedirect, loginWithPopup, logout, getAccessToken,
    refreshToken.
  unfold_monad. rewrite Hum. repeat split.
Qed.

Lemma operations_without_engine_witness :
  refreshToken signedInEngine (freshWorld (Some homeWindow))
  = (Normal (Fulfilled None), freshWorld (Some homeWindow)).
Proof.
  apply (operations_without_engine signedInEngine (freshWorld (Some homeWindow))).
  reflexivity.
Defined.

Lemma getAccessToken_world (engine : Engine) (opts : GetAccessTokenOptions) (w : World) :
  exists evs,
    world (getAccessToken engine opts w) = addTrace w evs
    /\ (evs = [] \/ evs = [EvGetUser] \/ evs = [EvGetUser; EvSigninSilent]).
Proof.
  unfold getAccessToken, getAccessTokenBody, getAccessTokenCatch. unfold_monad.
  destruct (userManager w) as [um|] eqn:Hum.
  2:{ exists []. rewrite addTrace_nil. auto. }
  destruct (getUser engine) as [[u|]|t]; cbn.
  - destruct (truthyOptBool (forceRefresh opts) || expired u); cbn.
    + exists [EvGetUser; EvSigninSilent].
      split; [|auto].
      destruct (signinSilent engine) as [[u'|]|[e|v]]; cbn;
        try destruct (isNotAuthenticatedError e); cbn;
        unfold addTrace; rewrite <- ?app_assoc, ?Hum; reflexivity.
    + exists [EvGetUser]. unfold addTrace. rewrite Hum. auto.
  - exists [EvGetUser]. unfold addTrace. rewrite Hum. auto.
  - exists [EvGetUser]. split; [|auto].
    destruct t as [e|v]; [destruct (isNotAuthenticatedError e)|]; cbn;
      unfold addTrace; now rewrite Hum.
Qed.

(** X14: [getAccessToken] changes nothing but the trace of engine calls,
    whether it succeeds or fails: it dispatches nothing, so the auth
    state, the engine and the window are as before; and it calls the
    engine at most twice, [getUser] and then [signinSilent]. *)
Theorem getAccessToken_only_calls_engine :
  forall (engine : Engine) (opts : GetAccessTokenOptions) (w : World),
    exists evs,
      world (getAccessToken engine opts w) = addTrace w evs
      /\ (evs = [] \/ evs = [EvGetUser] \/ evs = [EvGetUser; EvSigninSilent]).
Proof. exact getAccessToken_world. Qed.

(** X15: with an engine and a persisted session, asked to force a
    refresh or finding the session expired, [getAccessToken] renews
    silently: it resolves with the access token of the renewed session,
    not of the persisted one, and when the renewal is rejected it rejects
    with a Token-Refresh error that carries the rejection as its cause. *)
Theorem getAccessToken_renews :
  forall (engine : Engine) (opts : GetAccessTokenOptions) (w : World)
         (um : UserManager) (u : OidcUser),
    userManager w = Some um ->
    getUser engine = Fulfilled (Some u) ->
    truthyOptBool (forceRefresh opts) || expired u = true ->
    (forall u', signinSilent engine = Fulfilled (Some u') ->
                result (getAccessToken engine opts w) = Normal (Fulfilled (access_token u')))
    /\ (forall e, signinSilent engine = Rejected (ThrowError e) ->
                  isNotAuthenticatedError e = false ->
                  result (getAccessToken engine opts w)
                  = Normal (Rejected (ThrowError
                              (TokenRefreshError "Failed to get access token" (Some e)))))
    /\ newEvents (getAccessToken engine opts) w = [EvGetUser; EvSigninSilent].
Proof.
  intros engine opts w um u Hum Hget Hrenew.
  unfold newEvents, getAccessToken, getAccessTokenBody, getAccessTokenCatch. unfold_monad.
  rewrite Hum, Hget. cbn. rewrite Hrenew. cbn. split; [|split].
  - intros u' Hs. now rewrite Hs.
  - intros e Hs Hna. rewrite Hs. cbn. now rewrite Hna.
  - destruct (signinSilent engine) as [[u'|]|[e|v]]; cbn;
      try destruct (isNotAuthenticatedError e); cbn;
      rewrite <- ?app_assoc, drop_app_length; reflexivity.
Qed.

Lemma getAccessToken_renews_witness :
  newEvents (getAccessToken renewalEmptyEngine noTokenOptions) readyWorld
  = [EvGetUser; EvSigninSilent].
Proof.
  apply (getAccessToken_renews renewalEmptyEngine noTokenOptions readyWorld
           {| settings := sampleSettings |} expiredSession);
    reflexivity.
Defined.

(** X16: with an engine, [loginWithRedirect] first dispatches
    LOGIN_STARTED and then asks the engine for the redirect, handing it
    [returnTo] as state when it is non-empty and the login parameters
    when there are any.  When the engine accepts, the promise resolves
    and the state is left loading (Initializing variant); when it
    refuses, the state becomes Errored with a Login error 'Failed to
    initiate login' carrying the cause, and the promise rejects with that
    error. *)
Theorem loginWithRedirect_outcome :
  forall (engine : Engine) (opts : LoginWithRedirectOptions) (w : World)
         (um : UserManager),
    userManager w = Some um ->
    let r := loginWithRedirect engine opts w in
    let call := EvSigninRedirect
                  (if truthyOptStr (returnTo opts) then returnTo opts else None)
                  (nonEmptyParams (buildScalekitParams opts)) in
    (signinRedirect engine = Fulfilled tt ->
     result r = Normal (Fulfilled tt)
     /\ inVariant Initializing (authState (world r))
     /\ newEvents (loginWithRedirect engine opts) w
        = [EvDispatch (toDispatchAction LOGIN_STARTED); call])
    /\ (forall t, signinRedirect engine = Rejected t ->
          let e := LoginError "Failed to initiate login" (asError t) in
          result r = Normal (Rejected (ThrowError e))
          /\ authState (world r) = authReducer (authState w) (ERROR e)
          /\ newEvents (loginWithRedirect engine opts) w
             = [EvDispatch (toDispatchAction LOGIN_STARTED); call;
                EvDispatch (toDispatchAction (ERROR e))]).
Proof.
  intros engine opts w um Hum r call. subst r call.
  unfold newEvents, loginWithRedirect. unfold_monad. rewrite Hum. split.
  - intros Hok. rewrite Hok. cbn. rewrite <- ?app_assoc, drop_app_length.
    repeat split.
  - intros t Hrej. rewrite Hrej. cbn. rewrite <- ?app_assoc, drop_app_length.
    repeat split.
Qed.

Lemma loginWithRedirect_outcome_witness :
  result (loginWithRedirect signedInEngine collidingLogin readyWorld) = Normal (Fulfilled tt)
  /\ inVariant Initializing
       (authState (world (loginWithRedirect signedInEngine collidingLogin readyWorld)))
  /\ newEvents (loginWithRedirect signedInEngine collidingLogin) readyWorld
     = [EvDispatch (toDispatchAction LOGIN_STARTED);
        EvSigninRedirect
          (if truthyOptStr (returnTo collidingLogin) then returnTo collidingLogin else None)
          (nonEmptyParams (buildScalekitParams collidingLogin))].
Proof.
  apply (loginWithRedirect_outcome signedInEngine collidingLogin readyWorld
           {| settings := sampleSettings |} eq_refl).
  reflexivity.
Defined.

(** X17: with an engine, [loginWithPopup] opens the popup with the given
    dimensions, 500 by 600 where none are given.  When the engine returns
    a session, the promise resolves with the mapped user and the state is
    Authenticated with that user; when it fails, the state becomes
    Errored with a Login error 'Popup login failed' carrying the cause,
    and the promise rejects with that error. *)
Theorem loginWithPopup_outcome :
  forall (engine : Engine) (opts : LoginWithPopupOptions) (w : World)
         (um : UserManager),
    userManager w = Some um ->
    let r := loginWithPopup engine opts w in
    In (EvSigninPopup (default 500%Z (popupWidth opts)) (default 600%Z (popupHeight opts))
                      (nonEmptyParams (buildScalekitParams (popupBase opts))))
       (newEvents (loginWithPopup engine opts) w)
    /\ (forall u, signinPopup engine = Fulfilled u ->
          result r = Normal (Fulfilled (mapOidcUserToScalekitUser u))
          /\ inVariant Authenticated (authState (world r))
          /\ user (authState (world r)) = Some (mapOidcUserToScalekitUser u))
    /\ (forall t, signinPopup engine = Rejected t ->
          let e := LoginError "Popup login failed" (asError t) in
          result r = Normal (Rejected (ThrowError e))
          /\ inVariant Errored (authState (world r))
          /\ error (authState (world r)) = Some e).
Proof.
  intros engine opts w um Hum r. subst r.
  unfold newEvents, loginWithPopup. unfold_monad. rewrite Hum. split; [|split].
  - destruct (signinPopup engine) as [u|t]; cbn;
      rewrite <- ?app_assoc, drop_app_length; simpl; auto.
  - intros u Hok. rewrite Hok. cbn. repeat split; congruence.
  - intros t Hrej. rewrite Hrej. cbn. repeat split; congruence.
Qed.

Lemma loginWithPopup_outcome_witness :
  let opts := {| popupBase := collidingLogin; popupWidth := None; popupHeight := None |} in
  In (EvSigninPopup (default 500%Z (popupWidth opts)) (default 600%Z (popupHeight opts))
                    (nonEmptyParams (buildScalekitParams (popupBase opts))))
     (newEvents (loginWithPopup signedInEngine opts) readyWorld).
Proof.
  apply (loginWithPopup_outcome signedInEngine
           {| popupBase := collidingLogin; popupWidth := None; popupHeight := None |}
           readyWorld {| settings := sampleSettings |}).
  reflexivity.
Defined.

(** X18: with an engine, [refreshToken] renews silently.  A renewed
    session is dispatched as TOKEN_REFRESHED and resolved as the mapped
    user, the state being Authenticated with it; a renewal that yields no
    session resolves with null and leaves the state as it was, without
    dispatching or reporting anything; a renewal that is rejected makes
    the state Errored with a Token-Refresh error 'Token refresh failed'
    carrying the cause, and rejects with that error. *)
Theorem refreshToken_outcome :
  forall (engine : Engine) (w : World) (um : UserManager),
    userManager w = Some um ->
    let r := refreshToken engine w in
    (forall u, signinSilent engine = Fulfilled (Some u) ->
       result r = Normal (Fulfilled (Some (mapOidcUserToScalekitUser u)))
       /\ inVariant Authenticated (authState (world r))
       /\ user (authState (world r)) = Some (mapOidcUserToScalekitUser u))
    /\ (signinSilent engine = Fulfilled None ->
        r = (Normal (Fulfilled None), addTrace w [EvSigninSilent]))
    /\ (forall t, signinSilent engine = Rejected t ->
          let e := TokenRefreshError "Token refresh failed" (asError t) in
          result r = Normal (Rejected (ThrowError e))
          /\ inVariant Errored (authState (world r))
          /\ error (authState (world r)) = Some e).
Proof.
  intros engine w um Hum r. subst r.
  unfold refreshToken. unfold_monad. rewrite Hum. split; [|split].
  - intros u Hok. rewrite Hok. cbn. repeat split; congruence.
  - intros Hnone. rewrite Hnone. cbn. unfold addTrace. now rewrite Hum.
  - intros t Hrej. rewrite Hrej. cbn. repeat split; congruence.
Qed.

Lemma refreshToken_outcome_witness :
  refreshToken renewalEmptyEngine readyWorld
  = (Normal (Fulfilled None), addTrace readyWorld [EvSigninSilent]).
Proof.
  apply (refreshToken_outcome renewalEmptyEngine readyWorld {| settings := sampleSettings |}
           eq_refl).
  reflexivity.
Defined.

(** ** What the entry points leave alone *)

Lemma sameEngine_refl (w : World) : sameEngine w w.
Proof. reflexivity. Qed.

Lemma sameEngine_trans (w1 w2 w3 : World) :
  sameEngine w1 w2 -> sameEngine w2 w3 -> sameEngine w1 w3.
Proof. unfold sameEngine. congruence. Qed.

Lemma sameWindow_refl (w : World) : sameWindow w w.
Proof. reflexivity. Qed.

Lemma sameWindow_trans (w1 w2 w3 : World) :
  sameWindow w1 w2 -> sameWindow w2 w3 -> sameWindow w1 w3.
Proof. unfold sameWindow. congruence. Qed.

Ltac sameEngine_prim :=
  idtac;
  match goal with
  | |- steps sameEngine (emit _) => intros ?; reflexivity
  | |- steps sameEngine (modifyState _) => intros ?; reflexivity
  | |- steps sameEngine (replaceState _) => intros ?; reflexivity
  | |- steps sameEngine (dispatch _) => intros ?; reflexivity
  end.

Ltac sameWindow_prim :=
  idtac;
  match goal with
  | |- steps sameWindow (emit _) => intros ?; reflexivity
  | |- steps sameWindow (modifyState _) => intros ?; reflexivity
  | |- steps sameWindow (setUserManager _) => intros ?; reflexivity
  | |- steps sameWindow (dispatch _) => intros ?; reflexivity
  end.

Lemma run_sameEngine (canParseUrl : string -> bool) (engine : Engine)
      (options : ScalekitAuthPluginOptions) (ep : EntryPoint) :
  ep <> Construct ->
  steps sameEngine (run canParseUrl engine options ep).
Proof.
  intros H. destruct ep; try congruence; unfold run, void; unfold_ops;
    steps_struct sameEngine_refl sameEngine_trans sameEngine_prim.
Qed.

Lemma run_sameWindow (canParseUrl : string -> bool) (engine : Engine)
      (options : ScalekitAuthPluginOptions) (ep : EntryPoint) :
  ep <> Construct -> ep <> CallHandleRedirectCallback ->
  steps sameWindow (run canParseUrl engine options ep).
Proof.
  intros H1 H2. destruct ep; try congruence; unfold run, void; unfold_ops;
    steps_struct sameWindow_refl sameWindow_trans sameWindow_prim.
Qed.

Lemma run_notification_no_engine_call (canParseUrl : string -> bool) (engine : Engine)
      (options : ScalekitAuthPluginOptions) (ep : EntryPoint) :
  isNotification ep = true ->
  steps (appends (fun ev => negb (isEngineCall ev))) (run canParseUrl engine options ep).
Proof.
  intros H. destruct ep; try discriminate; unfold run, void; unfold_ops;
    steps_struct (appends_refl (fun ev => negb (isEngineCall ev)))
                 (appends_trans (fun ev => negb (isEngineCall ev)))
                 appends_prim.
Qed.

(** X19: of all entry points only the construction sets the engine
    variable, and only the construction and [handleRedirectCallback]
    change the window and its address; the four notification listeners
    never call the engine. *)
Theorem run_frame :
  forall (canParseUrl : string -> bool) (engine : Engine)
         (options : ScalekitAuthPluginOptions) (ep : EntryPoint) (w : World),
    (ep <> Construct ->
     userManager (world (run canParseUrl engine options ep w)) = userManager w)
    /\ (ep <> Construct -> ep <> CallHandleRedirectCallback ->
        window (world (run canParseUrl engine options ep w)) = window w)
    /\ (isNotification ep = true ->
        existsb isEngineCall (newEvents (run canParseUrl engine options ep) w) = false).
Proof.
  intros canParseUrl engine options ep w. split; [|split].
  - intros H. exact (run_sameEngine canParseUrl engine options ep H w).
  - intros H1 H2. exact (run_sameWindow canParseUrl engine options ep H1 H2 w).
  - intros H. apply forallb_negb_existsb. apply appends_newEvents.
    exact (run_notification_no_engine_call canParseUrl engine options ep H w).
Qed.

Lemma run_frame_witness :
  userManager (world (run (fun _ => true) signedInEngine optionsDefault
                        (CallLogout plainLogout) signedInWorld))
  = userManager signedInWorld.
Proof.
  apply (run_frame (fun _ => true) signedInEngine optionsDefault (CallLogout plainLogout)
           signedInWorld).
  discriminate.
Defined.

(** ** The Event Bridge *)

(** Whatever the state is when a notification arrives, a user-loaded
    notification leaves it Authenticated with the mapped user, a
    user-unloaded or access-token-expired notification leaves it
    Unauthenticated, and a silent-renew-error notification leaves it
    Errored with a Token-Refresh error 'Silent token renewal failed'
    carrying the engine's error; that error is handed to [onError] once
    if there is such a callback, and only a throwing callback makes the
    listener throw. *)
Theorem eventBridge_transitions :
  forall (options : ScalekitAuthPluginOptions) (w : World),
    (forall u, let w' := world (onUserLoaded u w) in
               inVariant Authenticated (authState w')
               /\ user (authState w') = Some (mapOidcUserToScalekitUser u))
    /\ inVariant Unauthenticated (authState (world (onUserUnloaded w)))
    /\ inVariant Unauthenticated (authState (world (onAccessTokenExpired w)))
    /\ (forall e,
          let r := onSilentRenewError options e w in
          let err := TokenRefreshError "Silent token renewal failed" (Some e) in
          inVariant Errored (authState (world r))
          /\ error (authState (world r)) = Some err
          /\ List.filter isOnError (newEvents (onSilentRenewError options e) w)
             = match onError options with
               | Some _ => [EvOnError err]
               | None => []
               end
          /\ (result r = Normal tt
              \/ exists f t, onError options = Some f /\ f err = Some t
                             /\ result r = Throw t)).
Proof.
  intros options w. split; [|split; [|split]].
  - intros u. cbn. repeat split; congruence.
  - cbn. repeat split.
  - cbn. repeat split.
  - intros e. unfold newEvents, onSilentRenewError, callOnError. unfold_monad.
    destruct (onError options) as [f|] eqn:Hf; cbn.
    + destruct (f _) as [t|] eqn:Hft; cbn;
        rewrite <- ?app_assoc, drop_app_length; cbn;
        (split; [repeat split; congruence|]); (split; [reflexivity|]);
        (split; [reflexivity|]); [right; eauto | left; reflexivity].
    + rewrite drop_app_length. cbn. repeat split; try congruence. now left.
Qed.

(** ** Initialisation *)

(** Running a term down to its branch points. *)
Ltac run_cbn :=
  cbn -[paramsHas paramsGet fold_left removeParam mapOidcUserToScalekitUser
        buildScalekitParams nonEmptyParams cleanupAuthParams].

Ltac split_cases :=
  repeat (run_cbn;
          match goal with
          | |- context [match ?x with _ => _ end] =>
              lazymatch x with
              | context [match _ with _ => _ end] => fail
              | _ => let H := fresh "Hc" in destruct x eqn:H
              end
          end);
  run_cbn.

Lemma initialize_storage_denied (canParseUrl : string -> bool) (engine : Engine)
      (options : ScalekitAuthPluginOptions) (w : World) (t : Thrown) :
  validConfiguration canParseUrl (config options) ->
  storageDenied (config options) w = Some t ->
  initialize canParseUrl engine options w = (Normal (Rejected t), w).
Proof.
  intros Hv Hden. unfold initialize, async. unfold bind at 1.
  rewrite (createUserManager_run_denied _ _ _ _ Hv Hden). reflexivity.
Qed.

(** X20: with a valid configuration, where the configured storage can be
    read, [initialize] always brings the state out of loading and always
    leaves the instance with an engine; its promise resolves, and rejects
    only when the [onError] callback itself throws, the state then being
    Errored.  In a window that denies access to the configured storage
    [initialize] instead rejects with the browser's error and does
    nothing else: no engine is set, nothing is dispatched (a loading
    state stays loading) and [onError] is not called. *)
Theorem initialize_valid_outcome :
  forall (canParseUrl : string -> bool) (engine : Engine)
         (options : ScalekitAuthPluginOptions) (w : World),
    validConfiguration canParseUrl (config options) ->
    let r := initialize canParseUrl engine options w in
    (storageDenied (config options) w = None ->
     isLoading (authState (world r)) = false
     /\ is_Some (userManager (world r))
     /\ (result r = Normal (Fulfilled tt)
         \/ exists f e t, onError options = Some f /\ f e = Some t
                          /\ result r = Normal (Rejected t)
                          /\ inVariant Errored (authState (world r))))
    /\ (forall t, storageDenied (config options) w = Some t ->
                  r = (Normal (Rejected t), w)).
Proof.
  intros canParseUrl engine options w Hv r. subst r.
  split; [|intros t Hden; now apply initialize_storage_denied].
  intros Hst.
  destruct (createUserManager_run_valid canParseUrl (config options) w Hv Hst)
    as (st & warns & env & Hrun & _).
  destruct (initialize canParseUrl engine options w) as [res w'] eqn:Hinit.
  unfold result, world; cbn [fst snd]. revert Hinit.
  unfold initialize, async. unfold bind at 1. rewrite Hrun.
  unfold handleRedirectCallback, hasAuthParams, currentParams, cleanupAuthParams,
    callOnError, callOnRedirectCallback.
  unfold_monad. unfold addTrace.
  split_cases; intros Hinit; injection Hinit as <- <-; cbn;
    (split; [reflexivity|]); (split; [eauto|]);
    first [ left; reflexivity
          | right; do 3 eexists;
            repeat (split; [first [eassumption | reflexivity | discriminate]|]);
            repeat split; congruence ].
Qed.

(** Bringing together two equations on the same term. *)
Ltac unify_cases :=
  repeat match goal with
         | H1 : ?x = _, H2 : ?x = _ |- _ =>
             rewrite H1 in H2; first [discriminate H2 | injection H2 as ?; subst | clear H2]
         | H : true = false |- _ => discriminate H
         | H : false = true |- _ => discriminate H
         end.

(** Closing a case: the equations of the case against those of the
    statement. *)
Ltac finish_case :=
  simplify_eq;
  repeat match goal with
         | H : negb ?b = _ |- _ => destruct b eqn:?; cbn in H
         | H : ?a || ?b = _ |- _ => destruct a eqn:?, b eqn:?; cbn in H
         end;
  simplify_eq; unfold initError; cbn; try reflexivity; try congruence.

Ltac trace_events :=
  unfold newEvents; cbn [trace]; rewrite <- ?app_assoc, ?drop_app_length;
  rewrite ?filter_app; cbn.

(** X21: with a valid configuration whose storage can be read, when
    [initialize] does not take the callback path (auto-handling is off,
    or the address carries neither [code] nor [error]) it reads the
    persisted session, calling the
    engine for nothing else and leaving the address alone: an unexpired
    session makes the state Authenticated with its mapped user; no
    session, or an expired one, makes it Unauthenticated; a failing read
    makes it Errored with the failure (or 'Initialization failed' when the
    failure is no Error), which is also what [onError] is called with. *)
Theorem initialize_rehydrates :
  forall (canParseUrl : string -> bool) (engine : Engine)
         (options : ScalekitAuthPluginOptions) (w : World),
    validConfiguration canParseUrl (config options) ->
    storageDenied (config options) w = None ->
    skipsCallback options w = true ->
    let r := initialize canParseUrl engine options w in
    List.filter isEngineCall (newEvents (initialize canParseUrl engine options) w)
    = [EvGetUser]
    /\ window (world r) = window w
    /\ (forall u, getUser engine = Fulfilled (Some u) -> expired u = false ->
          authState (world r)
          = authReducer (authState w) (INITIALIZED (Some (mapOidcUserToScalekitUser u)))
          /\ result r = Normal (Fulfilled tt))
    /\ (forall u, getUser engine = Fulfilled (Some u) -> expired u = true ->
          inVariant Unauthenticated (authState (world r))
          /\ result r = Normal (Fulfilled tt))
    /\ (getUser engine = Fulfilled None ->
        inVariant Unauthenticated (authState (world r))
        /\ result r = Normal (Fulfilled tt))
    /\ (forall t, getUser engine = Rejected t ->
          inVariant Errored (authState (world r))
          /\ error (authState (world r)) = Some (initError t)
          /\ List.filter isOnError (newEvents (initialize canParseUrl engine options) w)
             = match onError options with
               | Some _ => [EvOnError (initError t)]
               | None => []
               end).
Proof.
  intros canParseUrl engine options w Hv Hst Hskip r. subst r.
  destruct (createUserManager_run_valid canParseUrl (config options) w Hv Hst)
    as (st & warns & env & Hrun & _ & _ & _ & _ & _ & _ & _ & Hwarns).
  unfold newEvents.
  destruct (initialize canParseUrl engine options w) as [res w'] eqn:Hinit.
  unfold result, world; cbn [fst snd]. revert Hinit.
  unfold initialize, async. unfold bind at 1. rewrite Hrun.
  unfold handleRedirectCallback, hasAuthParams, currentParams, cleanupAuthParams,
    callOnError, callOnRedirectCallback.
  unfold_monad. unfold addTrace. unfold skipsCallback in Hskip.
  destruct (default true (autoHandleCallback options)) eqn:Hauto;
    destruct (window w) as [win|] eqn:Hwin; cbn in Hskip; try discriminate Hskip;
    run_cbn; try (apply negb_true_iff in Hskip; rewrite Hskip; run_cbn);
    (destruct Hwarns as [-> | (msg & ->)];
     split_cases; intros Hinit; injection Hinit as <- <-; cbn [trace window authState];
     rewrite <- ?app_assoc, ?drop_app_length; cbn;
     repeat split; intros; finish_case).
Qed.

(** [cleanupAuthParams] in a window, as one step. *)
Lemma cleanupAuthParams_run (w : World) (win : Window) :
  window w = Some win ->
  exists evs,
    cleanupAuthParams w
    = (Normal tt,
       {| authState := authState w;
          userManager := userManager w;
          window := Some {| location := cleanedAddress win;
                            localStorageGetter := localStorageGetter win;
                            sessionStorageGetter := sessionStorageGetter win |};
          trace := trace w ++ evs |})
    /\ (evs = [] \/ evs = [EvReplaceState (cleanedAddress win)]).
Proof.
  intros Hwin.
  pose proof (fold_removeParam_filter paramsToRemove (location win) false) as Hfst.
  pose proof (fun n => fold_removeParam_flag n paramsToRemove (location win) false) as Hflag.
  unfold cleanupAuthParams, bind, getWindow. rewrite Hwin.
  destruct (fold_left removeParam paramsToRemove (location win, false)) as [u' h'] eqn:Hfold.
  cbn [fst snd] in Hfst, Hflag.
  assert (Hu : u' = cleanedAddress win) by (rewrite Hfst; reflexivity).
  destruct h'.
  - exists [EvReplaceState (cleanedAddress win)]. split; [|now right].
    unfold replaceState. rewrite Hwin, Hu. reflexivity.
  - exists []. split; [|now left].
    assert (Hsame : fold_left removeParam paramsToRemove (location win, false)
                    = (location win, false)).
    { apply fold_removeParam_absent. intros n Hn.
      destruct (paramsHas n (searchParams (location win))) eqn:Hp; [|reflexivity].
      specialize (Hflag n Hn Hp). discriminate. }
    rewrite Hsame in Hfold. injection Hfold as Hloc. rewrite <- Hu, <- Hloc.
    unfold ret. rewrite app_nil_r. destruct w as [s um wn tr]; cbn in *. subst wn.
    now destruct win.
Qed.

Ltac use_cleanup win :=
  repeat match goal with
         | H : cleanupAuthParams ?w0 = _ |- _ =>
             let evs := fresh "evs" in
             let Hrun := fresh "Hrun" in
             let Hevs := fresh "Hevs" in
             destruct (cleanupAuthParams_run w0 win eq_refl) as (evs & Hrun & Hevs);
             rewrite Hrun in H; clear Hrun;
             first [discriminate H | injection H as ? ?; subst];
             destruct Hevs as [-> | ->]
         end.

Lemma initialize_exchanges_callback :
  forall (canParseUrl : string -> bool) (engine : Engine)
         (options : ScalekitAuthPluginOptions) (w : World) (win : Window) (u : OidcUser),
    validConfiguration canParseUrl (config options) ->
    storageDenied (config options) w = None ->
    window w = Some win ->
    takesCallbackPath options win = true ->
    signinRedirectCallback engine = Fulfilled u ->
    let r := initialize canParseUrl engine options w in
    let su := mapOidcUserToScalekitUser u in
    List.filter isEngineCall (newEvents (initialize canParseUrl engine options) w)
    = [EvSigninRedirectCallback]
    /\ address (world r) = Some (cleanedAddress win)
    /\ List.filter isOnRedirectCallback (newEvents (initialize canParseUrl engine options) w)
       = match onRedirectCallback options with
         | Some _ => [EvOnRedirectCallback su]
         | None => []
         end
    /\ ((onRedirectCallback options = None
         \/ exists f, onRedirectCallback options = Some f /\ f su = None) ->
        authState (world r) = authReducer (authState w) (LOGIN_COMPLETED su)
        /\ result r = Normal (Fulfilled tt))
    /\ (forall f t, onRedirectCallback options = Some f -> f su = Some t ->
          inVariant Errored (authState (world r))
          /\ error (authState (world r)) = Some (initError t)).
Proof.
  intros canParseUrl engine options w win u Hv Hst Hwin Hpath Hex r su. subst r su.
  destruct (createUserManager_run_valid canParseUrl (config options) w Hv Hst)
    as (st & warns & env & Hrun & _ & _ & _ & _ & _ & _ & _ & Hwarns).
  unfold newEvents, address.
  destruct (initialize canParseUrl engine options w) as [res w'] eqn:Hinit.
  unfold result, world; cbn [fst snd]. revert Hinit.
  unfold initialize, async. unfold bind at 1. rewrite Hrun.
  unfold handleRedirectCallback, hasAuthParams, currentParams,
    callOnError, callOnRedirectCallback.
  unfold_monad. unfold addTrace. unfold takesCallbackPath in Hpath.
  apply andb_prop in Hpath as [Hauto Hp]. rewrite Hauto, Hwin, Hex. run_cbn.
  rewrite Hp. run_cbn.
  destruct Hwarns as [-> | (msg & ->)];
    split_cases; intros Hinit; injection Hinit as <- <-; use_cleanup win;
    cbn [trace window authState];
    rewrite <- ?app_assoc, ?drop_app_length; cbn;
    repeat split; intros; finish_case;
    repeat match goal with
           | H : _ \/ _ |- _ => destruct H as [H | (? & H & ?)]
           end; finish_case.
Qed.

(** X22: with a valid configuration whose storage can be read, on an
    address that carries [code] or [error], with auto-handling on and an
    engine that exchanges the response for a session, [initialize] makes
    one engine call (the
    exchange, never the read of the persisted session), cleans the
    address of the redirect parameters and calls [onRedirectCallback],
    if there is one, once with the mapped user.  If that callback returns
    normally or is absent the state is Authenticated with the mapped user
    and the promise resolves; if it throws, the state is Errored with
    what it threw, although the login was completed. *)
Theorem initialize_callback_success :
  forall (canParseUrl : string -> bool) (engine : Engine)
         (options : ScalekitAuthPluginOptions) (w : World) (win : Window) (u : OidcUser),
    validConfiguration canParseUrl (config options) ->
    storageDenied (config options) w = None ->
    window w = Some win ->
    takesCallbackPath options win = true ->
    signinRedirectCallback engine = Fulfilled u ->
    let r := initialize canParseUrl engine options w in
    let su := mapOidcUserToScalekitUser u in
    List.filter isEngineCall (newEvents (initialize canParseUrl engine options) w)
    = [EvSigninRedirectCallback]
    /\ address (world r) = Some (cleanedAddress win)
    /\ List.filter isOnRedirectCallback (newEvents (initialize canParseUrl engine options) w)
       = match onRedirectCallback options with
         | Some _ => [EvOnRedirectCallback su]
         | None => []
         end
    /\ ((onRedirectCallback options = None
         \/ exists f, onRedirectCallback options = Some f /\ f su = None) ->
        authState (world r) = authReducer (authState w) (LOGIN_COMPLETED su)
        /\ result r = Normal (Fulfilled tt))
    /\ (forall f t, onRedirectCallback options = Some f -> f su = Some t ->
          inVariant Errored (authState (world r))
          /\ error (authState (world r)) = Some (initError t)).
Proof. exact initialize_exchanges_callback. Qed.

(** X23: with a valid configuration whose storage can be read, on an
    address that carries [code] or [error], with auto-handling on and an
    engine that cannot exchange the response, [initialize] ends Errored
    with the Callback error
    'Failed to process authentication callback' carrying the cause.  That
    error is dispatched twice (by [handleRedirectCallback] and again by
    [initialize]) and handed to [onError] once; the engine is called for
    the exchange only, and the address keeps its parameters. *)
Theorem initialize_callback_failure :
  forall (canParseUrl : string -> bool) (engine : Engine)
         (options : ScalekitAuthPluginOptions) (w : World) (win : Window) (t : Thrown),
    validConfiguration canParseUrl (config options) ->
    storageDenied (config options) w = None ->
    window w = Some win ->
    takesCallbackPath options win = true ->
    signinRedirectCallback engine = Rejected t ->
    let r := initialize canParseUrl engine options w in
    let e := CallbackError "Failed to process authentication callback" (asError t) in
    inVariant Errored (authState (world r))
    /\ error (authState (world r)) = Some e
    /\ window (world r) = window w
    /\ List.filter isDispatch (newEvents (initialize canParseUrl engine options) w)
       = [EvDispatch (toDispatchAction (ERROR e)); EvDispatch (toDispatchAction (ERROR e))]
    /\ List.filter isOnError (newEvents (initialize canParseUrl engine options) w)
       = match onError options with
         | Some _ => [EvOnError e]
         | None => []
         end
    /\ List.filter isEngineCall (newEvents (initialize canParseUrl engine options) w)
       = [EvSigninRedirectCallback].
Proof.
  intros canParseUrl engine options w win t Hv Hst Hwin Hpath Hex r e. subst r e.
  destruct (createUserManager_run_valid canParseUrl (config options) w Hv Hst)
    as (st & warns & env & Hrun & _ & _ & _ & _ & _ & _ & _ & Hwarns).
  unfold newEvents.
  destruct (initialize canParseUrl engine options w) as [res w'] eqn:Hinit.
  unfold result, world; cbn [fst snd]. revert Hinit.
  unfold initialize, async. unfold bind at 1. rewrite Hrun.
  unfold handleRedirectCallback, hasAuthParams, currentParams,
    callOnError, callOnRedirectCallback.
  unfold_monad. unfold addTrace. unfold takesCallbackPath in Hpath.
  apply andb_prop in Hpath as [Hauto Hp]. rewrite Hauto, Hwin, Hex. run_cbn.
  rewrite Hp. run_cbn.
  destruct Hwarns as [-> | (msg & ->)];
    split_cases; intros Hinit; injection Hinit as <- <-;
    cbn [trace window authState];
    rewrite <- ?app_assoc, ?drop_app_length; cbn;
    repeat split; intros; finish_case.
Qed.

(** The configuration of the README is valid for a parser that accepts
    its URLs. *)
Lemma validDefault : validConfiguration (fun _ => true) (config optionsDefault).
Proof.
  unfold validConfiguration. do 3 eexists.
  repeat (split; [first [reflexivity | discriminate]|]).
  intros p Hp. discriminate.
Defined.

Lemma initialize_valid_outcome_witness :
  (let r := initialize (fun _ => true) exchangeFailsEngine optionsDefault
              (freshWorld (Some errorWindow)) in
   isLoading (authState (world r)) = false
   /\ is_Some (userManager (world r))
   /\ (result r = Normal (Fulfilled tt)
       \/ exists f e t, onError optionsDefault = Some f /\ f e = Some t
                        /\ result r = Normal (Rejected t)
                        /\ inVariant Errored (authState (world r))))
  /\ initialize (fun _ => true) signedInEngine optionsDefault
       (freshWorld (Some storageDeniedWindow))
     = (Normal (Rejected securityError), freshWorld (Some storageDeniedWindow)).
Proof.
  split.
  - apply (proj1 (initialize_valid_outcome (fun _ => true) exchangeFailsEngine
                    optionsDefault (freshWorld (Some errorWindow)) validDefault)).
    reflexivity.
  - apply (proj2 (initialize_valid_outcome (fun _ => true) signedInEngine
                    optionsDefault (freshWorld (Some storageDeniedWindow)) validDefault)).
    reflexivity.
Defined.

Lemma initialize_rehydrates_witness :
  List.filter isEngineCall
    (newEvents (initialize (fun _ => true) signedInEngine optionsDefault)
       (freshWorld (Some homeWindow)))
  = [EvGetUser].
Proof.
  apply (initialize_rehydrates (fun _ => true) signedInEngine optionsDefault
           (freshWorld (Some homeWindow)) validDefault eq_refl).
  reflexivity.
Defined.

Lemma initialize_callback_success_witness :
  List.filter isEngineCall
    (newEvents (initialize (fun _ => true) signedInEngine optionsDefault)
       (freshWorld (Some callbackWindow)))
  = [EvSigninRedirectCallback].
Proof.
  apply (initialize_callback_success (fun _ => true) signedInEngine optionsDefault
           (freshWorld (Some callbackWindow)) callbackWindow freshSession validDefault
           eq_refl);
    reflexivity.
Defined.

Lemma initialize_callback_failure_witness :
  inVariant Errored
    (authState (world (initialize (fun _ => true) exchangeFailsEngine optionsDefault
                         (freshWorld (Some errorWindow))))).
Proof.
  apply (initialize_callback_failure (fun _ => true) exchangeFailsEngine optionsDefault
           (freshWorld (Some errorWindow)) errorWindow
           (ThrowError (newError "No matching state found in storage")) validDefault
           eq_refl);
    reflexivity.
Defined.

(** ** The access-token composable *)

Ltac unfold_mc :=
  unfold asyncC, tryCatchFinallyC, tryCatchC, bindC, awaitC, throwC, retC, liftM, getC,
    modifyC, readState;
  cbn [fst snd].

Lemma getAccessToken_settled (engine : Engine) (opts : GetAccessTokenOptions) (w : World) :
  exists p evs, getAccessToken engine opts w = (Normal p, addTrace w evs).
Proof.
  destruct (getAccessToken_settles engine opts w) as (p & Hp).
  destruct (getAccessToken_world engine opts w) as (evs & Hw & _).
  exists p, evs. destruct (getAccessToken engine opts w) as [r w'].
  unfold result, world in *; cbn [fst snd] in *. congruence.
Qed.

(** X24: [fetchToken] never rejects and never touches the auth state.
    While the auth instance is loading it leaves the refs alone; once it
    is not, the token ref's loading flag ends false and a token is held
    only together with a null error: an unauthenticated instance gives a
    null token without calling the engine, an authenticated one gives the
    token [getAccessToken()] resolves with and a null error, or, when
    that rejects, a null token and the rejection as error. *)
Theorem fetchToken_refs :
  forall (engine : Engine) (refs : TokenRefs) (w : World),
    let out := fetchToken engine (refs, w) in
    let refs' := fst (snd out) in
    let w' := snd (snd out) in
    fst out = Normal (Fulfilled tt)
    /\ authState w' = authState w
    /\ (isLoading (authState w) = true -> refs' = refs /\ w' = w)
    /\ (isLoading (authState w) = false ->
        isLoadingRef refs' = false
        /\ (is_Some (accessTokenRef refs') -> errorRef refs' = None)
        /\ (isAuthenticated (authState w) = false ->
            accessTokenRef refs' = None /\ w' = w)
        /\ (isAuthenticated (authState w) = true ->
            match result (getAccessToken engine noOptions w) with
            | Normal (Fulfilled token) =>
                accessTokenRef refs' = Some token /\ errorRef refs' = None
            | Normal (Rejected t) =>
                accessTokenRef refs' = None
                /\ errorRef refs'
                   = Some (default (newError "Failed to get access token") (asError t))
            | Throw _ => False
            end)).
Proof.
  intros engine refs w out refs' w'. subst refs' w' out.
  destruct (getAccessToken_settled engine noOptions w) as (p & evs & Hget).
  unfold fetchToken, setIsLoading, setAccessToken, setError. unfold_mc.
  unfold result.
  destruct (isAuthenticated (authState w)), (isLoading (authState w)); cbn;
    rewrite ?Hget; cbn;
    try (destruct p as [token|t]; cbn);
    repeat split; intros; try discriminate; try reflexivity;
    try match goal with H : is_Some None |- _ => destruct H; discriminate end.
Qed.

Lemma fetchToken_refs_witness :
  let out := fetchToken signedInEngine (initialRefs, signedInWorld) in
  isLoadingRef (fst (snd out)) = false
  /\ (is_Some (accessTokenRef (fst (snd out))) -> errorRef (fst (snd out)) = None)
  /\ (isAuthenticated (authState signedInWorld) = false ->
      accessTokenRef (fst (snd out)) = None /\ snd (snd out) = signedInWorld)
  /\ (isAuthenticated (authState signedInWorld) = true ->
      match result (getAccessToken signedInEngine noOptions signedInWorld) with
      | Normal (Fulfilled token) =>
          accessTokenRef (fst (snd out)) = Some token /\ errorRef (fst (snd out)) = None
      | Normal (Rejected t) =>
          accessTokenRef (fst (snd out)) = None
          /\ errorRef (fst (snd out))
             = Some (default (newError "Failed to get access token") (asError t))
      | Throw _ => False
      end).
Proof.
  apply (fetchToken_refs signedInEngine initialRefs signedInWorld). reflexivity.
Defined.

(** X25: [refresh] never rejects and never touches the auth state.  On
    an unauthenticated instance it does nothing at all.  On an
    authenticated one it asks [getAccessToken] for a forced refresh and
    ends with the loading flag false: the new token and a null error when
    that resolves; when it rejects, the rejection as error and the token
    ref still holding the token it held before. *)
Theorem refresh_refs :
  forall (engine : Engine) (refs : TokenRefs) (w : World),
    let out := refresh engine (refs, w) in
    let refs' := fst (snd out) in
    let w' := snd (snd out) in
    fst out = Normal (Fulfilled tt)
    /\ authState w' = authState w
    /\ (isAuthenticated (authState w) = false -> refs' = refs /\ w' = w)
    /\ (isAuthenticated (authState w) = true ->
        isLoadingRef refs' = false
        /\ match result (getAccessToken engine forceRefreshOptions w) with
           | Normal (Fulfilled token) =>
               accessTokenRef refs' = Some token /\ errorRef refs' = None
           | Normal (Rejected t) =>
               accessTokenRef refs' = accessTokenRef refs
               /\ errorRef refs'
                  = Some (default (newError "Failed to refresh access token") (asError t))
           | Throw _ => False
           end).
Proof.
  intros engine refs w out refs' w'. subst refs' w' out.
  destruct (getAccessToken_settled engine forceRefreshOptions w) as (p & evs & Hget).
  unfold refresh, setIsLoading, setAccessToken, setError. unfold_mc.
  unfold result.
  destruct (isAuthenticated (authState w)); cbn;
    rewrite ?Hget; cbn;
    try (destruct p as [token|t]; cbn);
    repeat split; intros; try discriminate; try reflexivity.
Qed.

Lemma refresh_refs_witness :
  let refs := {| accessTokenRef := Some "at_old"; isLoadingRef := false; errorRef := None |} in
  let out := refresh signedInEngine (refs, signedInWorld) in
  isLoadingRef (fst (snd out)) = false
  /\ match result (getAccessToken signedInEngine forceRefreshOptions signedInWorld) with
     | Normal (Fulfilled token) =>
         accessTokenRef (fst (snd out)) = Some token /\ errorRef (fst (snd out)) = None
     | Normal (Rejected t) =>
         accessTokenRef (fst (snd out)) = accessTokenRef refs
         /\ errorRef (fst (snd out))
            = Some (default (newError "Failed to refresh access token") (asError t))
     | Throw _ => False
     end.
Proof.
  apply (refresh_refs signedInEngine
           {| accessTokenRef := Some "at_old"; isLoadingRef := false; errorRef := None |}
           signedInWorld).
  reflexivity.
Defined.

(** The stale token kept by [refresh], on the signed-in engine whose silent renewal
    is refused. *)
Example refresh_keeps_stale_token :
  fst (snd (refresh signedInEngine
              ({| accessTokenRef := Some "at_old"; isLoadingRef := false; errorRef := None |},
               signedInWorld)))
  = {| accessTokenRef := Some "at_old";
       isLoadingRef := false;
       errorRef := Some (TokenRefreshError "Failed to get access token"
                           (Some (newError "Network Error"))) |}.
Proof. vm_compute. reflexivity. Qed.

(** ** The callback component *)

Ltac run_cbn_mc :=
  cbn -[paramsHas paramsGet fold_left removeParam mapOidcUserToScalekitUser
        handleRedirectCallback cleanupAuthParams initialize].

Ltac split_cases_mc :=
  repeat (run_cbn_mc;
          match goal with
          | |- context [match ?x with _ => _ end] =>
              lazymatch x with
              | context [match _ with _ => _ end] => fail
              | _ => let H := fresh "Hc" in destruct x eqn:H
              end
          end);
  run_cbn_mc.

Ltac unfold_callback :=
  unfold processCallback, reportError, callPropOnError, callPropOnSuccess,
    setCallbackError, setProcessed, hand, hasAuthError, hasAuthParams, getAuthError,
    currentParams;
  unfold_mc; unfold_monad.

Lemma handleRedirectCallback_settles (engine : Engine) (w : World) :
  exists p, result (handleRedirectCallback engine w) = Normal p.
Proof.
  unfold handleRedirectCallback, async, result.
  destruct (bind _ _ w) as [[a|t] w']; eauto.
Qed.

(** X26: the callback component processes the redirect once.  A run that
    finds the component already processed, or the auth instance still
    loading, does nothing.  Any other run in a window, with callback
    props that return normally, resolves and leaves the component
    processed, having last emitted either [success], the error ref being
    as before, or [error] with the error the error ref now holds; a
    further run then does nothing. *)
Theorem processCallback_once :
  forall (engine : Engine) (props : ScalekitCallbackProps) (refs : CallbackRefs)
         (w : World),
    let out := processCallback engine props (refs, w) in
    (processed refs = true \/ isLoading (authState w) = true ->
     out = (Normal (Fulfilled tt), (refs, w)))
    /\ (forall win,
          processed refs = false -> isLoading (authState w) = false ->
          window w = Some win -> propsReturn props ->
          fst out = Normal (Fulfilled tt)
          /\ processed (fst (snd out)) = true
          /\ ((last (handed (fst (snd out))) = Some EmitSuccess
               /\ callbackError (fst (snd out)) = callbackError refs)
              \/ exists e, last (handed (fst (snd out))) = Some (EmitError e)
                           /\ callbackError (fst (snd out)) = Some e)
          /\ processCallback engine props (snd out) = (Normal (Fulfilled tt), snd out)).
Proof.
  intros engine props refs w out. subst out.
  assert (Hskip : forall refs0 w0,
             processed refs0 = true \/ isLoading (authState w0) = true ->
             processCallback engine props (refs0, w0) = (Normal (Fulfilled tt), (refs0, w0))).
  { intros refs0 w0 H. unfold processCallback. unfold_mc.
    destruct (processed refs0), (isLoading (authState w0)); cbn;
      try reflexivity; destruct H; discriminate. }
  split; [apply Hskip|].
  intros win Hproc Hload Hwin [Hperr Hpok].
  destruct (processCallback engine props (refs, w)) as [res [refs' w']] eqn:Hrun.
  cbn [fst snd].
  assert (Hmain : res = Normal (Fulfilled tt) /\ processed refs' = true
                  /\ ((last (handed refs') = Some EmitSuccess
                       /\ callbackError refs' = callbackError refs)
                      \/ exists e, last (handed refs') = Some (EmitError e)
                                   /\ callbackError refs' = Some e)).
  { revert Hrun.
    destruct (handleRedirectCallback_settles engine w) as (p & Hp).
    destruct (handleRedirectCallback engine w) as [hr hw] eqn:Hh.
    unfold result in Hp; cbn [fst] in Hp. subst hr.
    destruct props as [ps pe]; cbn in Hperr, Hpok.
    assert (Hf : forall f e, pe = Some f -> f e = None) by exact Hperr.
    unfold_callback. run_cbn_mc. rewrite Hproc, Hload. run_cbn_mc.
    destruct w as [st um wn tr]; cbn in Hwin; subst wn. run_cbn_mc. rewrite ?Hh.
    destruct pe as [f|]; [pose proof (fun e => Hperr f e eq_refl) as Hfe|];
      (destruct ps as [[t|]|]; [destruct (Hpok t eq_refl)| |]);
      split_cases_mc; intros Hrun; injection Hrun as <- <- <-; cbn;
      repeat match goal with
             | H : f _ = Some _ |- _ => rewrite Hfe in H; discriminate H
             end;
      (split; [reflexivity|]); (split; [reflexivity|]);
      rewrite ?last_snoc;
      first [ left; split; reflexivity | right; eexists; split; reflexivity ]. }
  destruct Hmain as (Hres & Hdone & Hlast).
  repeat split; try assumption. apply Hskip. now left.
Qed.

Lemma processCallback_once_witness :
  processCallback signedInEngine {| propOnSuccess := None; propOnError := None |}
    (initialCallbackRefs, freshWorld (Some callbackWindow))
  = (Normal (Fulfilled tt), (initialCallbackRefs, freshWorld (Some callbackWindow))).
Proof.
  apply (processCallback_once signedInEngine {| propOnSuccess := None; propOnError := None |}
           initialCallbackRefs (freshWorld (Some callbackWindow))).
  right. reflexivity.
Defined.

(** X27: on an address with an [error] parameter the callback component
    (not yet processed, auth instance not loading) never calls the
    engine and never touches the auth instance: it sets its error ref to
    a Callback error whose message is the error description if there is a
    non-empty one, else the error, and 'Authentication failed' when the
    [error] parameter is empty, whatever the description; with an
    [onError] prop that returns normally it then emits [error] with it. *)
Theorem processCallback_error_response :
  forall (engine : Engine) (props : ScalekitCallbackProps) (refs : CallbackRefs)
         (w : World) (win : Window),
    processed refs = false ->
    isLoading (authState w) = false ->
    window w = Some win ->
    paramsHas "error" (searchParams (location win)) = true ->
    let out := processCallback engine props (refs, w) in
    let e := CallbackError (errorResponseMessage (searchParams (location win))) None in
    snd (snd out) = w
    /\ processed (fst (snd out)) = true
    /\ callbackError (fst (snd out)) = Some e
    /\ ((forall f, propOnError props = Some f -> f e = None) ->
        fst out = Normal (Fulfilled tt)
        /\ last (handed (fst (snd out))) = Some (EmitError e)).
Proof.
  intros engine props refs w win Hproc Hload Hwin Herr out e. subst out e.
  destruct (processCallback engine props (refs, w)) as [res [refs' w']] eqn:Hrun.
  cbn [fst snd]. revert Hrun.
  destruct props as [ps pe]. cbn [propOnError].
  unfold_callback. run_cbn_mc. rewrite Hproc, Hload. run_cbn_mc.
  destruct w as [st um wn tr]; cbn in Hwin; subst wn. run_cbn_mc.
  change OIDC_ERROR with "error". change OIDC_ERROR_DESCRIPTION with "error_description".
  rewrite ?Herr. run_cbn_mc. unfold errorResponseMessage, authErrorMessage.
  destruct pe as [f|];
    split_cases_mc; intros Hrun; injection Hrun as <- <- <-; cbn;
    try match goal with
        | H : _ = true |- _ => cbn in H; discriminate H
        | H : _ = false |- _ => cbn in H; discriminate H
        end;
    repeat split; try reflexivity; intros;
    repeat match goal with
           | Hfe : forall f0, Some f = Some f0 -> _, H : f _ = Some _ |- _ =>
               cbn in H; rewrite (Hfe f eq_refl) in H; discriminate H
           end;
    rewrite ?last_snoc; try reflexivity.
Qed.

Lemma processCallback_error_response_witness :
  callbackError
    (fst (snd (processCallback exchangeFailsEngine
                 {| propOnSuccess := None; propOnError := None |}
                 (initialCallbackRefs,
                  {| authState := authReducer initialAuthState
                                    (ERROR (CallbackError
                                              "Failed to process authentication callback"
                                              None));
                     userManager := Some {| settings := sampleSettings |};
                     window := Some errorWindow;
                     trace := [] |}))))
  = Some (CallbackError "User cancelled" None).
Proof.
  apply (processCallback_error_response exchangeFailsEngine
           {| propOnSuccess := None; propOnError := None |} initialCallbackRefs
           {| authState := authReducer initialAuthState
                             (ERROR (CallbackError
                                       "Failed to process authentication callback" None));
              userManager := Some {| settings := sampleSettings |};
              window := Some errorWindow;
              trace := [] |}
           errorWindow);
    reflexivity.
Defined.

Lemma paramsHas_cleaned (n : string) (ps : list (string * string)) :
  isOidcParam n = true ->
  paramsHas n (List.filter (fun p => negb (isOidcParam (fst p))) ps) = false.
Proof.
  intros Hn. unfold paramsHas.
  induction ps as [|[k v] ps IH]; simpl; [reflexivity|].
  destruct (isOidcParam k) eqn:Hk; simpl; [exact IH|].
  destruct (String.eqb_spec k n) as [->|_]; [congruence | exact IH].
Qed.

(** X28: a callback component mounted while the plugin auto-handles the
    callback finds nothing left to process.  With a valid configuration
    whose storage can be read, on an address that carries [code] or
    [error], with auto-handling on and an engine that exchanges the
    response, the state after
    [initialize] is no longer loading; a not yet processed component that
    then runs [processCallback] makes no engine call and no dispatch, and
    sets its error ref to the Callback error 'No authentication
    parameters found in URL. ...', although the login was completed. *)
Theorem processCallback_after_auto_handled_callback :
  forall (canParseUrl : string -> bool) (engine : Engine)
         (options : ScalekitAuthPluginOptions) (props : ScalekitCallbackProps)
         (w : World) (win : Window) (u : OidcUser) (refs : CallbackRefs),
    validConfiguration canParseUrl (config options) ->
    storageDenied (config options) w = None ->
    window w = Some win ->
    takesCallbackPath options win = true ->
    signinRedirectCallback engine = Fulfilled u ->
    processed refs = false ->
    let w1 := world (initialize canParseUrl engine options w) in
    let out := processCallback engine props (refs, w1) in
    isLoading (authState w1) = false
    /\ snd (snd out) = w1
    /\ processed (fst (snd out)) = true
    /\ callbackError (fst (snd out)) = Some (CallbackError noParamsMessage None).
Proof.
  intros canParseUrl engine options props w win u refs Hv Hst Hwin Hpath Hex Hproc w1 out.
  destruct (initialize_exchanges_callback canParseUrl engine options w win u
              Hv Hst Hwin Hpath Hex) as (_ & Haddr & _ & Hok & Hthrows).
  fold w1 in Haddr, Hok, Hthrows.
  assert (Hload : isLoading (authState w1) = false).
  { destruct (onRedirectCallback options) as [f|] eqn:Hf.
    - destruct (f (mapOidcUserToScalekitUser u)) as [t|] eqn:Hfu.
      + destruct (Hthrows f t eq_refl Hfu) as [(Hl & _) _]. exact Hl.
      + destruct Hok as [-> _]; [right; eauto | reflexivity].
    - destruct Hok as [-> _]; [now left | reflexivity]. }
  split; [exact Hload|].
  subst out. unfold address in Haddr.
  destruct w1 as [st um wn tr]. cbn in Hload, Haddr.
  destruct wn as [win1|]; [|discriminate]. cbn in Haddr.
  injection Haddr as Hloc.
  assert (Herr : paramsHas "error" (searchParams (location win1)) = false)
    by (rewrite Hloc; now apply paramsHas_cleaned).
  assert (Hcode : paramsHas "code" (searchParams (location win1)) = false)
    by (rewrite Hloc; now apply paramsHas_cleaned).
  destruct props as [ps pe].
  unfold_callback. run_cbn_mc. rewrite Hproc, Hload. run_cbn_mc.
  change OIDC_ERROR with "error". change OIDC_CODE with "code".
  rewrite ?Herr, ?Hcode. run_cbn_mc.
  split_cases_mc;
    try match goal with
        | H : negb _ = false |- _ =>
            change OIDC_ERROR with "error" in H; change OIDC_CODE with "code" in H;
            rewrite ?Herr, ?Hcode in H; discriminate H
        end;
    repeat split; reflexivity.
Qed.

Lemma processCallback_after_auto_handled_callback_witness :
  callbackError
    (fst (snd (processCallback signedInEngine
                 {| propOnSuccess := None; propOnError := None |}
                 (initialCallbackRefs,
                  world (initialize (fun _ => true) signedInEngine optionsDefault
                           (freshWorld (Some callbackWindow)))))))
  = Some (CallbackError noParamsMessage None).
Proof.
  apply (processCallback_after_auto_handled_callback (fun _ => true) signedInEngine
           optionsDefault {| propOnSuccess := None; propOnError := None |}
           (freshWorld (Some callbackWindow)) callbackWindow freshSession
           initialCallbackRefs);
    first [ exact validDefault | reflexivity ].
Defined.

(** ** The navigation guards *)

Lemma loginWithRedirect_settles (engine : Engine) (opts : LoginWithRedirectOptions)
      (w : World) :
  exists p, result (loginWithRedirect engine opts w) = Normal p.
Proof.
  unfold loginWithRedirect, async, result.
  destruct (bind _ _ w) as [[a|t] w']; eauto.
Qed.

Lemma checkLoading_run (tasks : list (M unit)) (log : list GuardEvent) (w : World) :
  exists w',
    checkLoading tasks (log, w)
    = (Normal (negb (forallb stillLoading (pollWorlds tasks w))), (log, w'))
    /\ stillLoading w' = forallb stillLoading (pollWorlds tasks w).
Proof.
  revert w. induction tasks as [|task rest IH]; intros w.
  - exists w. cbn. unfold_mc. unfold stillLoading.
    destruct (isLoading (authState w)); cbn; split; reflexivity.
  - cbn [checkLoading pollWorlds forallb]. unfold_mc.
    assert (Hs : stillLoading w = isLoading (authState w)) by reflexivity.
    rewrite Hs.
    destruct (isLoading (authState w)) eqn:Hl; cbn.
    + unfold background; cbn. destruct (IH (world (task w))) as (w' & Hrun & Hw').
      exists w'. unfold world in *. rewrite Hrun. split; [reflexivity | exact Hw'].
    + exists w. split; [reflexivity | exact Hl].
Qed.

Lemma guardBody_ready (engine : Engine) (options : AuthGuardOptions)
      (name fullPath : string) (tasks : list (M unit)) (log : list GuardEvent)
      (w : World) :
  isLoading (authState w) = false ->
  let out := guardBody engine options name fullPath tasks (log, w) in
  let login := loginWithRedirect engine (guardLoginOptions options fullPath) w in
  (isAuthenticated (authState w) = true ->
   out = (Normal (Settle (Fulfilled true)), (log, w)))
  /\ (isAuthenticated (authState w) = false ->
      (forall t, onRedirecting options <> Some (Some t)) ->
      fst out = Normal (Settle (Fulfilled false))
      /\ snd (snd out) = world login
      /\ fst (snd out)
         = log
           ++ match onRedirecting options with
              | Some _ => [GuardOnRedirecting]
              | None => []
              end
           ++ match result login with
              | Normal (Rejected t) =>
                  [GuardConsoleError (name ++ ": Failed to redirect to login")%string
                                     (Some t)]
              | _ => []
              end)
  /\ (isAuthenticated (authState w) = false ->
      forall t, onRedirecting options = Some (Some t) ->
                out = (Normal (Settle (Rejected t)), (log ++ [GuardOnRedirecting], w))).
Proof.
  intros Hload out login. subst out login.
  destruct (loginWithRedirect_settles engine (guardLoginOptions options fullPath) w)
    as (p & Hp).
  unfold guardLoginOptions in *.
  destruct (loginWithRedirect engine _ w) as [lr lw] eqn:Hlogin.
  unfold result in *; cbn [fst] in Hp; subst lr. unfold world; cbn [fst snd].
  unfold guardBody, callOnRedirecting, logGuard. unfold_mc. rewrite Hload. cbn.
  split; [|split].
  - intros ->. reflexivity.
  - intros Hna Hno. rewrite Hna. cbn.
    destruct (onRedirecting options) as [[t|]|]; [destruct (Hno t eq_refl)| |];
      cbn; rewrite Hlogin; destruct p; cbn; rewrite ?app_nil_r, <- ?app_assoc;
      repeat split; reflexivity.
  - intros Hna t Ht. rewrite Hna, Ht. reflexivity.
Qed.

(** A guard that is past its wait goes on as a guard started in the state
    the wait ended in. *)
Lemma guardBody_after_wait (engine : Engine) (options : AuthGuardOptions)
      (name fullPath : string) (tasks : list (M unit)) (log : list GuardEvent)
      (w : World) :
  forallb stillLoading (pollWorlds tasks w) = false ->
  exists w', isLoading (authState w') = false
             /\ guardBody engine options name fullPath tasks (log, w)
                = guardBody engine options name fullPath [] (log, w').
Proof.
  intros Hall.
  destruct (isLoading (authState w)) eqn:Hl.
  - destruct (checkLoading_run tasks log w) as (w' & Hrun & Hw').
    rewrite Hall in Hrun, Hw'. exists w'. split; [exact Hw'|].
    unfold guardBody. unfold_mc. rewrite Hl, Hrun.
    unfold stillLoading in Hw'. rewrite Hw'. reflexivity.
  - exists w. split; [exact Hl|].
    unfold guardBody. unfold_mc. rewrite Hl. reflexivity.
Qed.

Lemma guardBody_pending (engine : Engine) (options : AuthGuardOptions)
      (name fullPath : string) (tasks : list (M unit)) (log : list GuardEvent)
      (w : World) :
  forallb stillLoading (pollWorlds tasks w) = true ->
  exists w', guardBody engine options name fullPath tasks (log, w)
             = (Normal Pending, (log, w')).
Proof.
  intros Hall.
  destruct (checkLoading_run tasks log w) as (w' & Hrun & Hw').
  rewrite Hall in Hrun. exists w'.
  assert (Hl : isLoading (authState w) = true).
  { destruct tasks; cbn in Hall; apply andb_prop in Hall as [Hl _]; exact Hl. }
  unfold guardBody. unfold_mc. rewrite Hl, Hrun. reflexivity.
Qed.

(** X29: what a guard decides once the state is not loading.  If the
    state is authenticated the guard resolves to [true] and does nothing
    else.  If it is not, the guard calls [onRedirecting] if given and
    then [loginWithRedirect] with [returnTo] set to the option, or to the
    route's full path when the option is undefined, and resolves to
    [false] whether or not the login could be started; a login that
    rejects is only logged to the console.  The guard rejects only when
    [onRedirecting] throws, and then no login is attempted.  A route
    guard that finds no auth instance logs an error and resolves to
    [false]. *)
Theorem guard_decision :
  forall (engine : Engine) (options : AuthGuardOptions) (name fullPath : string)
         (tasks : list (M unit)) (log : list GuardEvent) (w : World),
    isLoading (authState w) = false ->
    let out := guardBody engine options name fullPath tasks (log, w) in
    let login := loginWithRedirect engine (guardLoginOptions options fullPath) w in
    (isAuthenticated (authState w) = true ->
     out = (Normal (Settle (Fulfilled true)), (log, w)))
    /\ (isAuthenticated (authState w) = false ->
        (forall t, onRedirecting options <> Some (Some t)) ->
        fst out = Normal (Settle (Fulfilled false))
        /\ snd (snd out) = world login
        /\ fst (snd out)
           = log
             ++ match onRedirecting options with
                | Some _ => [GuardOnRedirecting]
                | None => []
                end
             ++ match result login with
                | Normal (Rejected t) =>
                    [GuardConsoleError (name ++ ": Failed to redirect to login")%string
                                       (Some t)]
                | _ => []
                end)
    /\ (isAuthenticated (authState w) = false ->
        forall t, onRedirecting options = Some (Some t) ->
                  out = (Normal (Settle (Rejected t)), (log ++ [GuardOnRedirecting], w)))
    /\ authGuard engine options false fullPath tasks (log, w)
       = (Normal (Settle (Fulfilled false)),
          (log ++ [GuardConsoleError
                     "createAuthGuard: ScalekitAuthPlugin not installed. Make sure you have called app.use(ScalekitAuthPlugin, options)."
                     None], w)).
Proof.
  intros engine options name fullPath tasks log w Hload out login. subst out login.
  destruct (guardBody_ready engine options name fullPath tasks log w Hload)
    as (Hyes & Hno & Hthrows).
  split; [exact Hyes|]. split; [exact Hno|]. split; [exact Hthrows|]. reflexivity.
Qed.

Lemma guard_decision_witness :
  globalAuthGuard signedInEngine
    {| guardReturnTo := None; guardOrganizationId := None; guardConnectionId := None;
       guardLoginHint := None; onRedirecting := None |}
    "/dashboard" [] ([], signedInWorld)
  = (Normal (Settle (Fulfilled true)), ([], signedInWorld)).
Proof.
  apply (guard_decision signedInEngine
           {| guardReturnTo := None; guardOrganizationId := None;
              guardConnectionId := None; guardLoginHint := None; onRedirecting := None |}
           "globalAuthGuard" "/dashboard" [] [] signedInWorld);
    reflexivity.
Defined.

(** X30: a guard waits until the state stops loading.  Its promise is
    still pending exactly when the state was loading at every poll so
    far, and it has then logged nothing and not called [onRedirecting].  It resolves to [true] only in a
    state that is not loading and is authenticated, having called neither
    [onRedirecting] nor the console; and it rejects only with what
    [onRedirecting] threw. *)
Theorem guard_waits_while_loading :
  forall (engine : Engine) (options : AuthGuardOptions) (name fullPath : string)
         (tasks : list (M unit)) (log : list GuardEvent) (w : World),
    let out := guardBody engine options name fullPath tasks (log, w) in
    (fst out = Normal Pending <-> forallb stillLoading (pollWorlds tasks w) = true)
    /\ (fst out = Normal Pending -> fst (snd out) = log)
    /\ (fst out = Normal (Settle (Fulfilled true)) ->
        isLoading (authState (snd (snd out))) = false
        /\ isAuthenticated (authState (snd (snd out))) = true
        /\ fst (snd out) = log)
    /\ (forall t, fst out = Normal (Settle (Rejected t)) ->
                  onRedirecting options = Some (Some t)).
Proof.
  intros engine options name fullPath tasks log w out. subst out.
  destruct (forallb stillLoading (pollWorlds tasks w)) eqn:Hall.
  - destruct (guardBody_pending engine options name fullPath tasks log w Hall)
      as (w' & ->).
    cbn. repeat split; intros; try discriminate; reflexivity.
  - destruct (guardBody_after_wait engine options name fullPath tasks log w Hall)
      as (w' & Hl & ->).
    destruct (guardBody_ready engine options name fullPath [] log w' Hl)
      as (Hyes & Hno & Hthrows).
    destruct (isAuthenticated (authState w')) eqn:Ha.
    + rewrite (Hyes eq_refl). cbn.
      repeat split; intros; try discriminate; try assumption; reflexivity.
    + destruct (onRedirecting options) as [[t|]|] eqn:Hon.
      * rewrite (Hthrows eq_refl t eq_refl). cbn.
        repeat split; intros; try discriminate; try congruence.
      * destruct Hno as (Hres & _); [reflexivity | discriminate |].
        rewrite Hres. repeat split; intros; discriminate.
      * destruct Hno as (Hres & _); [reflexivity | discriminate |].
        rewrite Hres. repeat split; intros; discriminate.
Qed.


Lemma guard_waits_while_loading_witness :
  isAuthenticated
    (authState
       (snd (snd (guardBody signedInEngine
                    {| guardReturnTo := None; guardOrganizationId := None;
                       guardConnectionId := None; guardLoginHint := None;
                       onRedirecting := None |}
                    "globalAuthGuard" "/dashboard"
                    [void (initialize (fun _ => true) signedInEngine optionsDefault)]
                    ([], freshWorld (Some homeWindow))))))
  = true.
Proof.
  apply (guard_waits_while_loading signedInEngine
           {| guardReturnTo := None; guardOrganizationId := None;
              guardConnectionId := None; guardLoginHint := None; onRedirecting := None |}
           "globalAuthGuard" "/dashboard"
           [void (initialize (fun _ => true) signedInEngine optionsDefault)]
           [] (freshWorld (Some homeWindow))).
  reflexivity.
Defined.
